(** * G-code post-processor (Path/Post/scripts/base.py): a shallow embedding

    The file embeds the emitter of [base.py]: the line-number counter
    ([linenumber]), the token joiner ([format_outstring]), the command
    emitter ([parse]) with its modal-suppression memory, the canned-cycle
    expander ([drill_translate]) and, from the class [PostProcessorBase],
    the parameter formatter ([formatParameter]).

    Conventions of the embedding:
    - Python floats and [Units.Quantity] magnitudes are rationals ([Q]).
      The arithmetic of the peck loop (the next stop, the clearance
      depth, the step "backed off a bit") rounds its results to binary64
      ([Py.round64]); the additions that make the words of a cycle
      absolute in G91 mode and the unit conversions are exact.
    - The calls of the host that only compute or print ([format],
      [float], [getValueAs], [str], [print]) are taken to return.
    - Module globals that the functions mutate are the fields of
      [Globals]; options that the functions only read are the fields of
      [Config].  The globals whose initial values are set outside this
      file ([RAPID_MOVES], [MOTION_COMMANDS], [MODAL], ...) are fields of
      [Config] with no value fixed here.
    - A computation is a function from [Globals] to an [outcome]: a value
      with the new globals, a raised exception, or [Diverge] when the
      fuel given to the [while 1] loop of the expander runs out. *)

From Stdlib Require Import ZArith QArith Qround Qabs Qpower String Ascii List.
From Stdlib Require Import Sorted Lia Lqa.
From stdpp Require Import gmap strings pretty.

Open Scope Z_scope.
Open Scope string_scope.
Open Scope list_scope.

(** ** Text helpers (host-language primitives) *)

Module Py.

(** [str.strip()] removes these characters from both ends: the white
    space among the characters below 256 (tab to carriage return, the
    four separators, the blank, next line and the no-break space). *)
Definition is_space (a : ascii) : bool :=
  let n := N_of_ascii a in
  ((9 <=? n) && (n <=? 13) || (28 <=? n) && (n <=? 32)
   || (n =? 133) || (n =? 160))%N.

Fixpoint lstrip (s : string) : string :=
  match s with
  | String a s' => if is_space a then lstrip s' else s
  | EmptyString => EmptyString
  end.

Fixpoint rstrip (s : string) : string :=
  match s with
  | String a s' =>
      match rstrip s' with
      | EmptyString => if is_space a then EmptyString else String a EmptyString
      | r => String a r
      end
  | EmptyString => EmptyString
  end.

Definition strip (s : string) : string := rstrip (lstrip s).

(** [str(n)] for an integer. *)
Definition str_int (z : Z) : string := pretty z.

(** [int(x)]: truncation towards zero. *)
Definition int (q : Q) : Z := Qnum q ÷ Zpos (Qden q).

(** Rounding of a non-negative rational to the nearest integer, ties to
    even, as the float formatter does. *)
Definition round_half_even (q : Q) : Z :=
  let fl := Qfloor q in
  match Qcompare (q - inject_Z fl) (1 # 2) with
  | Lt => fl
  | Gt => fl + 1
  | Eq => if Z.even fl then fl else fl + 1
  end.

(** *** Binary64 numbers

    The values of [Units.Quantity] and the Python floats are binary64
    numbers.  A binary64 number is a rational; the result of an
    operation is the exact result rounded to the nearest binary64
    number. *)

(** [floor (log2 a)] for a positive rational [a]. *)
Definition ilog2 (a : Q) : Z :=
  let k := Z.log2 (Qnum a) - Z.log2 (Zpos (Qden a)) in
  if Qle_bool (2 ^ k) a then k else k - 1.

(** The binary64 number nearest to a rational, ties to even: 53
    significant bits, exponents down to that of the subnormal numbers.
    Overflow is not modelled: beyond the largest binary64 number the
    rounding goes on as if the exponents had no upper end. *)
Definition round64 (q : Q) : Q :=
  if Qeq_bool q 0 then 0%Q
  else
    let a := Qabs q in
    let e := Z.max (ilog2 a - 52) (-1074) in
    let m := round_half_even (a / 2 ^ e) in
    let r := (inject_Z m * 2 ^ e)%Q in
    Qred (if Qlt_le_dec q 0 then - r else r)%Q.

Definition fadd (a b : Q) : Q := round64 (a + b).
Definition fsub (a b : Q) : Q := round64 (a - b).
Definition fmul (a b : Q) : Q := round64 (a * b).

(** Half the gap between 1 and the next binary64 number, and half the
    smallest positive binary64 number: the rounding error of a result
    [x] is at most [eps64 * |x| + tiny64]. *)
Definition eps64 : Q := (2 ^ (-53))%Q.
Definition tiny64 : Q := (2 ^ (-1075))%Q.

Fixpoint zeros (n : nat) : string :=
  match n with
  | O => EmptyString
  | S n' => String "0" (zeros n')
  end.

(** Left padding with zeros up to [width] characters. *)
Definition zfill (width : nat) (s : string) : string :=
  zeros (width - String.length s) +:+ s.

(** [format(x, ".<prec>f")]: fixed point with exactly [prec] fractional
    digits, no decimal point when [prec] is zero, a minus sign for every
    negative argument. *)
Definition format_f (prec : nat) (q : Q) : string :=
  let pow := 10 ^ Z.of_nat prec in
  let scaled := round_half_even (Qabs q * inject_Z pow) in
  let sign := if Qlt_le_dec q 0 then "-" else "" in
  let ip := str_int (scaled / pow) in
  match prec with
  | O => sign +:+ ip
  | _ => sign +:+ ip +:+ "." +:+ zfill prec (str_int (scaled mod pow))
  end.

(** Line boundaries of [str.splitlines] among the one-byte characters. *)
Definition is_linebreak (a : ascii) : bool :=
  let n := N_of_ascii a in
  ((10 <=? n) && (n <=? 13) || (28 <=? n) && (n <=? 30) || (n =? 133))%N.

(** [s.splitlines(True)]: the lines of [s] with their terminators kept;
    a carriage return followed by a line feed is one terminator. *)
Fixpoint splitlines_go (cur : string) (s : string) : list string :=
  match s with
  | EmptyString =>
      match cur with EmptyString => [] | _ => [cur] end
  | String a s' =>
      if is_linebreak a then
        match a, s' with
        | "013"%char, String "010"%char s'' =>
            (cur +:+ String a (String "010"%char EmptyString))
              :: splitlines_go EmptyString s''
        | _, _ => (cur +:+ String a EmptyString) :: splitlines_go EmptyString s'
        end
      else splitlines_go (cur +:+ String a EmptyString) s'
  end.

Definition splitlines (s : string) : list string := splitlines_go EmptyString s.

(** [needle in haystack] for strings. *)
Definition contains (needle haystack : string) : bool :=
  match String.index 0 needle haystack with
  | Some _ => true
  | None => false
  end.

End Py.

(** ** Data model *)

(** A [Path.Command]: a mnemonic and a dictionary from parameter letter
    to value. *)
Record Command := mkCommand {
  Name : string;
  Parameters : gmap string Q
}.

(** The objects handed to [parse]: a compound with a [Group], a simple
    path with its commands (after placement), or something with neither
    attribute (stock and the like). *)
#[warnings="-register-all"]
Inductive PathObj :=
| Compound (Label : string) (Group : list PathObj)
| SimplePath (Label : string) (Commands : list Command)
| NotAPath.

(** The two values of [UNIT_FORMAT] and of [UNIT_SPEED_FORMAT]. *)
Inductive LengthUnit := unit_mm | unit_in.
Inductive SpeedUnit := unit_mm_min | unit_in_min.

(** [Units.Quantity(v, Length).getValueAs(u)], millimetres inside. *)
Definition length_as (u : LengthUnit) (v : Q) : Q :=
  match u with
  | unit_mm => v
  | unit_in => v / (254 # 10)
  end.

(** [Units.Quantity(v, Velocity).getValueAs(u)], millimetres per second
    inside. *)
Definition speed_as (u : SpeedUnit) (v : Q) : Q :=
  match u with
  | unit_mm_min => v * 60
  | unit_in_min => v * 60 / (254 # 10)
  end.

(** Options read by the emitter. *)
Record Config := mkConfig {
  OUTPUT_LINE_NUMBERS : bool;
  LINEINCR : Z;
  OUTPUT_COMMENTS : bool;
  MODAL : bool;
  PRECISION : nat;
  RAPID_MOVES : list string;
  MOTION_COMMANDS : list string;
  TRANSLATE_DRILL_CYCLES : bool;
  SPINDLE_WAIT : Q;
  OUTPUT_TOOL_CHANGE : bool;
  TOOL_CHANGE : string;
  SUPPRESS_COMMANDS : list string
}.

Definition COMMAND_SPACE : string := " ".

(** The line terminator. *)
Definition nl : string := String "010"%char EmptyString.

(** Module globals written during an export. *)
Record Globals := mkGlobals {
  LINENR : Z;
  DRILL_RETRACT_MODE : string;
  MOTION_MODE : string;
  CURRENT_X : Q;
  CURRENT_Y : Q;
  CURRENT_Z : Q;
  UNIT_FORMAT : LengthUnit;
  UNIT_SPEED_FORMAT : SpeedUnit
}.

Definition set_LINENR (n : Z) (g : Globals) : Globals :=
  mkGlobals n (DRILL_RETRACT_MODE g) (MOTION_MODE g)
            (CURRENT_X g) (CURRENT_Y g) (CURRENT_Z g)
            (UNIT_FORMAT g) (UNIT_SPEED_FORMAT g).

Definition set_DRILL_RETRACT_MODE (m : string) (g : Globals) : Globals :=
  mkGlobals (LINENR g) m (MOTION_MODE g)
            (CURRENT_X g) (CURRENT_Y g) (CURRENT_Z g)
            (UNIT_FORMAT g) (UNIT_SPEED_FORMAT g).

Definition set_MOTION_MODE (m : string) (g : Globals) : Globals :=
  mkGlobals (LINENR g) (DRILL_RETRACT_MODE g) m
            (CURRENT_X g) (CURRENT_Y g) (CURRENT_Z g)
            (UNIT_FORMAT g) (UNIT_SPEED_FORMAT g).

Definition set_CURRENT_X (v : Q) (g : Globals) : Globals :=
  mkGlobals (LINENR g) (DRILL_RETRACT_MODE g) (MOTION_MODE g)
            v (CURRENT_Y g) (CURRENT_Z g)
            (UNIT_FORMAT g) (UNIT_SPEED_FORMAT g).

Definition set_CURRENT_Y (v : Q) (g : Globals) : Globals :=
  mkGlobals (LINENR g) (DRILL_RETRACT_MODE g) (MOTION_MODE g)
            (CURRENT_X g) v (CURRENT_Z g)
            (UNIT_FORMAT g) (UNIT_SPEED_FORMAT g).

Definition set_CURRENT_Z (v : Q) (g : Globals) : Globals :=
  mkGlobals (LINENR g) (DRILL_RETRACT_MODE g) (MOTION_MODE g)
            (CURRENT_X g) (CURRENT_Y g) v
            (UNIT_FORMAT g) (UNIT_SPEED_FORMAT g).

(** ** Exceptions and the computation monad *)

Inductive exn :=
| KeyError (key : string)
| IndexError (msg : string)
| TypeError (msg : string)
| AttributeError (msg : string)
| UnboundLocalError (msg : string)
| PyException (msg : string).

(** What the caller sees of an exception: its message. *)
Definition exn_text (e : exn) : string :=
  match e with
  | KeyError k => k
  | IndexError m | TypeError m | AttributeError m
  | UnboundLocalError m | PyException m => m
  end.

Inductive outcome (A : Type) :=
| Ok (a : A) (g : Globals)
| Raise (e : exn)
| Diverge.
Arguments Ok {A} a g.
Arguments Raise {A} e.
Arguments Diverge {A}.

Definition M (A : Type) : Type := Globals -> outcome A.

Definition ret {A} (a : A) : M A := fun g => Ok a g.

Definition bind {A B} (m : M A) (k : A -> M B) : M B :=
  fun g =>
    match m g with
    | Ok a g' => k a g'
    | Raise e => Raise e
    | Diverge => Diverge
    end.

Definition raise {A} (e : exn) : M A := fun _ => Raise e.
Definition diverge {A} : M A := fun _ => Diverge.
Definition get : M Globals := fun g => Ok g g.
Definition modify (f : Globals -> Globals) : M unit := fun g => Ok tt (f g).

Declare Scope py_scope.
Delimit Scope py_scope with py.
Notation "x <- c1 ;; c2" := (bind c1 (fun x => c2))
  (at level 100, c1 at next level, right associativity) : py_scope.
Notation "c1 ;; c2" := (bind c1 (fun _ => c2))
  (at level 100, right associativity) : py_scope.
Open Scope py_scope.

(** [d[k]]: the value, or [KeyError]. *)
Definition getitem (d : gmap string Q) (k : string) : M Q :=
  match d !! k with
  | Some v => ret v
  | None => raise (KeyError k)
  end.

(** [x in l] for a list or tuple of strings. *)
Definition str_in (x : string) (l : list string) : bool :=
  existsb (String.eqb x) l.

(** ** The legacy emitter *)

Section Emitter.

(** [str(v)] for a number as the host language prints it. *)
Variable py_str : Q -> string.

Variable cfg : Config.

(** [linenumber()] *)
Definition linenumber : M string :=
  if negb (OUTPUT_LINE_NUMBERS cfg) then ret ""
  else
    g <- get ;;
    let s := "N" +:+ Py.str_int (LINENR g) +:+ " " in
    modify (set_LINENR (LINENR g + LINEINCR cfg)) ;;
    ret s.

(** [format_outstring(strTable)] *)
Definition format_outstring (strTable : list string) : string :=
  Py.strip (fold_left (fun s w => s +:+ w +:+ COMMAND_SPACE) strTable "").

(** The order in which [parse] looks for parameters. *)
Definition params : list string :=
  ["X"; "Y"; "Z"; "A"; "B"; "C"; "U"; "V"; "W"; "I"; "J"; "K";
   "F"; "S"; "T"; "Q"; "R"; "L"; "P"].

(** The body of the parameter loop of [parse] for one letter: the tokens
    it appends to [outstring]. *)
Definition param_token (g : Globals) (command : string)
    (Parameters : gmap string Q) (param : string) : list string :=
  match Parameters !! param with
  | None => []
  | Some v =>
      if String.eqb param "F" then
        if negb (str_in command (RAPID_MOVES cfg)) then
          let speed := speed_as (UNIT_SPEED_FORMAT g) v in
          if Qlt_le_dec 0 speed
          then [param +:+ Py.format_f (PRECISION cfg) speed]
          else []
        else []
      else if str_in param ["T"; "H"; "S"] then
        [param +:+ Py.str_int (Py.int v)]
      else if str_in param ["D"; "P"; "L"] then
        [param +:+ py_str v]
      else if str_in param ["A"; "B"; "C"] then
        [param +:+ Py.format_f (PRECISION cfg) v]
      else
        [param +:+ Py.format_f (PRECISION cfg) (length_as (UNIT_FORMAT g) v)]
  end.

Definition param_tokens (g : Globals) (command : string)
    (Parameters : gmap string Q) : list string :=
  flat_map (param_token g command Parameters) params.

(** [outstring] after the mnemonic, the modal test and the parameter
    loop. *)
Definition build_outstring (g : Globals) (lastcommand : option string)
    (c : Command) : list string :=
  let command := Name c in
  let outstring := [command] in
  let outstring :=
    if MODAL cfg then
      if bool_decide (lastcommand = Some command) then tl outstring
      else outstring
    else outstring in
  outstring ++ param_tokens g command (Parameters c).

(** *** The canned-cycle expander *)

(** [outstring[0] = "(" + outstring[0]; outstring[-1] = outstring[-1] + ")"] *)
Fixpoint close_last (l : list string) : list string :=
  match l with
  | [] => []
  | [w] => [w +:+ ")"]
  | w :: ws => w :: close_last ws
  end.

Definition comment_original (outstring : list string) : M (list string) :=
  match outstring with
  | [] => raise (IndexError "list index out of range")
  | w :: ws => ret (close_last (("(" +:+ w) :: ws))
  end.

(** The [while 1] loop of the peck cycle; one unit of fuel per turn. *)
Fixpoint peck_loop (fuel : nat) (fmt : Q -> string)
    (RETRACT_Z drill_Z drill_Step a_bit : Q)
    (strG0_RETRACT_Z strF_Feedrate : string)
    (last_Stop_Z : Q) (trBuff : string) : M string :=
  match fuel with
  | O => diverge
  | S fuel' =>
      trBuff <-
        (if negb (Qeq_bool last_Stop_Z RETRACT_Z) then
           let clearance_depth := Py.fadd last_Stop_Z a_bit in
           n <- linenumber ;;
           ret (trBuff +:+ n +:+ "G0 Z" +:+ fmt clearance_depth +:+ nl)
         else ret trBuff) ;;
      let next_Stop_Z := Py.fsub last_Stop_Z drill_Step in
      if Qlt_le_dec drill_Z next_Stop_Z then
        n <- linenumber ;;
        let trBuff := trBuff +:+ n +:+ "G1 Z" +:+ fmt next_Stop_Z
                        +:+ strF_Feedrate in
        n <- linenumber ;;
        let trBuff := trBuff +:+ n +:+ strG0_RETRACT_Z in
        peck_loop fuel' fmt RETRACT_Z drill_Z drill_Step a_bit
                  strG0_RETRACT_Z strF_Feedrate next_Stop_Z trBuff
      else
        n <- linenumber ;;
        let trBuff := trBuff +:+ n +:+ "G1 Z" +:+ fmt drill_Z
                        +:+ strF_Feedrate in
        n <- linenumber ;;
        ret (trBuff +:+ n +:+ strG0_RETRACT_Z)
  end.

(** The code under [# preliminary movement(s)]. *)
Definition preliminary_moves (g : Globals) (fmt : Q -> string)
    (drill_X drill_Y RETRACT_Z : Q)
    (strG0_RETRACT_Z strF_Feedrate : string) (trBuff : string) : M string :=
  trBuff <-
    (if Qlt_le_dec (CURRENT_Z g) RETRACT_Z then
       n <- linenumber ;; ret (trBuff +:+ n +:+ strG0_RETRACT_Z)
     else ret trBuff) ;;
  n <- linenumber ;;
  let trBuff := trBuff +:+ n +:+ "G0 X" +:+ fmt drill_X
                  +:+ " Y" +:+ fmt drill_Y +:+ nl in
  if Qlt_le_dec RETRACT_Z (CURRENT_Z g) then
    n <- linenumber ;;
    ret (trBuff +:+ n +:+ "G1 Z" +:+ fmt RETRACT_Z +:+ strF_Feedrate)
  else ret trBuff.

(** The code under [# drill moves].  It returns the text accumulated in
    [trBuff] and the exception that cut the guarded block short, if any:
    only the lookup of ["Q"] and the use of the unbound [drill_Step] can
    raise there, and only for a [cmd] other than the three cycles. *)
Definition drill_moves (fuel : nat) (fmt : Q -> string) (cmd : string)
    (params : gmap string Q) (drill_Z RETRACT_Z : Q)
    (drill_Step a_bit drill_DwellTime : option Q)
    (strG0_RETRACT_Z strF_Feedrate : string) (last_Stop_Z : Q)
    (trBuff : string) : M (string * option exn) :=
  if str_in cmd ["G81"; "G82"] then
    n <- linenumber ;;
    let trBuff := trBuff +:+ n +:+ "G1 Z" +:+ fmt drill_Z
                    +:+ strF_Feedrate in
    (* pause where applicable *)
    trBuff <-
      (if String.eqb cmd "G82" then
         match drill_DwellTime with
         | Some p =>
             n <- linenumber ;;
             ret (trBuff +:+ n +:+ "G4 P" +:+ py_str p +:+ nl)
         | None => ret trBuff
         end
       else ret trBuff) ;;
    n <- linenumber ;;
    ret (trBuff +:+ n +:+ strG0_RETRACT_Z, None)
  else (* 'G83' *)
    match params !! "Q" with
    | None => ret (trBuff, Some (KeyError "Q"))
    | Some q =>
        if negb (Qeq_bool q 0) then
          match drill_Step, a_bit with
          | Some step, Some bit =>
              trBuff <- peck_loop fuel fmt RETRACT_Z drill_Z step bit
                          strG0_RETRACT_Z strF_Feedrate last_Stop_Z trBuff ;;
              ret (trBuff, None)
          | _, _ => ret (trBuff, Some (UnboundLocalError "drill_Step"))
          end
        else ret (trBuff, None)
    end.

(** The block guarded by [try: ... except Exception as e: pass].  The
    calls of the host in the block ([format], [float], [getValueAs],
    [str], and the [print] of the feed word, which writes to the console
    and not into the result) are taken to return.  The exceptions that
    the statements of the block raise themselves, the key error of a
    missing Q and the use of the unbound [drill_Step], end the block: it
    returns them beside the text, and the handler in [drill_translate]
    passes over them. *)
Definition drill_block (fuel : nat) (g : Globals) (cmd : string)
    (params : gmap string Q)
    (drill_X drill_Y drill_Z RETRACT_Z drill_feedrate : Q)
    (drill_Step a_bit drill_DwellTime : option Q)
    (trBuff : string) : M (string * option exn) :=
  let fmt := fun v : Q =>
    Py.format_f (PRECISION cfg) (length_as (UNIT_FORMAT g) v) in
  trBuff <-
    (if String.eqb (MOTION_MODE g) "G91" then
       (* force absolute coordinates during cycles *)
       n <- linenumber ;; ret (trBuff +:+ n +:+ "G90" +:+ nl)
     else ret trBuff) ;;
  let strG0_RETRACT_Z := "G0 Z" +:+ fmt RETRACT_Z +:+ nl in
  let strF_Feedrate :=
    " F" +:+ Py.format_f 2 (speed_as (UNIT_SPEED_FORMAT g) drill_feedrate)
         +:+ nl in
  trBuff <- preliminary_moves g fmt drill_X drill_Y RETRACT_Z
              strG0_RETRACT_Z strF_Feedrate trBuff ;;
  let last_Stop_Z := RETRACT_Z in
  drill_moves fuel fmt cmd params drill_Z RETRACT_Z
    drill_Step a_bit drill_DwellTime
    strG0_RETRACT_Z strF_Feedrate last_Stop_Z trBuff.

(** [drill_translate(outstring, cmd, params)] *)
Definition drill_translate (fuel : nat) (outstring : list string)
    (cmd : string) (params : gmap string Q) : M string :=
  g <- get ;;
  let trBuff := "" in
  trBuff <-
    (if OUTPUT_COMMENTS cfg then (* Comment the original command *)
       outstring <- comment_original outstring ;;
       n <- linenumber ;;
       ret (trBuff +:+ n +:+ format_outstring outstring +:+ nl)
     else ret trBuff) ;;
  drill_X <- getitem params "X" ;;
  drill_Y <- getitem params "Y" ;;
  drill_Z <- getitem params "Z" ;;
  RETRACT_Z <- getitem params "R" ;;
  (* R less than Z is error *)
  if Qlt_le_dec RETRACT_Z drill_Z then
    n <- linenumber ;;
    ret (trBuff +:+ n +:+ "(drill cycle error: R less than Z )" +:+ nl)
  else
    let relative := String.eqb (MOTION_MODE g) "G91" in
    let drill_X := if relative then (drill_X + CURRENT_X g)%Q else drill_X in
    let drill_Y := if relative then (drill_Y + CURRENT_Y g)%Q else drill_Y in
    let drill_Z := if relative then (drill_Z + CURRENT_Z g)%Q else drill_Z in
    let RETRACT_Z := if relative then (RETRACT_Z + CURRENT_Z g)%Q else RETRACT_Z in
    let RETRACT_Z :=
      if String.eqb (DRILL_RETRACT_MODE g) "G98"
         && (if Qlt_le_dec (CURRENT_Z g) RETRACT_Z then false else true)
      then CURRENT_Z g else RETRACT_Z in
    (* get the other parameters *)
    drill_feedrate <- getitem params "F" ;;
    drill_Step <-
      (if String.eqb cmd "G83" then
         v <- getitem params "Q" ;; ret (Some v)
       else ret None) ;;
    let a_bit :=
      option_map (fun s => Py.fmul s (Py.round64 (5 # 100))) drill_Step in
    drill_DwellTime <-
      (if negb (String.eqb cmd "G83") && String.eqb cmd "G82" then
         v <- getitem params "P" ;; ret (Some v)
       else ret None) ;;
    r <- drill_block fuel g cmd params drill_X drill_Y drill_Z RETRACT_Z
           drill_feedrate drill_Step a_bit drill_DwellTime trBuff ;;
    (* except Exception as e: pass *)
    let trBuff := fst r in
    if relative then
      n <- linenumber ;; ret (trBuff +:+ n +:+ "G91") (* Restore if changed *)
    else ret trBuff.

(** *** The command loop *)

(** The accumulator [out] of [parse]: a string, or the list that the
    ["message"] branch rebinds it to ([out = []]); [+=] with a string
    extends such a list by the characters of the string. *)
Inductive pyout :=
| OutStr (s : string)
| OutList (chars : string).

Definition out_add (out : pyout) (s : string) : pyout :=
  match out with
  | OutStr t => OutStr (t +:+ s)
  | OutList t => OutList (t +:+ s)
  end.

(** The position and mode trackers updated after each command. *)
Definition track (c : Command) (g : Globals) : Globals :=
  let command := Name c in
  let g :=
    if str_in command (MOTION_COMMANDS cfg) then
      let g := match Parameters c !! "X" with
               | Some v => set_CURRENT_X v g | None => g end in
      let g := match Parameters c !! "Y" with
               | Some v => set_CURRENT_Y v g | None => g end in
      match Parameters c !! "Z" with
      | Some v => set_CURRENT_Z v g | None => g end
    else g in
  let g := if str_in command ["G98"; "G99"]
           then set_DRILL_RETRACT_MODE command g else g in
  if str_in command ["G90"; "G91"] then set_MOTION_MODE command g else g.

(** The regular expression matched against the mnemonic,
    [^\(MC_RUN_COMMAND: ([^)]+)\)$]: the payload of a machine-command
    comment, if the mnemonic is one. *)
Fixpoint until_paren (s : string) : option (string * string) :=
  match s with
  | EmptyString => None
  | String a s' =>
      if Ascii.eqb a ")" then Some (EmptyString, s')
      else match until_paren s' with
           | Some (p, r) => Some (String a p, r)
           | None => None
           end
  end.

Definition mc_run_command (command : string) : option string :=
  let marker := "(MC_RUN_COMMAND: " in
  if String.prefix marker command then
    let rest := String.substring (String.length marker)
                  (String.length command - String.length marker) command in
    match until_paren rest with
    | Some (payload, tail) =>
        if negb (String.eqb payload "")
           && (String.eqb tail "" || String.eqb tail nl)
        then Some payload else None
    | None => None
    end
  else None.

(** [out += linenumber() + line] for each line of a text block. *)
Fixpoint emit_block (lines : list string) (out : pyout) : M pyout :=
  match lines with
  | [] => ret out
  | line :: lines' =>
      n <- linenumber ;;
      emit_block lines' (out_add out (n +:+ line))
  end.

Definition is_drill_cycle (command : string) : bool :=
  str_in command ["G81"; "G82"; "G83"].

Definition is_spindle_start (command : string) : bool :=
  str_in command ["M3"; "M03"; "M4"; "M04"].

Definition is_tool_change (command : string) : bool :=
  str_in command ["M6"; "M06"].

(** The body of the [for c in ...Commands] loop of [parse], from the
    state of its locals [out] and [lastcommand] to the new [out]. *)
Definition parse_command (fuel : nat) (lastcommand : option string)
    (c : Command) (out : pyout) : M pyout :=
  g <- get ;;
  let command := Name c in
  let outstring := build_outstring g lastcommand c in
  (* Memorizes the current position and the modes *)
  modify (track c) ;;
  r <-
    (if TRANSLATE_DRILL_CYCLES cfg && is_drill_cycle command then
       t <- drill_translate fuel outstring command (Parameters c) ;;
       (* Erase the line we just translated *)
       ret (out_add out t, [])
     else ret (out, outstring)) ;;
  let out := fst r in
  let outstring := snd r in
  r <-
    (if (if Qlt_le_dec 0 (SPINDLE_WAIT cfg) then true else false)
        && is_spindle_start command then
       n <- linenumber ;;
       let out := out_add out (n +:+ format_outstring outstring +:+ nl) in
       n <- linenumber ;;
       let out :=
         out_add out
           (n +:+ format_outstring ["G4"; "P" +:+ py_str (SPINDLE_WAIT cfg)]
              +:+ nl) in
       ret (out, [])
     else ret (out, outstring)) ;;
  let out := fst r in
  let outstring := snd r in
  (* Check for Tool Change *)
  r <-
    (if is_tool_change command then
       out <-
         (if OUTPUT_COMMENTS cfg then
            n <- linenumber ;;
            ret (out_add out (n +:+ "(Begin toolchange)" +:+ nl))
          else ret out) ;;
       if negb (OUTPUT_TOOL_CHANGE cfg) then
         ret (out, "(" :: outstring ++ [")"])
       else
         out <- emit_block (Py.splitlines (TOOL_CHANGE cfg)) out ;;
         ret (out, outstring)
     else ret (out, outstring)) ;;
  let out := fst r in
  let outstring := snd r in
  r <-
    (if String.eqb command "message" then
       if negb (OUTPUT_COMMENTS cfg) then ret (OutList "", outstring)
       else
         match outstring with
         | [] => raise (IndexError "pop from empty list")
         | _ :: rest => ret (out, rest) (* remove the command *)
         end
     else ret (out, outstring)) ;;
  let out := fst r in
  let outstring := snd r in
  let outstring :=
    if str_in command (SUPPRESS_COMMANDS cfg)
    then "(" :: outstring ++ [")"] else outstring in
  (* prepend a line number and append a newline *)
  out <-
    (match outstring with
     | [] => ret out
     | _ :: _ =>
         n <- linenumber ;;
         ret (out_add out (n +:+ format_outstring outstring +:+ nl))
     end) ;;
  (* comments containing machine-specific commands *)
  match mc_run_command command with
  | Some raw_command =>
      n <- linenumber ;;
      ret (out_add out (n +:+ raw_command +:+ nl))
  | None => ret out
  end.

(** The command loop with its memory [lastcommand]. *)
Fixpoint parse_commands (fuel : nat) (cs : list Command)
    (lastcommand : option string) (out : pyout) : M pyout :=
  match cs with
  | [] => ret out
  | c :: cs' =>
      out <- parse_command fuel lastcommand c out ;;
      parse_commands fuel cs' (Some (Name c)) out
  end.

(** [out += parse(p)] where [out] is a string: a list on the right is a
    type error. *)
Definition out_concat (out : string) (r : pyout) : M string :=
  match r with
  | OutStr s => ret (out +:+ s)
  | OutList _ =>
      raise (TypeError "can only concatenate str (not list) to str")
  end.

(** [parse(pathobj)] *)
Fixpoint parse (fuel : nat) (pathobj : PathObj) : M pyout :=
  match pathobj with
  | Compound Label Group => (* We have a compound or project. *)
      out <-
        (if OUTPUT_COMMENTS cfg then
           n <- linenumber ;;
           ret (n +:+ "(Compound: " +:+ Label +:+ ")" +:+ nl)
         else ret "") ;;
      (fix group (ps : list PathObj) (out : string) : M pyout :=
         match ps with
         | [] => ret (OutStr out)
         | p :: ps' =>
             r <- parse fuel p ;;
             out <- out_concat out r ;;
             group ps' out
         end) Group out
  | NotAPath => ret (OutStr "")
  | SimplePath Label Commands =>
      let out := OutStr "" in
      let lastcommand := None in
      out <-
        (if OUTPUT_COMMENTS cfg then
           n <- linenumber ;;
           ret (out_add out (n +:+ "(Path: " +:+ Label +:+ ")" +:+ nl))
         else ret out) ;;
      parse_commands fuel Commands lastcommand out
  end.

End Emitter.

(** ** The class [PostProcessorBase]: parameter formatting *)

Module PostProcessorBase.

Inductive GCodeUnit := IMPERIAL | METRIC.

Definition unit (u : GCodeUnit) : LengthUnit :=
  match u with IMPERIAL => unit_in | METRIC => unit_mm end.

Definition speed_unit (u : GCodeUnit) : SpeedUnit :=
  match u with IMPERIAL => unit_in_min | METRIC => unit_mm_min end.

Definition convertPosition (u : GCodeUnit) (value : Q) : Q :=
  length_as (unit u) value.

Definition convertSpeed (u : GCodeUnit) (value : Q) : Q :=
  speed_as (speed_unit u) value.

(** The class [Format]: the kinds of parameter are plain strings. *)
Module Format.
Definition POSITION : string := "Position".
Definition ROTATION : string := "Rotation".
Definition ARC : string := "Arc".
Definition RADIUS : string := "Radius".
Definition FEED : string := "Feed".
End Format.

(** The result of a method: a value or a raised exception. *)
Inductive result (A : Type) :=
| Returns (a : A)
| Raises (e : exn).
Arguments Returns {A} a.
Arguments Raises {A} e.

Definition and_then {A B} (r : result A) (k : A -> result B) : result B :=
  match r with
  | Returns a => k a
  | Raises e => Raises e
  end.

Section Methods.

Variable py_str : Q -> string.

(** [self.units], [None] until the preamble or the default sets it. *)
Variable units : option GCodeUnit.

(** [formatFloat]: the source calls [format(".%sf" % self.PRECISION,
    value)], the format string in the place of the value and the number
    in the place of the format specification, which is a type error for
    every number. *)
Definition formatFloat (value : Q) : result string :=
  Raises (TypeError "format() argument 2 must be str").

Definition the_units : result GCodeUnit :=
  match units with
  | Some u => Returns u
  | None => Raises (AttributeError "'NoneType' object has no attribute")
  end.

(** [formatParameter(param, value, format)]: the [match] statement
    compares [format] with the five kinds in the order POSITION, ARC,
    RADIUS, ROTATION, FEED and has no default case; for any other
    [format] the value is left as it came and printed by ["%s"]. *)
Definition formatParameter (param : string) (value : Q) (format : string)
    : result string :=
  and_then
    (if String.eqb format Format.POSITION then
       and_then the_units (fun u => formatFloat (convertPosition u value))
     else if String.eqb format Format.ARC then
       and_then the_units (fun u => formatFloat (convertPosition u value))
     else if String.eqb format Format.RADIUS then
       and_then the_units (fun u => formatFloat (convertPosition u value))
     else if String.eqb format Format.ROTATION then
       formatFloat value
     else if String.eqb format Format.FEED then
       and_then the_units (fun u =>
         let speed := convertSpeed u value in
         if Qlt_le_dec 0 speed then formatFloat speed
         else Raises (PyException
                ("Invalid value for feed rate: " +:+ py_str value)))
     else Returns (py_str value))
    (fun value => Returns (param +:+ value)).

End Methods.

End PostProcessorBase.

(** * Concrete inputs *)

(** A stand-in for the host's [str] on numbers: one fractional digit. *)
Definition demo_str (q : Q) : string := Py.format_f 1 q.

(** Three decimals, no comments, no line numbers, drill cycles
    translated; the rapid and motion sets of the stock post-processors. *)
Definition demo_cfg : Config :=
  {| OUTPUT_LINE_NUMBERS := false; LINEINCR := 10;
     OUTPUT_COMMENTS := false; MODAL := false; PRECISION := 3;
     RAPID_MOVES := ["G0"; "G00"];
     MOTION_COMMANDS := ["G0"; "G00"; "G1"; "G01"; "G2"; "G02"; "G3"; "G03"];
     TRANSLATE_DRILL_CYCLES := true; SPINDLE_WAIT := 0;
     OUTPUT_TOOL_CHANGE := true; TOOL_CHANGE := "";
     SUPPRESS_COMMANDS := ["G99"; "G98"; "G80"] |}.

(** The same with MODAL enabled. *)
Definition modal_cfg : Config :=
  {| OUTPUT_LINE_NUMBERS := false; LINEINCR := 10;
     OUTPUT_COMMENTS := false; MODAL := true; PRECISION := 3;
     RAPID_MOVES := ["G0"; "G00"];
     MOTION_COMMANDS := ["G0"; "G00"; "G1"; "G01"; "G2"; "G02"; "G3"; "G03"];
     TRANSLATE_DRILL_CYCLES := true; SPINDLE_WAIT := 0;
     OUTPUT_TOOL_CHANGE := true; TOOL_CHANGE := "";
     SUPPRESS_COMMANDS := ["G99"; "G98"; "G80"] |}.

(** The same with line numbers. *)
Definition numbered_cfg : Config :=
  {| OUTPUT_LINE_NUMBERS := true; LINEINCR := 10;
     OUTPUT_COMMENTS := false; MODAL := false; PRECISION := 3;
     RAPID_MOVES := ["G0"; "G00"];
     MOTION_COMMANDS := ["G0"; "G00"; "G1"; "G01"; "G2"; "G02"; "G3"; "G03"];
     TRANSLATE_DRILL_CYCLES := true; SPINDLE_WAIT := 0;
     OUTPUT_TOOL_CHANGE := true; TOOL_CHANGE := "";
     SUPPRESS_COMMANDS := ["G99"; "G98"; "G80"] |}.

(** Metric, absolute mode, the tool at X0 Y0 and the given height, the
    line counter at 100. *)
Definition demo_globals (retract_mode : string) (z : Q) : Globals :=
  {| LINENR := 100; DRILL_RETRACT_MODE := retract_mode; MOTION_MODE := "G90";
     CURRENT_X := 0; CURRENT_Y := 0; CURRENT_Z := z;
     UNIT_FORMAT := unit_mm; UNIT_SPEED_FORMAT := unit_mm_min |}.

Definition words (l : list (string * Q)) : gmap string Q := list_to_map l.

(** The cycles of the examples: hole at X1 Y2, feed 100 mm/s. *)
Definition hole (z r : Q) : list (string * Q) :=
  [("X", 1%Q); ("Y", 2%Q); ("Z", z); ("R", r); ("F", 100%Q)].

Definition G81_example : Command :=
  mkCommand "G81" (words (hole (-10 # 1) (5 # 1))).

Definition G83_example (q : Q) : Command :=
  mkCommand "G83" (words (hole (-10 # 1) (5 # 1) ++ [("Q", q)])).

Definition G83_inverted : Command :=
  mkCommand "G83" (words (hole (-10 # 1) (-15 # 1) ++ [("Q", 3%Q)])).

Definition G81_without_X : Command :=
  mkCommand "G81"
    (words [("Y", 2%Q); ("Z", (-10 # 1)%Q); ("R", 5%Q); ("F", 100%Q)]).

Definition G1_feed (f : Q) : Command :=
  mkCommand "G1" (words [("X", 1%Q); ("F", f)]).

Definition G0_feed (f : Q) : Command :=
  mkCommand "G0" (words [("X", 1%Q); ("F", f)]).

Definition G82_example (p : Q) : Command :=
  mkCommand "G82" (words (hole (-10 # 1) (5 # 1) ++ [("P", p)])).



(** The configuration of the examples with a spindle wait of two
    seconds. *)
Definition spindle_cfg : Config :=
  {| OUTPUT_LINE_NUMBERS := false; LINEINCR := 10;
     OUTPUT_COMMENTS := false; MODAL := false; PRECISION := 3;
     RAPID_MOVES := ["G0"; "G00"];
     MOTION_COMMANDS := ["G0"; "G00"; "G1"; "G01"; "G2"; "G02"; "G3"; "G03"];
     TRANSLATE_DRILL_CYCLES := true; SPINDLE_WAIT := 2;
     OUTPUT_TOOL_CHANGE := true; TOOL_CHANGE := "";
     SUPPRESS_COMMANDS := ["G99"; "G98"; "G80"] |}.

(** With a tool change block of two lines, the second one without a
    line terminator. *)
Definition toolchange_cfg : Config :=
  {| OUTPUT_LINE_NUMBERS := false; LINEINCR := 10;
     OUTPUT_COMMENTS := false; MODAL := false; PRECISION := 3;
     RAPID_MOVES := ["G0"; "G00"];
     MOTION_COMMANDS := ["G0"; "G00"; "G1"; "G01"; "G2"; "G02"; "G3"; "G03"];
     TRANSLATE_DRILL_CYCLES := true; SPINDLE_WAIT := 0;
     OUTPUT_TOOL_CHANGE := true; TOOL_CHANGE := "M5" +:+ nl +:+ "G28";
     SUPPRESS_COMMANDS := ["G99"; "G98"; "G80"] |}.

(** With comments and MODAL on. *)
Definition comments_cfg : Config :=
  {| OUTPUT_LINE_NUMBERS := false; LINEINCR := 10;
     OUTPUT_COMMENTS := true; MODAL := true; PRECISION := 3;
     RAPID_MOVES := ["G0"; "G00"];
     MOTION_COMMANDS := ["G0"; "G00"; "G1"; "G01"; "G2"; "G02"; "G3"; "G03"];
     TRANSLATE_DRILL_CYCLES := true; SPINDLE_WAIT := 0;
     OUTPUT_TOOL_CHANGE := true; TOOL_CHANGE := "";
     SUPPRESS_COMMANDS := ["G99"; "G98"; "G80"] |}.

Definition M3_example : Command := mkCommand "M3" (words [("S", 12000%Q)]).

Definition M6_example : Command := mkCommand "M6" (words [("T", 2%Q)]).

Definition message_example : Command :=
  mkCommand "message" (words [("P", 1%Q)]).

Definition bare_message : Command := mkCommand "message" (words []).

Definition coolant_comment : Command :=
  mkCommand "(MC_RUN_COMMAND: M8 P1)" (words []).

Definition G98_example : Command := mkCommand "G98" (words []).

Definition G1_to (x z : Q) : Command :=
  mkCommand "G1" (words [("X", x); ("Z", z)]).



(** The plain cycle of the examples with a feed of its own. *)
Definition G81_feed (f : Q) : Command :=
  mkCommand "G81"
    (words [("X", 1%Q); ("Y", 2%Q); ("Z", (-10 # 1)%Q); ("R", 5%Q);
            ("F", f)]).

(** * Properties *)

Section EmitterFacts.

Variable py_str : Q -> string.
Variable cfg : Config.

(** ** Descriptions of the emitted text *)

(** What one call of [linenumber] returns, and what it does to the
    globals. *)
Definition prefix_at (linenr : Z) : string :=
  if OUTPUT_LINE_NUMBERS cfg then "N" +:+ Py.str_int linenr +:+ " " else "".

Definition bump (g : Globals) : Globals :=
  if OUTPUT_LINE_NUMBERS cfg then set_LINENR (LINENR g + LINEINCR cfg) g else g.

Definition advance (k : nat) (g : Globals) : Globals := Nat.iter k bump g.

(** The text of a run of lines, each behind its own [linenumber()]. *)
Fixpoint render (g : Globals) (bodies : list string) : string :=
  match bodies with
  | [] => ""
  | b :: bs => prefix_at (LINENR g) +:+ b +:+ render (bump g) bs
  end.


(** The comment line that keeps the original command, when comments are
    enabled. *)
Definition comment_lines (outstring : list string) : list string :=
  if OUTPUT_COMMENTS cfg then
    match outstring with
    | [] => []
    | w :: ws => [format_outstring (close_last (("(" +:+ w) :: ws)) +:+ nl]
    end
  else [].

Definition diagnostic : string := "(drill cycle error: R less than Z )" +:+ nl.

(** A line body that opens with a parenthesis is a comment for the
    controller, not a motion. *)
Definition comment_shaped (body : string) : Prop :=
  exists rest : string, body = String "(" rest.

(** The line left of a suppressed mnemonic once its tokens are erased. *)
Definition suppressed_lines (command : string) : list string :=
  if str_in command (SUPPRESS_COMMANDS cfg)
  then [format_outstring ["("; ")"] +:+ nl] else [].

(** The lines of the approach: a rapid up to the retract height when the
    tool is below it, the rapid to the hole, a feed down to the retract
    height when the tool is above it. *)
Definition approach_lines (g : Globals) (fmt : Q -> string)
    (drill_X drill_Y RETRACT_Z : Q) (strG0_RETRACT_Z strF_Feedrate : string)
    : list string :=
  (if Qlt_le_dec (CURRENT_Z g) RETRACT_Z then [strG0_RETRACT_Z] else [])
  ++ ["G0 X" +:+ fmt drill_X +:+ " Y" +:+ fmt drill_Y +:+ nl]
  ++ (if Qlt_le_dec RETRACT_Z (CURRENT_Z g)
      then ["G1 Z" +:+ fmt RETRACT_Z +:+ strF_Feedrate] else []).

(** The intermediate stop depths of a peck cycle, as the loop computes
    them: each one a step below the one before, in binary64
    arithmetic. *)
Fixpoint stops_from (step last : Q) (n : nat) : list Q :=
  match n with
  | O => []
  | S n' => Py.fsub last step :: stops_from step (Py.fsub last step) n'
  end.

(** [n] stops fit above the hole bottom and the next one does not. *)
Fixpoint stops_valid (dz step last : Q) (n : nat) : Prop :=
  match n with
  | O => (Py.fsub last step <= dz)%Q
  | S n' =>
      (dz < Py.fsub last step)%Q /\ stops_valid dz step (Py.fsub last step) n'
  end.

(** The lines of the peck loop from the stop [last]: the rapid back to
    just above the last stop (not before the first plunge), then for
    each intermediate stop a plunge and a retract, then the plunge to
    the hole bottom and a retract. *)
Definition clearance_lines (fmt : Q -> string) (rz a_bit last : Q)
    : list string :=
  if Qeq_bool last rz then []
  else ["G0 Z" +:+ fmt (Py.fadd last a_bit) +:+ nl].

Fixpoint peck_lines (fmt : Q -> string) (rz dz a_bit : Q)
    (strG0 strF : string) (last : Q) (stops : list Q) : list string :=
  clearance_lines fmt rz a_bit last
  ++ match stops with
     | [] => ["G1 Z" +:+ fmt dz +:+ strF; strG0]
     | s :: rest =>
         ["G1 Z" +:+ fmt s +:+ strF; strG0]
         ++ peck_lines fmt rz dz a_bit strG0 strF s rest
     end.


(** The pieces of an expanded cycle. *)
Definition fmt_len (g : Globals) (v : Q) : string :=
  Py.format_f (PRECISION cfg) (length_as (UNIT_FORMAT g) v).

Definition rapid_Z (g : Globals) (v : Q) : string :=
  "G0 Z" +:+ fmt_len g v +:+ nl.

Definition feed_word (g : Globals) (f : Q) : string :=
  " F" +:+ Py.format_f 2 (speed_as (UNIT_SPEED_FORMAT g) f) +:+ nl.

Definition feed_Z (g : Globals) (v f : Q) : string :=
  "G1 Z" +:+ fmt_len g v +:+ feed_word g f.

Definition relative (g : Globals) : bool := String.eqb (MOTION_MODE g) "G91".

(** A coordinate of the cycle in absolute terms. *)
Definition absolute (g : Globals) (current v : Q) : Q :=
  if relative g then (v + current)%Q else v.

(** The retract height the expansion works with: the R word made
    absolute, raised to the current height in G98 mode when the tool is
    already at or above it. *)
Definition retract_height (g : Globals) (r : Q) : Q :=
  let rz := absolute g (CURRENT_Z g) r in
  if String.eqb (DRILL_RETRACT_MODE g) "G98"
     && (if Qlt_le_dec (CURRENT_Z g) rz then false else true)
  then CURRENT_Z g else rz.

Definition force_lines (g : Globals) : list string :=
  if relative g then ["G90" +:+ nl] else [].

Definition restore_lines (g : Globals) : list string :=
  if relative g then ["G91"] else [].

(** All the lines of an accepted cycle around the lines of its descent. *)
Definition cycle_lines (g : Globals) (outstring : list string)
    (x y r f : Q) (descent : list string) : list string :=
  comment_lines outstring
  ++ force_lines g
  ++ approach_lines g (fmt_len g)
       (absolute g (CURRENT_X g) x) (absolute g (CURRENT_Y g) y)
       (retract_height g r)
       (rapid_Z g (retract_height g r)) (feed_word g f)
  ++ descent
  ++ restore_lines g.

Definition rapid_XY (g : Globals) (x y : Q) : string :=
  "G0 X" +:+ fmt_len g x +:+ " Y" +:+ fmt_len g y +:+ nl.

(** A command that takes none of the special branches of the loop: not
    a translated drill cycle, not a spindle start followed by a wait, not
    a tool change, not a message, not suppressed, not a machine-command
    comment. *)
Definition ordinary (command : string) : bool :=
  negb (TRANSLATE_DRILL_CYCLES cfg && is_drill_cycle command)
  && negb ((if Qlt_le_dec 0 (SPINDLE_WAIT cfg) then true else false)
           && is_spindle_start command)
  && negb (is_tool_change command)
  && negb (String.eqb command "message")
  && negb (str_in command (SUPPRESS_COMMANDS cfg))
  && match mc_run_command command with None => true | Some _ => false end.

(** The line of a token list: none for an empty list. *)
Definition emitted_line (outstring : list string) : list string :=
  match outstring with
  | [] => []
  | _ :: _ => [format_outstring outstring +:+ nl]
  end.

(** A token that is not a feed word. *)
Definition no_feed_word (token : string) : Prop :=
  String.prefix "F" token = false.

(** The name kept in [lastcommand] after a run of commands. *)
Definition last_command (lastcommand : option string) (cs : list Command)
    : option string :=
  fold_left (fun _ c => Some (Name c)) cs lastcommand.

(** A token without white space. *)
Fixpoint spaceless (s : string) : bool :=
  match s with
  | EmptyString => true
  | String a s' => negb (Py.is_space a) && spaceless s'
  end.

(** A token as the parameter loop writes them: not empty, no white
    space inside. *)
Definition plain_token (w : string) : Prop :=
  w <> "" /\ spaceless w = true.

(** The first of the letters that the dictionary has no value for. *)
Definition first_missing (params : gmap string Q) (keys : list string)
    : option string :=
  find (fun key => match params !! key with None => true | Some _ => false end)
       keys.



(** The words that an accepted cycle reads after the geometry: the feed,
    then the step of a peck cycle or the pause of a dwell cycle. *)
Definition cycle_words (cmd : string) : list string :=
  "F" :: (if String.eqb cmd "G83" then ["Q"]
          else if String.eqb cmd "G82" then ["P"] else []).

(** A computation whose only effect on the globals is to advance the
    line counter. *)
Definition counter_only {A} (m : M A) : Prop :=
  forall (g g' : Globals) (a : A),
    m g = Ok a g' -> exists k : nat, g' = advance k g.

(** The globals after the trackers of a run of commands, in order. *)
Definition tracked (cs : list Command) (g : Globals) : Globals :=
  fold_left (fun g c => track cfg c g) cs g.

(** The commands of a path object in the order [parse] meets them. *)
Fixpoint commands_of (pathobj : PathObj) : list Command :=
  match pathobj with
  | Compound _ Group =>
      (fix all (ps : list PathObj) : list Command :=
         match ps with
         | [] => []
         | p :: ps' => commands_of p ++ all ps'
         end) Group
  | SimplePath _ Commands => Commands
  | NotAPath => []
  end.

(** [parse] on a path object leaves the globals as the trackers of its
    commands leave them, the line counter apart. *)
Definition frame_ok (fuel : nat) (pathobj : PathObj) : Prop :=
  forall (out : pyout) (g g' : Globals),
    parse py_str cfg fuel pathobj g = Ok out g' ->
    exists k : nat, g' = advance k (tracked (commands_of pathobj) g).

(** The output accumulated so far with more text behind it. *)
Definition extends (out out' : pyout) : Prop :=
  exists text : string, out' = out_add out text.

(** The accumulator once [out = []] has rebound it to a list. *)
Definition is_list (out : pyout) : Prop :=
  exists chars : string, out = OutList chars.

(** A ["message"] command met with comments off, the one place where the
    loop assigns to [out] instead of adding to it. *)
Definition resets_output (c : Command) : bool :=
  String.eqb (Name c) "message" && negb (OUTPUT_COMMENTS cfg).

(** A payload of a machine-command comment: no closing parenthesis
    inside. *)
Fixpoint paren_free (s : string) : bool :=
  match s with
  | EmptyString => true
  | String a s' => negb (Ascii.eqb a ")") && paren_free s'
  end.

(** The comment that announces a tool change, when comments are
    enabled. *)
Definition toolchange_comment : list string :=
  if OUTPUT_COMMENTS cfg then ["(Begin toolchange)" +:+ nl] else [].

(** A command whose one special treatment is its suppression. *)
Definition merely_suppressed (command : string) : bool :=
  str_in command (SUPPRESS_COMMANDS cfg)
  && negb (TRANSLATE_DRILL_CYCLES cfg && is_drill_cycle command)
  && negb ((if Qlt_le_dec 0 (SPINDLE_WAIT cfg) then true else false)
           && is_spindle_start command)
  && negb (is_tool_change command)
  && negb (String.eqb command "message")
  && match mc_run_command command with None => true | Some _ => false end.

(** The three position trackers. *)
Inductive axis := axis_X | axis_Y | axis_Z.

Definition axis_letter (a : axis) : string :=
  match a with axis_X => "X" | axis_Y => "Y" | axis_Z => "Z" end.

Definition current (a : axis) (g : Globals) : Q :=
  match a with
  | axis_X => CURRENT_X g
  | axis_Y => CURRENT_Y g
  | axis_Z => CURRENT_Z g
  end.

(** A command that the tracker of an axis takes no notice of: not a
    motion command, or one without the word of the axis. *)
Definition unseen (a : axis) (c : Command) : Prop :=
  str_in (Name c) (MOTION_COMMANDS cfg) = false
  \/ Parameters c !! axis_letter a = None.





(** The bound on the rounding error of one subtraction of the peck loop
    from a stop between [dz] and [rz]. *)
Definition step_error (rz dz q : Q) : Q :=
  (Py.eps64 * (Qabs rz + Qabs dz + Qabs q) + Py.tiny64)%Q.

(** A step that is not lost in the rounding: it is at least twice the
    error that a subtraction can make. *)
Definition step_felt (rz dz q : Q) : Prop :=
  (2 * step_error rz dz q <= Qabs q)%Q.

(** A step away from the hole (a negative step) that is not lost in the
    rounding at the retract height. *)
Definition step_away (rz q : Q) : Prop :=
  (Py.eps64 * Qabs (rz - q) + Py.tiny64 < - q)%Q.

(** ** Strings and the monad *)

Lemma append_assoc (a b c : string) : (a +:+ b) +:+ c = a +:+ (b +:+ c).
Proof.
  induction a as [|x a IH]; [reflexivity|].
  change (String x ((a +:+ b) +:+ c) = String x (a +:+ (b +:+ c))).
  now f_equal.
Qed.

Lemma append_nil_l (a : string) : "" +:+ a = a.
Proof. reflexivity. Qed.

Lemma append_cons (x : ascii) (a b : string) :
  String x a +:+ b = String x (a +:+ b).
Proof. reflexivity. Qed.

Lemma append_nil_r (a : string) : a +:+ "" = a.
Proof.
  induction a as [|x a IH]; [reflexivity|].
  change (String x (a +:+ "") = String x a).
  now f_equal.
Qed.

Lemma bind_ret_l {A B} (a : A) (k : A -> M B) (g : Globals) :
  bind (ret a) k g = k a g.
Proof. reflexivity. Qed.

Lemma bind_ok {A B} (m : M A) (k : A -> M B) (g g' : Globals) (a : A) :
  m g = Ok a g' -> bind m k g = k a g'.
Proof. intros H. unfold bind. now rewrite H. Qed.

Lemma bind_raise {A B} (m : M A) (k : A -> M B) (g : Globals) (e : exn) :
  m g = Raise e -> bind m k g = Raise e.
Proof. intros H. unfold bind. now rewrite H. Qed.

Lemma bind_raise_inv {A B} (m : M A) (k : A -> M B) (g : Globals) (e : exn) :
  bind m k g = Raise e ->
  m g = Raise e \/ exists a g', m g = Ok a g' /\ k a g' = Raise e.
Proof.
  unfold bind. destruct (m g) as [a g'|e'|]; intros H.
  - right. eauto.
  - left. congruence.
  - discriminate H.
Qed.

Lemma bind_raise_l {A B} (e : exn) (k : A -> M B) (g : Globals) :
  bind (raise e) k g = Raise e.
Proof. reflexivity. Qed.

Lemma bind_raise_inv_ok {A B} (m : M A) (k : A -> M B) (g g' : Globals)
    (b : B) :
  bind m k g = Ok b g' ->
  exists a g1, m g = Ok a g1 /\ k a g1 = Ok b g'.
Proof.
  unfold bind. destruct (m g) as [a g1|e'|]; intros H;
    [eauto | discriminate H ..].
Qed.

Lemma bind_ext {A B} (m : M A) (k1 k2 : A -> M B) (g : Globals) :
  (forall a g', k1 a g' = k2 a g') -> bind m k1 g = bind m k2 g.
Proof. intros H. unfold bind. destruct (m g); [apply H | reflexivity ..]. Qed.

Lemma bind_assoc {A B C} (m : M A) (f : A -> M B) (k : B -> M C) (g : Globals) :
  bind (bind m f) k g = bind m (fun a => bind (f a) k) g.
Proof. unfold bind. destruct (m g); reflexivity. Qed.

Lemma bind_get {B} (k : Globals -> M B) (g : Globals) : bind get k g = k g g.
Proof. reflexivity. Qed.

Lemma bind_modify {B} (f : Globals -> Globals) (k : unit -> M B) (g : Globals) :
  bind (modify f) k g = k tt (f g).
Proof. reflexivity. Qed.

Lemma getitem_some (d : gmap string Q) (k : string) (v : Q) :
  d !! k = Some v -> getitem d k = ret v.
Proof. intros H. unfold getitem. now rewrite H. Qed.

Lemma is_drill_cycle_cases (command : string) :
  str_in command ["G81"; "G82"; "G83"] = true ->
  command = "G81" \/ command = "G82" \/ command = "G83".
Proof.
  unfold str_in, existsb. rewrite !orb_true_iff, !String.eqb_eq.
  intuition discriminate.
Qed.

Lemma out_add_add (out : pyout) (a b : string) :
  out_add (out_add out a) b = out_add out (a +:+ b).
Proof. destruct out; cbn [out_add]; now rewrite append_assoc. Qed.

Lemma linenumber_run (g : Globals) :
  linenumber cfg g = Ok (prefix_at (LINENR g)) (bump g).
Proof.
  unfold linenumber, prefix_at, bump.
  destruct (OUTPUT_LINE_NUMBERS cfg); reflexivity.
Qed.

Lemma bind_linenumber {B} (k : string -> M B) (g : Globals) :
  bind (linenumber cfg) k g = k (prefix_at (LINENR g)) (bump g).
Proof. apply bind_ok, linenumber_run. Qed.

Lemma advance_S (k : nat) (g : Globals) : advance (S k) g = advance k (bump g).
Proof. unfold advance. apply Nat.iter_succ_r. Qed.

Lemma advance_add (a b : nat) (g : Globals) :
  advance (a + b) g = advance b (advance a g).
Proof.
  unfold advance. rewrite Nat.add_comm. apply Nat.iter_add.
Qed.

Lemma render_app (g : Globals) (l1 l2 : list string) :
  render g (l1 ++ l2) = render g l1 +:+ render (advance (length l1) g) l2.
Proof.
  revert g. induction l1 as [|b l1 IH]; intros g; simpl.
  - reflexivity.
  - rewrite IH, !append_assoc. f_equal. f_equal. f_equal.
    now rewrite <- advance_S.
Qed.

(** The block loop [for line in ...: out += linenumber() + line]. *)
Lemma emit_block_run (lines : list string) (out : pyout) (g : Globals) :
  emit_block cfg lines out g
  = Ok (out_add out (render g lines)) (advance (length lines) g).
Proof.
  revert out g. induction lines as [|l lines IH]; intros out g; simpl.
  - unfold ret. destruct out; simpl; now rewrite append_nil_r.
  - rewrite bind_linenumber, IH, <- advance_S. f_equal.
    destruct out; simpl; now rewrite !append_assoc.
Qed.

Lemma bind_emit_block {B} (lines : list string) (out : pyout)
    (k : pyout -> M B) (g : Globals) :
  bind (emit_block cfg lines out) k g
  = k (out_add out (render g lines)) (advance (length lines) g).
Proof. apply bind_ok, emit_block_run. Qed.

(** Symbolic execution of the goal. *)
Ltac step :=
  repeat first
    [ rewrite bind_assoc
    | rewrite bind_linenumber
    | rewrite bind_ret_l
    | rewrite bind_emit_block
    | progress cbv beta zeta
    | progress cbn [fst snd] ].


(** ** The expander: rejected cycles *)

Lemma drill_translate_comment (fuel : nat) (outstring : list string)
    (cmd : string) (params : gmap string Q) (g : Globals)
    (k : string -> M string) :
  (OUTPUT_COMMENTS cfg = true -> outstring <> []) ->
  bind (if OUTPUT_COMMENTS cfg then
          outstring <- comment_original outstring ;;
          n <- linenumber cfg ;;
          ret ("" +:+ n +:+ format_outstring outstring +:+ nl)
        else ret "") k g
  = k (render g (comment_lines outstring))
      (advance (length (comment_lines outstring)) g).
Proof.
  intros Hne. unfold comment_lines.
  destruct (OUTPUT_COMMENTS cfg).
  - destruct outstring as [|w ws]; [now exfalso; apply Hne|].
    unfold comment_original.
    rewrite bind_assoc, bind_ret_l, bind_assoc, bind_linenumber, bind_ret_l.
    cbn [render length advance Nat.iter append].
    now rewrite append_nil_r.
  - now rewrite bind_ret_l.
Qed.

Lemma drill_translate_rejects (fuel : nat) (outstring : list string)
    (cmd : string) (params : gmap string Q) (g : Globals) (x y z r : Q) :
  (OUTPUT_COMMENTS cfg = true -> outstring <> []) ->
  params !! "X" = Some x -> params !! "Y" = Some y ->
  params !! "Z" = Some z -> params !! "R" = Some r ->
  (r < z)%Q ->
  drill_translate py_str cfg fuel outstring cmd params g
  = Ok (render g (comment_lines outstring ++ [diagnostic]))
       (advance (length (comment_lines outstring ++ [diagnostic])) g).
Proof.
  intros Hne HX HY HZ HR Hlt. unfold drill_translate.
  rewrite bind_get.
  rewrite (drill_translate_comment fuel outstring cmd params g _ Hne).
  rewrite (getitem_some _ _ _ HX), bind_ret_l.
  rewrite (getitem_some _ _ _ HY), bind_ret_l.
  rewrite (getitem_some _ _ _ HZ), bind_ret_l.
  rewrite (getitem_some _ _ _ HR), bind_ret_l.
  destruct (Qlt_le_dec r z) as [_|Hle]; [|exfalso; now apply (Qlt_not_le r z)].
  rewrite bind_linenumber. unfold ret.
  rewrite render_app, length_app. cbn [render length].
  rewrite advance_add. cbn [advance Nat.iter].
  unfold diagnostic. now rewrite append_nil_r.
Qed.

Lemma fold_outstring_acc (l : list string) (acc : string) :
  fold_left (fun s w => s +:+ w +:+ COMMAND_SPACE) l acc
  = acc +:+ fold_left (fun s w => s +:+ w +:+ COMMAND_SPACE) l "".
Proof.
  revert acc. induction l as [|w l IH]; intros acc; cbn [fold_left].
  - now rewrite append_nil_r.
  - rewrite IH. rewrite (IH ("" +:+ w +:+ COMMAND_SPACE)).
    cbn [append]. now rewrite !append_assoc.
Qed.

Lemma strip_paren (s : string) :
  exists s', Py.strip (String "(" s) = String "(" s'.
Proof.
  unfold Py.strip. cbn [Py.lstrip].
  change (Py.is_space "(") with false. cbv iota. cbn [Py.rstrip].
  destruct (Py.rstrip s); eauto.
Qed.

Lemma format_outstring_paren (w : string) (ws : list string) :
  comment_shaped (format_outstring (String "(" w :: ws) +:+ nl).
Proof.
  unfold format_outstring. cbn [fold_left]. rewrite fold_outstring_acc.
  rewrite append_nil_l, !append_cons.
  match goal with |- context [Py.strip (String "(" ?t)] =>
    destruct (strip_paren t) as [s' ->] end.
  eexists. apply append_cons.
Qed.

Lemma comment_lines_shaped (outstring : list string) :
  Forall comment_shaped (comment_lines outstring).
Proof.
  unfold comment_lines. destruct (OUTPUT_COMMENTS cfg); [|constructor].
  destruct outstring as [|w ws]; constructor; [|constructor].
  destruct ws as [|w' ws]; cbn [close_last append];
    apply format_outstring_paren.
Qed.

Lemma build_outstring_nonempty (g : Globals) (lastcommand : option string)
    (c : Command) (x : Q) :
  Parameters c !! "X" = Some x -> build_outstring py_str cfg g lastcommand c <> [].
Proof.
  intros HX. unfold build_outstring, param_tokens, params.
  cbn [flat_map]. unfold param_token at 1. rewrite HX.
  change (String.eqb "X" "F") with false.
  change (str_in "X" ["T"; "H"; "S"]) with false.
  change (str_in "X" ["D"; "P"; "L"]) with false.
  change (str_in "X" ["A"; "B"; "C"]) with false.
  cbv iota. intros Habs. apply app_eq_nil in Habs as [_ Habs].
  discriminate Habs.
Qed.

(** C1 (drill-cycle rejection): a drilling cycle (G81, G82 or G83, with
    its X, Y, Z and R words) whose retract height R is below the hole
    bottom Z is rejected by the expander.  The command contributes
    exactly these lines: the original command as a comment when comments
    are enabled, the diagnostic comment, and the empty comment of a
    suppressed mnemonic when the cycle is in the suppression list; each of
    them is a comment, none a motion.  No exception is raised, and the
    command loop goes on with the remaining commands, from globals that
    only the trackers and the line counter have touched. *)
Theorem rejected_drill_cycle (fuel : nat) (lastcommand : option string)
    (c : Command) (cs : list Command) (out : pyout) (g : Globals)
    (x y z r : Q) :
  TRANSLATE_DRILL_CYCLES cfg = true ->
  is_drill_cycle (Name c) = true ->
  Parameters c !! "X" = Some x -> Parameters c !! "Y" = Some y ->
  Parameters c !! "Z" = Some z -> Parameters c !! "R" = Some r ->
  (r < z)%Q ->
  let bodies :=
    comment_lines (build_outstring py_str cfg g lastcommand c)
      ++ [diagnostic] ++ suppressed_lines (Name c) in
  Forall comment_shaped bodies
  /\ parse_commands py_str cfg fuel (c :: cs) lastcommand out g
     = parse_commands py_str cfg fuel cs (Some (Name c))
         (out_add out (render (track cfg c g) bodies))
         (advance (length bodies) (track cfg c g)).
Proof.
  intros HT Hd HX HY HZ HR Hlt bodies. split.
  - subst bodies. apply Forall_app. split; [apply comment_lines_shaped|].
    constructor; [eexists; reflexivity|].
    unfold suppressed_lines.
    destruct (str_in _ _); constructor; [|constructor].
    eexists. reflexivity.
  - assert (Hsp : is_spindle_start (Name c) = false
                  /\ is_tool_change (Name c) = false
                  /\ String.eqb (Name c) "message" = false
                  /\ mc_run_command (Name c) = None).
    { destruct (is_drill_cycle_cases _ Hd) as [E|[E|E]]; rewrite E;
        repeat split; reflexivity. }
    destruct Hsp as (Hsp & Htc & Hmsg & Hmc).
    cbn [parse_commands]. unfold parse_command.
    rewrite bind_assoc, bind_get, bind_assoc, bind_modify, bind_assoc.
    rewrite HT, Hd. cbn [andb]. rewrite bind_assoc.
    erewrite bind_ok;
      [|apply (drill_translate_rejects fuel _ (Name c) (Parameters c)
                 (track cfg c g) x y z r); try assumption;
        intros _; now apply (build_outstring_nonempty g lastcommand c x)].
    rewrite bind_ret_l. cbn [fst snd].
    rewrite Hsp, andb_false_r, bind_assoc, bind_ret_l. cbn [fst snd].
    rewrite Htc, bind_assoc, bind_ret_l. cbn [fst snd].
    rewrite Hmsg, bind_assoc, bind_ret_l. cbn [fst snd].
    rewrite Hmc. subst bodies. unfold suppressed_lines.
    set (cl := comment_lines (build_outstring py_str cfg g lastcommand c)).
    destruct (str_in (Name c) (SUPPRESS_COMMANDS cfg)).
    + cbn [app]. rewrite bind_assoc, bind_assoc, bind_linenumber.
      rewrite !bind_ret_l.
      replace (cl ++ [diagnostic; format_outstring ["("; ")"] +:+ nl])
        with ((cl ++ [diagnostic]) ++ [format_outstring ["("; ")"] +:+ nl])
        by now rewrite <- app_assoc.
      rewrite out_add_add.
      rewrite (render_app _ (cl ++ [diagnostic]) [_]).
      rewrite (length_app (cl ++ [diagnostic])), advance_add.
      cbn [render length advance Nat.iter]. now rewrite append_nil_r.
    + cbn [app]. rewrite bind_assoc, !bind_ret_l. reflexivity.
Qed.

(** ** Binary64 rounding *)

Lemma round_half_even_error (y : Q) :
  (y - (1 # 2) <= inject_Z (Py.round_half_even y) <= y + (1 # 2))%Q.
Proof.
  unfold Py.round_half_even.
  pose proof (Qfloor_le y) as Hlo. pose proof (Qlt_floor y) as Hhi.
  rewrite inject_Z_plus in Hhi. change (inject_Z 1) with 1%Q in Hhi.
  destruct (Qcompare (y - inject_Z (Qfloor y)) (1 # 2)) eqn:E.
  - apply Qeq_alt in E.
    destruct (Z.even (Qfloor y)); rewrite ?inject_Z_plus;
      change (inject_Z 1) with 1%Q; split; lra.
  - apply Qlt_alt in E. split; lra.
  - apply Qgt_alt in E. rewrite inject_Z_plus.
    change (inject_Z 1) with 1%Q. split; lra.
Qed.

Lemma pow2_pos (e : Z) : (0 < 2 ^ e)%Q.
Proof. apply Qpower_0_lt. reflexivity. Qed.

Lemma pow2_nonneg_Z (k : Z) : (0 <= k)%Z -> (2 ^ k == inject_Z (2 ^ k))%Q.
Proof. intros H. now rewrite Zpower_Qpower. Qed.

Lemma ilog2_le (a : Q) : (0 < a)%Q -> (2 ^ Py.ilog2 a <= a)%Q.
Proof.
  intros Ha. unfold Py.ilog2.
  set (n := Qnum a). set (d := Zpos (Qden a)).
  destruct (Qle_bool (2 ^ (Z.log2 n - Z.log2 d)) a) eqn:E;
    [now apply Qle_bool_iff in E|]. clear E.
  assert (Hn : (0 < n)%Z).
  { destruct a as [an ad]. unfold Qlt in Ha. cbn in *. subst n. lia. }
  assert (Hd : (0 < d)%Z) by (subst d; lia).
  destruct (Z.log2_spec n Hn) as [Hn1 _].
  destruct (Z.log2_spec d Hd) as [_ Hd2].
  pose proof (Z.log2_nonneg n) as Hln. pose proof (Z.log2_nonneg d) as Hld.
  replace (Z.log2 n - Z.log2 d - 1)%Z with (Z.log2 n - Z.succ (Z.log2 d))%Z
    by lia.
  rewrite Qpower_minus by discriminate.
  rewrite (pow2_nonneg_Z (Z.log2 n)) by lia.
  rewrite (pow2_nonneg_Z (Z.succ (Z.log2 d))) by lia.
  assert (Ea : (a == inject_Z n / inject_Z d)%Q).
  { destruct a as [an ad]. subst n d. cbn [Qnum Qden]. apply Qmake_Qdiv. }
  rewrite Ea.
  assert (HY : (0 < inject_Z (2 ^ Z.succ (Z.log2 d)))%Q).
  { rewrite <- (pow2_nonneg_Z (Z.succ (Z.log2 d))) by lia. apply pow2_pos. }
  assert (HD : (0 < inject_Z d)%Q)
    by (change 0%Q with (inject_Z 0); now rewrite <- Zlt_Qlt).
  apply Qle_shift_div_r; [exact HY|].
  unfold Qdiv.
  rewrite <- Qmult_assoc, (Qmult_comm (/ inject_Z d)), Qmult_assoc.
  apply Qle_shift_div_l; [exact HD|].
  rewrite <- !inject_Z_mult, <- Zle_Qle. nia.
Qed.

(** The error of the rounding. *)
Lemma round64_error (q : Q) :
  (q - (Py.eps64 * Qabs q + Py.tiny64) <= Py.round64 q)%Q
  /\ (Py.round64 q <= q + (Py.eps64 * Qabs q + Py.tiny64))%Q.
Proof.
  assert (Heps : (0 < Py.eps64)%Q) by apply pow2_pos.
  assert (Htiny : (0 < Py.tiny64)%Q) by apply pow2_pos.
  pose proof (Qabs_nonneg q) as Habs.
  assert (Hb : (0 <= Py.eps64 * Qabs q)%Q)
    by (apply Qmult_le_0_compat; lra).
  unfold Py.round64. destruct (Qeq_bool q 0) eqn:E0.
  - apply Qeq_bool_iff in E0. set (b := (Py.eps64 * Qabs q)%Q) in *.
    split; lra.
  - assert (Hq0 : ~ (q == 0)%Q).
    { intros H. apply Qeq_bool_iff in H. congruence. }
    assert (Ha : (0 < Qabs q)%Q).
    { destruct (Qlt_le_dec 0 (Qabs q)) as [H|H]; [exact H|].
      exfalso. apply Hq0.
      destruct (Qabs_Qle_condition q 0) as [Hc _].
      destruct Hc as [H1 H2]; lra. }
    set (a := Qabs q) in *.
    set (e := Z.max (Py.ilog2 a - 52) (-1074)).
    set (u := (2 ^ e)%Q).
    assert (Hu : (0 < u)%Q) by apply pow2_pos.
    destruct (round_half_even_error (a / u)) as [Hm1 Hm2].
    set (m := inject_Z (Py.round_half_even (a / u))) in *.
    assert (Hau : (a / u * u == a)%Q) by (field; lra).
    set (t := (a / u)%Q) in *.
    assert (Hr1 : (a - u * (1 # 2) <= m * u)%Q).
    { apply (Qmult_le_compat_r _ _ u) in Hm1; [|lra]. lra. }
    assert (Hr2 : (m * u <= a + u * (1 # 2))%Q).
    { apply (Qmult_le_compat_r _ _ u) in Hm2; [|lra]. lra. }
    assert (Hub : (u * (1 # 2) <= Py.eps64 * a + Py.tiny64)%Q).
    { assert (H1 : (2 ^ (Py.ilog2 a - 52) * (1 # 2) <= Py.eps64 * a)%Q).
      { replace (Py.ilog2 a - 52)%Z with (Py.ilog2 a + (-52))%Z by lia.
        rewrite Qpower_plus by discriminate.
        pose proof (ilog2_le a Ha) as Hl.
        assert (E : (2 ^ (-52) * (1 # 2) == Py.eps64)%Q) by reflexivity.
        pose proof (pow2_pos (Py.ilog2 a)) as Hp.
        rewrite <- E.
        assert (Hc : (0 < 2 ^ (-52) * (1 # 2))%Q) by reflexivity.
        nra. }
      assert (H2 : (2 ^ (-1074) * (1 # 2) <= Py.tiny64)%Q)
        by (apply Qle_refl).
      pose proof (pow2_pos (Py.ilog2 a - 52)) as Hp1.
      pose proof (pow2_pos (-1074)) as Hp2.
      subst u e.
      destruct (Z.max_spec (Py.ilog2 a - 52) (-1074)) as [[_ ->]|[_ ->]];
        lra. }
    rewrite Qred_correct.
    destruct (Qlt_le_dec q 0) as [Hneg|Hpos].
    + assert (Eq : (a == - q)%Q) by (subst a; apply Qabs_neg; lra).
      split; lra.
    + assert (Eq : (a == q)%Q) by (subst a; apply Qabs_pos; lra).
      split; lra.
Qed.

Lemma step_error_pos (rz dz q : Q) : (0 < step_error rz dz q)%Q.
Proof.
  unfold step_error.
  pose proof (pow2_pos (-53)) as Heps. pose proof (pow2_pos (-1075)) as Ht.
  fold Py.eps64 in Heps. fold Py.tiny64 in Ht.
  pose proof (Qabs_nonneg rz). pose proof (Qabs_nonneg dz).
  pose proof (Qabs_nonneg q).
  assert (0 <= Py.eps64 * (Qabs rz + Qabs dz + Qabs q))%Q
    by (apply Qmult_le_0_compat; lra).
  lra.
Qed.

(** One subtraction of the loop from a stop between the hole bottom and
    the retract height: the exact difference, up to the error bound. *)
Lemma fsub_bounds (rz dz q s : Q) :
  (dz <= s)%Q -> (s <= rz)%Q ->
  (s - q - step_error rz dz q <= Py.fsub s q)%Q
  /\ (Py.fsub s q <= s - q + step_error rz dz q)%Q.
Proof.
  intros Hlo Hhi. unfold Py.fsub, step_error.
  destruct (round64_error (s - q)) as [H1 H2].
  assert (Heps : (0 < Py.eps64)%Q) by apply pow2_pos.
  assert (Habs : (Qabs (s - q) <= Qabs rz + Qabs dz + Qabs q)%Q).
  { pose proof (Qle_Qabs rz) as A1. pose proof (Qle_Qabs (- dz)) as A2.
    rewrite Qabs_opp in A2.
    pose proof (Qle_Qabs q) as A3. pose proof (Qle_Qabs (- q)) as A4.
    rewrite Qabs_opp in A4.
    pose proof (Qabs_nonneg rz). pose proof (Qabs_nonneg dz).
    apply Qabs_Qle_condition. split; lra. }
  assert (Hm : (Py.eps64 * Qabs (s - q)
                <= Py.eps64 * (Qabs rz + Qabs dz + Qabs q))%Q)
    by (apply Qmult_le_l; assumption).
  split; lra.
Qed.

(** A positive step that is not lost in the rounding takes the next
    stop down by at least half of itself. *)
Lemma fsub_below (rz dz q s : Q) :
  (0 < q)%Q -> step_felt rz dz q -> (dz <= s)%Q -> (s <= rz)%Q ->
  (s - q - step_error rz dz q <= Py.fsub s q)%Q
  /\ (Py.fsub s q <= s - q * (1 # 2))%Q.
Proof.
  intros Hq Hfelt Hlo Hhi. unfold step_felt in Hfelt.
  rewrite (Qabs_pos q) in Hfelt by lra.
  destruct (fsub_bounds rz dz q s Hlo Hhi) as [H1 H2]. split; lra.
Qed.

(** ** The expander: accepted cycles *)

Lemma preliminary_moves_run (g : Globals) (fmt : Q -> string)
    (x y rz : Q) (strG0 strF : string) (trBuff : string) (g' : Globals) :
  preliminary_moves cfg g fmt x y rz strG0 strF trBuff g'
  = Ok (trBuff +:+ render g' (approach_lines g fmt x y rz strG0 strF))
       (advance (length (approach_lines g fmt x y rz strG0 strF)) g').
Proof.
  unfold preliminary_moves, approach_lines.
  destruct (Qlt_le_dec (CURRENT_Z g) rz), (Qlt_le_dec rz (CURRENT_Z g));
    repeat first [rewrite bind_assoc | rewrite bind_linenumber
                 | rewrite bind_ret_l];
    unfold ret; cbn [app render length advance Nat.iter];
    rewrite ?append_assoc, ?append_nil_r; reflexivity.
Qed.

Lemma peck_loop_run (fmt : Q -> string) (rz dz step a_bit : Q)
    (strG0 strF : string) (n : nat) :
  forall (fuel : nat) (last : Q) (trBuff : string) (g' : Globals),
    stops_valid dz step last n -> (n < fuel)%nat ->
    peck_loop cfg fuel fmt rz dz step a_bit strG0 strF last trBuff g'
    = Ok (trBuff +:+ render g'
            (peck_lines fmt rz dz a_bit strG0 strF last
               (stops_from step last n)))
         (advance
            (length (peck_lines fmt rz dz a_bit strG0 strF last
                       (stops_from step last n))) g').
Proof.
  induction n as [|n IH]; intros fuel last trBuff g' Hv Hfuel;
    (destruct fuel as [|fuel]; [lia|]);
    cbn [peck_loop stops_from peck_lines stops_valid] in *;
    unfold clearance_lines.
  - destruct (Qlt_le_dec dz (Py.fsub last step)) as [Hlt|_];
      [exfalso; now apply (Qlt_not_le _ _ Hlt)|].
    destruct (Qeq_bool last rz); cbn [negb];
      repeat first [rewrite bind_assoc | rewrite bind_linenumber
                   | rewrite bind_ret_l];
      unfold ret; cbn [app render length advance Nat.iter];
      rewrite ?append_assoc, ?append_nil_r; reflexivity.
  - destruct Hv as [Hlt Hv].
    destruct (Qlt_le_dec dz (Py.fsub last step)) as [_|Hle];
      [|exfalso; now apply (Qlt_not_le _ _ Hlt)].
    destruct (Qeq_bool last rz); cbn [negb];
      repeat first [rewrite bind_assoc | rewrite bind_linenumber
                   | rewrite bind_ret_l];
      (rewrite IH; [|assumption|lia]);
      cbn [app render length advance Nat.iter];
      rewrite <- ?advance_S; cbn [advance Nat.iter];
      rewrite ?append_assoc, ?append_nil_r; reflexivity.
Qed.





(** An accepted cycle, whatever its descent. *)
Lemma drill_translate_accepted (fuel : nat) (outstring : list string)
    (cmd : string) (params : gmap string Q) (g : Globals)
    (x y z r f : Q) (stepv dwellv : option Q)
    (descent : list string) (e : option exn) :
  (OUTPUT_COMMENTS cfg = true -> outstring <> []) ->
  params !! "X" = Some x -> params !! "Y" = Some y ->
  params !! "Z" = Some z -> params !! "R" = Some r ->
  params !! "F" = Some f ->
  (z <= r)%Q ->
  (if String.eqb cmd "G83" then v <- getitem params "Q" ;; ret (Some v)
   else ret None) = ret stepv ->
  (if negb (String.eqb cmd "G83") && String.eqb cmd "G82"
   then v <- getitem params "P" ;; ret (Some v)
   else ret None) = ret dwellv ->
  (forall (trBuff : string) (g' : Globals),
     drill_moves py_str cfg fuel (fmt_len g) cmd params
       (absolute g (CURRENT_Z g) z) (retract_height g r)
       stepv (option_map (fun s => Py.fmul s (Py.round64 (5 # 100))) stepv) dwellv
       (rapid_Z g (retract_height g r)) (feed_word g f)
       (retract_height g r) trBuff g'
     = Ok (trBuff +:+ render g' descent, e) (advance (length descent) g')) ->
  drill_translate py_str cfg fuel outstring cmd params g
  = Ok (render g (cycle_lines g outstring x y r f descent))
       (advance (length (cycle_lines g outstring x y r f descent)) g).
Proof.
  intros Hne HX HY HZ HR HF Hzr Hstep Hdwell Hmoves.
  unfold drill_translate. rewrite bind_get.
  rewrite (drill_translate_comment fuel outstring cmd params g _ Hne).
  rewrite (getitem_some _ _ _ HX), bind_ret_l.
  rewrite (getitem_some _ _ _ HY), bind_ret_l.
  rewrite (getitem_some _ _ _ HZ), bind_ret_l.
  rewrite (getitem_some _ _ _ HR), bind_ret_l.
  destruct (Qlt_le_dec r z) as [Hlt|_];
    [exfalso; now apply (Qlt_not_le _ _ Hlt)|].
  rewrite (getitem_some _ _ _ HF), bind_ret_l.
  rewrite Hstep, bind_ret_l, Hdwell, bind_ret_l.
  unfold drill_block. rewrite !bind_assoc.
  fold (relative g). fold (absolute g (CURRENT_X g) x).
  fold (absolute g (CURRENT_Y g) y). fold (absolute g (CURRENT_Z g) z).
  fold (absolute g (CURRENT_Z g) r). fold (retract_height g r).
  fold (fmt_len g). fold (rapid_Z g (retract_height g r)).
  fold (feed_word g f).
  set (cl := comment_lines outstring).
  assert (Hforce : forall (B : Type) (k : string -> M B) (t : string)
                     (g' : Globals),
             bind (if relative g
                   then n <- linenumber cfg ;; ret (t +:+ n +:+ "G90" +:+ nl)
                   else ret t) k g'
             = k (t +:+ render g' (force_lines g))
                 (advance (length (force_lines g)) g')).
  { intros B k t g'. unfold force_lines. destruct (relative g).
    - rewrite bind_assoc, bind_linenumber, bind_ret_l.
      cbn [render length advance Nat.iter].
      now rewrite append_nil_r.
    - rewrite bind_ret_l. cbn [render length advance Nat.iter].
      now rewrite append_nil_r. }
  rewrite Hforce, ?bind_assoc.
  erewrite bind_ok; [|apply preliminary_moves_run].
  erewrite bind_ok; [|apply Hmoves].
  cbn [fst]. unfold cycle_lines. fold cl.
  change ("G0 Z" +:+ Py.format_f (PRECISION cfg)
            (length_as (UNIT_FORMAT g) (retract_height g r)) +:+ nl)
    with (rapid_Z g (retract_height g r)).
  set (ap := approach_lines _ _ _ _ _ _ _).
  set (fl := force_lines g).
  clearbody cl ap fl.
  unfold restore_lines; destruct (relative g);
    [rewrite bind_linenumber|]; unfold ret;
    rewrite !render_app, !length_app, !advance_add;
    cbn [render length advance Nat.iter];
    rewrite ?append_assoc, ?append_nil_r; reflexivity.
Qed.

Lemma drill_moves_plain (fuel : nat) (fmt : Q -> string)
    (params : gmap string Q) (dz rz : Q) (stepv abit dwellv : option Q)
    (strG0 strF : string) (last : Q) (trBuff : string) (g' : Globals) :
  drill_moves py_str cfg fuel fmt "G81" params dz rz stepv abit dwellv
    strG0 strF last trBuff g'
  = Ok (trBuff +:+ render g' ["G1 Z" +:+ fmt dz +:+ strF; strG0], None)
       (advance 2 g').
Proof.
  unfold drill_moves.
  change (str_in "G81" ["G81"; "G82"]) with true.
  change (String.eqb "G81" "G82") with false. cbv iota.
  rewrite bind_linenumber, bind_ret_l, bind_linenumber. unfold ret.
  cbn [render advance Nat.iter].
  now rewrite ?append_assoc, ?append_nil_r.
Qed.

Lemma drill_moves_peck_zero (fuel : nat) (fmt : Q -> string)
    (params : gmap string Q) (dz rz q : Q) (stepv abit dwellv : option Q)
    (strG0 strF : string) (last : Q) (trBuff : string) (g' : Globals) :
  params !! "Q" = Some q -> (q == 0)%Q ->
  drill_moves py_str cfg fuel fmt "G83" params dz rz stepv abit dwellv
    strG0 strF last trBuff g'
  = Ok (trBuff +:+ render g' [], None) (advance 0 g').
Proof.
  intros HQ Hq0. unfold drill_moves.
  change (str_in "G83" ["G81"; "G82"]) with false. cbv iota.
  rewrite HQ. apply Qeq_bool_iff in Hq0. rewrite Hq0.
  cbn [negb render advance Nat.iter]. unfold ret.
  now rewrite append_nil_r.
Qed.


Lemma retract_height_ge (g : Globals) (r : Q) :
  (absolute g (CURRENT_Z g) r <= retract_height g r)%Q.
Proof.
  unfold retract_height.
  destruct (String.eqb (DRILL_RETRACT_MODE g) "G98"); cbn [andb];
    [|apply Qle_refl].
  destruct (Qlt_le_dec (CURRENT_Z g) (absolute g (CURRENT_Z g) r));
    [apply Qle_refl | assumption].
Qed.

Lemma absolute_le (g : Globals) (cur z r : Q) :
  (z <= r)%Q -> (absolute g cur z <= absolute g cur r)%Q.
Proof. intros H. unfold absolute. destruct (relative g); lra. Qed.


(** C3, as the code has it: a peck cycle G83 whose step Q is zero (and
    which the expander accepts) emits the approach only, the commented
    original and the mode lines around it as for any cycle: no plunge
    and no retract follow, for any amount of fuel. *)
Theorem peck_zero_step (fuel : nat) (outstring : list string)
    (params : gmap string Q) (g : Globals) (x y z r f q : Q) :
  (OUTPUT_COMMENTS cfg = true -> outstring <> []) ->
  params !! "X" = Some x -> params !! "Y" = Some y ->
  params !! "Z" = Some z -> params !! "R" = Some r ->
  params !! "F" = Some f -> params !! "Q" = Some q ->
  (z <= r)%Q -> (q == 0)%Q ->
  drill_translate py_str cfg fuel outstring "G83" params g
  = Ok (render g (cycle_lines g outstring x y r f []))
       (advance (length (cycle_lines g outstring x y r f [])) g).
Proof.
  intros Hne HX HY HZ HR HF HQ Hzr Hq.
  apply (drill_translate_accepted fuel outstring "G83" params g
           x y z r f (Some q) None [] None); try assumption.
  - change (String.eqb "G83" "G83") with true. cbv iota.
    now rewrite (getitem_some _ _ _ HQ).
  - reflexivity.
  - intros trBuff g'.
    now apply (drill_moves_peck_zero fuel (fmt_len g) params _ _ q).
Qed.

(** A plain cycle G81 that the expander accepts: the approach, the plunge
    to the hole bottom, the rapid to the retract height. *)
Lemma plain_cycle_expansion (fuel : nat) (outstring : list string)
    (params : gmap string Q) (g : Globals) (x y z r f : Q) :
  (OUTPUT_COMMENTS cfg = true -> outstring <> []) ->
  params !! "X" = Some x -> params !! "Y" = Some y ->
  params !! "Z" = Some z -> params !! "R" = Some r ->
  params !! "F" = Some f ->
  (z <= r)%Q ->
  let descent :=
    [feed_Z g (absolute g (CURRENT_Z g) z) f;
     rapid_Z g (retract_height g r)] in
  drill_translate py_str cfg fuel outstring "G81" params g
  = Ok (render g (cycle_lines g outstring x y r f descent))
       (advance (length (cycle_lines g outstring x y r f descent)) g).
Proof.
  intros Hne HX HY HZ HR HF Hzr descent.
  apply (drill_translate_accepted fuel outstring "G81" params g
           x y z r f None None descent None); try assumption;
    try reflexivity.
  intros trBuff g'. apply drill_moves_plain.
Qed.

(** C5, as the code has it: the plain cycle G81 with Z = -10 and R = 5
    from the current height 20, in absolute mode and without comments.
    No preliminary rapid retract is emitted.  In G98 mode the retract
    height is raised to the current height and three lines come out: the
    rapid to X/Y, the plunge to Z = -10 at the given feed, the rapid
    retract to Z = 20.  Otherwise (G99) four lines come out: the rapid to
    X/Y, a feed move down to the retract height Z = 5, the plunge to
    Z = -10 at the given feed, the rapid retract to Z = 5. *)
Theorem plain_drill_example (fuel : nat) (outstring : list string)
    (params : gmap string Q) (g : Globals) (x y f : Q) :
  OUTPUT_COMMENTS cfg = false ->
  params !! "X" = Some x -> params !! "Y" = Some y ->
  params !! "Z" = Some (-10 # 1)%Q -> params !! "R" = Some (5 # 1)%Q ->
  params !! "F" = Some f ->
  CURRENT_Z g = (20 # 1)%Q -> MOTION_MODE g = "G90" ->
  let lines :=
    if String.eqb (DRILL_RETRACT_MODE g) "G98" then
      [rapid_XY g x y; feed_Z g (-10 # 1) f; rapid_Z g (20 # 1)]
    else
      [rapid_XY g x y; feed_Z g (5 # 1) f; feed_Z g (-10 # 1) f;
       rapid_Z g (5 # 1)] in
  drill_translate py_str cfg fuel outstring "G81" params g
  = Ok (render g lines) (advance (length lines) g).
Proof.
  intros Hc HX HY HZ HR HF Hcur Hmode lines.
  rewrite (plain_cycle_expansion fuel outstring params g x y
             (-10 # 1) (5 # 1) f); try assumption;
    [|intros Habs; rewrite Hc in Habs; discriminate Habs
     |discriminate].
  assert (Hl : cycle_lines g outstring x y (5 # 1) f
                 [feed_Z g (absolute g (CURRENT_Z g) (-10 # 1)) f;
                  rapid_Z g (retract_height g (5 # 1))] = lines).
  { subst lines.
    unfold cycle_lines, comment_lines, force_lines, restore_lines,
      approach_lines, retract_height, absolute, relative.
    rewrite Hc, Hmode, Hcur.
    change (String.eqb "G90" "G91") with false. cbv iota.
    destruct (String.eqb (DRILL_RETRACT_MODE g) "G98");
      cbn [andb]; reflexivity. }
  now rewrite Hl.
Qed.

(** ** The command loop: ordinary commands *)

Lemma out_add_nil (out : pyout) : out_add out "" = out.
Proof. destruct out; cbn [out_add]; now rewrite append_nil_r. Qed.

Lemma parse_command_ordinary (fuel : nat) (lastcommand : option string)
    (c : Command) (out : pyout) (g : Globals) :
  ordinary (Name c) = true ->
  let line := emitted_line (build_outstring py_str cfg g lastcommand c) in
  parse_command py_str cfg fuel lastcommand c out g
  = Ok (out_add out (render (track cfg c g) line))
       (advance (length line) (track cfg c g)).
Proof.
  intros Hord line. unfold ordinary in Hord.
  repeat (apply andb_prop in Hord as [Hord ?]).
  repeat match goal with
         | H : negb _ = true |- _ => apply negb_true_iff in H
         end.
  unfold parse_command.
  rewrite bind_get, bind_modify.
  match goal with H : _ && is_drill_cycle _ = false |- _ => rewrite H end.
  rewrite bind_ret_l. cbn [fst snd].
  match goal with H : _ && is_spindle_start _ = false |- _ => rewrite H end.
  rewrite bind_ret_l. cbn [fst snd].
  match goal with H : is_tool_change _ = false |- _ => rewrite H end.
  rewrite bind_ret_l. cbn [fst snd].
  match goal with H : String.eqb _ "message" = false |- _ => rewrite H end.
  rewrite bind_ret_l. cbn [fst snd].
  match goal with H : str_in _ (SUPPRESS_COMMANDS cfg) = false |- _ =>
    rewrite H end.
  destruct (mc_run_command (Name c)); [discriminate|].
  subst line. unfold emitted_line.
  destruct (build_outstring py_str cfg g lastcommand c) as [|w ws].
  - rewrite bind_ret_l. unfold ret. cbn [render length advance Nat.iter].
    now rewrite out_add_nil.
  - cbv iota. rewrite bind_assoc, bind_linenumber, !bind_ret_l. unfold ret.
    cbn [render length advance Nat.iter]. now rewrite append_nil_r.
Qed.

(** C6, as the code has it: of two consecutive commands of a path with
    the same mnemonic, whatever their parameters, the tokens of the
    second are its parameter tokens alone when MODAL is enabled, and its
    mnemonic followed by its parameter tokens when MODAL is disabled;
    nothing of the first command but its mnemonic enters the comparison.
    When the second command is an ordinary one (not a translated drill
    cycle, a spindle start with a wait, a tool change, a message, a
    suppressed command or a machine-command comment, which rewrite or
    replace the tokens afterwards), its line is exactly the line of
    these tokens. *)
Theorem modal_suppression (fuel : nat) (lastcommand : option string)
    (c1 c2 : Command) (cs : list Command) (out : pyout) (g : Globals) :
  Name c1 = Name c2 ->
  (forall g1 : Globals,
     build_outstring py_str cfg g1 (last_command lastcommand [c1]) c2
     = (if MODAL cfg then [] else [Name c2])
       ++ param_tokens py_str cfg g1 (Name c2) (Parameters c2))
  /\ (ordinary (Name c2) = true ->
      parse_commands py_str cfg fuel (c1 :: c2 :: cs) lastcommand out g
      = bind (parse_command py_str cfg fuel lastcommand c1 out)
          (fun out1 g1 =>
             let tokens :=
               (if MODAL cfg then [] else [Name c2])
               ++ param_tokens py_str cfg g1 (Name c2) (Parameters c2) in
             let line := emitted_line tokens in
             parse_commands py_str cfg fuel cs (Some (Name c2))
               (out_add out1 (render (track cfg c2 g1) line))
               (advance (length line) (track cfg c2 g1))) g).
Proof.
  intros Hname.
  assert (Htok : forall g1 : Globals,
            build_outstring py_str cfg g1 (Some (Name c1)) c2
            = (if MODAL cfg then [] else [Name c2])
              ++ param_tokens py_str cfg g1 (Name c2) (Parameters c2)).
  { intros g1. unfold build_outstring. rewrite Hname.
    rewrite bool_decide_eq_true_2 by reflexivity.
    destruct (MODAL cfg); reflexivity. }
  split; [exact Htok|].
  intros Hord. cbn [parse_commands].
  apply bind_ext. intros out1 g1.
  rewrite (bind_ok _ _ _ _ _
             (parse_command_ordinary fuel (Some (Name c1)) c2 out1 g1 Hord)).
  now rewrite Htok.
Qed.

(** C10, as the code has it: [parse] starts every path object without a
    last command.  Whatever the globals left by what was emitted before,
    and whether MODAL is enabled or not, the tokens of the first command
    of a path are its mnemonic followed by its parameter tokens; when the
    command is an ordinary one (not a translated drill cycle, a spindle
    start with a wait, a tool change, a message, a suppressed command or
    a machine-command comment, which rewrite or replace the tokens
    afterwards) it is emitted, after the path comment if comments are
    enabled, as the line of these tokens, and the loop goes on with the
    remaining commands. *)
Theorem first_command_keeps_mnemonic (fuel : nat) (Label : string)
    (c : Command) (cs : list Command) (g : Globals) :
  (forall g1 : Globals,
     build_outstring py_str cfg g1 None c
     = Name c :: param_tokens py_str cfg g1 (Name c) (Parameters c))
  /\ (ordinary (Name c) = true ->
      let header :=
        if OUTPUT_COMMENTS cfg
        then ["(Path: " +:+ Label +:+ ")" +:+ nl] else [] in
      let g1 := advance (length header) g in
      let tokens :=
        Name c :: param_tokens py_str cfg g1 (Name c) (Parameters c) in
      parse py_str cfg fuel (SimplePath Label (c :: cs)) g
      = parse_commands py_str cfg fuel cs (Some (Name c))
          (OutStr (render g (header ++ [format_outstring tokens +:+ nl])))
          (advance 1 (track cfg c g1))).
Proof.
  assert (Htok : forall g1 : Globals,
            build_outstring py_str cfg g1 None c
            = Name c :: param_tokens py_str cfg g1 (Name c) (Parameters c)).
  { intros g1. unfold build_outstring.
    case_bool_decide; [discriminate|].
    destruct (MODAL cfg); reflexivity. }
  split; [exact Htok|].
  intros Hord header g1 tokens. cbn [parse parse_commands].
  assert (Hhead :
    forall k : pyout -> M pyout,
      bind (if OUTPUT_COMMENTS cfg
            then n <- linenumber cfg ;;
                 ret (out_add (OutStr "")
                        (n +:+ "(Path: " +:+ Label +:+ ")" +:+ nl))
            else ret (OutStr "")) k g
      = k (OutStr (render g header)) g1).
  { intros k. subst g1 header. destruct (OUTPUT_COMMENTS cfg).
    - rewrite bind_assoc, bind_linenumber, bind_ret_l.
      cbn [render length advance Nat.iter out_add].
      now rewrite append_nil_l, append_nil_r.
    - now rewrite bind_ret_l. }
  rewrite Hhead.
  rewrite (bind_ok _ _ _ _ _
             (parse_command_ordinary fuel None c _ g1 Hord)).
  rewrite Htok. fold tokens. cbn [emitted_line length out_add].
  rewrite render_app. subst g1.
  f_equal. f_equal. f_equal.
  cbn [render]. f_equal.
  unfold track.
  repeat match goal with
         | |- context [if ?b then _ else _] => destruct b
         | |- context [match ?o with Some _ => _ | None => _ end] =>
             destruct o
         end; reflexivity.
Qed.

(** ** The command loop: the feed word *)

Lemma param_token_delete_ne (g : Globals) (command : string)
    (ps : gmap string Q) (p : string) :
  p <> "F" ->
  param_token py_str cfg g command (delete "F" ps) p
  = param_token py_str cfg g command ps p.
Proof.
  intros Hp. unfold param_token. rewrite lookup_delete_ne by congruence.
  reflexivity.
Qed.

Lemma param_token_deleted (g : Globals) (command : string)
    (ps : gmap string Q) :
  param_token py_str cfg g command (delete "F" ps) "F" = [].
Proof. unfold param_token. now rewrite lookup_delete_eq. Qed.

Lemma param_tokens_delete_F (g : Globals) (command : string)
    (ps : gmap string Q) :
  param_token py_str cfg g command ps "F" = [] ->
  param_tokens py_str cfg g command ps
  = param_tokens py_str cfg g command (delete "F" ps).
Proof.
  intros HF. unfold param_tokens, params. cbn [flat_map].
  rewrite HF, param_token_deleted.
  rewrite !param_token_delete_ne by discriminate.
  reflexivity.
Qed.

Lemma param_token_shape (g : Globals) (command : string)
    (ps : gmap string Q) (p : string) :
  p <> "F" ->
  param_token py_str cfg g command ps p = []
  \/ exists v, param_token py_str cfg g command ps p = [p +:+ v].
Proof.
  intros Hp. unfold param_token.
  destruct (ps !! p); [|now left]. right.
  destruct (String.eqb p "F") eqn:E;
    [apply String.eqb_eq in E; contradiction|].
  repeat match goal with
         | |- context [if ?b then _ else _] => destruct b
         end; eexists; reflexivity.
Qed.

Lemma param_tokens_no_feed (g : Globals) (command : string)
    (ps : gmap string Q) :
  param_token py_str cfg g command ps "F" = [] ->
  Forall no_feed_word (param_tokens py_str cfg g command ps).
Proof.
  intros HF. unfold param_tokens, params. cbn [flat_map]. rewrite HF.
  repeat (apply Forall_app; split); try (apply Forall_nil; exact I);
    match goal with
    | |- Forall _ (param_token _ _ _ _ _ ?p) =>
        destruct (param_token_shape g command ps p) as [->|[v ->]];
          [discriminate | constructor
          | constructor; [reflexivity | constructor]]
    end.
Qed.

Lemma parse_command_delete_F (fuel : nat) (lastcommand : option string)
    (c : Command) (out : pyout) (g : Globals) :
  param_token py_str cfg g (Name c) (Parameters c) "F" = [] ->
  TRANSLATE_DRILL_CYCLES cfg && is_drill_cycle (Name c) = false ->
  parse_command py_str cfg fuel lastcommand c out g
  = parse_command py_str cfg fuel lastcommand
      (mkCommand (Name c) (delete "F" (Parameters c))) out g.
Proof.
  intros HF Hnd. unfold parse_command.
  rewrite !bind_get, !bind_modify. cbn [Name Parameters]. rewrite Hnd.
  assert (Hb : build_outstring py_str cfg g lastcommand
                 (mkCommand (Name c) (delete "F" (Parameters c)))
               = build_outstring py_str cfg g lastcommand c).
  { unfold build_outstring. cbn [Name Parameters].
    now rewrite <- param_tokens_delete_F. }
  assert (Ht : track cfg (mkCommand (Name c) (delete "F" (Parameters c))) g
               = track cfg c g).
  { unfold track. cbn [Name Parameters].
    rewrite !lookup_delete_ne by discriminate. reflexivity. }
  now rewrite Hb, Ht.
Qed.

Lemma rapid_feed_token (g : Globals) (command : string)
    (ps : gmap string Q) :
  str_in command (RAPID_MOVES cfg) = true ->
  param_token py_str cfg g command ps "F" = [].
Proof.
  intros Hr. unfold param_token. destruct (ps !! "F"); [|reflexivity].
  change (String.eqb "F" "F") with true. cbv iota.
  now rewrite Hr.
Qed.

Lemma nonpositive_feed_token (g : Globals) (command : string)
    (ps : gmap string Q) (v : Q) :
  ps !! "F" = Some v ->
  (speed_as (UNIT_SPEED_FORMAT g) v <= 0)%Q ->
  param_token py_str cfg g command ps "F" = [].
Proof.
  intros HF Hv. unfold param_token. rewrite HF.
  change (String.eqb "F" "F") with true. cbv iota.
  destruct (negb _); [|reflexivity].
  destruct (Qlt_le_dec 0 _) as [Hlt|_]; [|reflexivity].
  exfalso. now apply (Qlt_not_le _ _ Hlt).
Qed.

(** C9 (no feed on rapid moves): for a command whose mnemonic is in
    RAPID_MOVES, the parameter loop emits no F token whatever the value
    of F: the tokens are those of the command without its F, none of
    them is a feed word, and (the command not being a translated drill
    cycle) all that the loop emits and updates for the command is what
    it emits and updates for the command without its F. *)
Theorem rapid_move_drops_feed (c : Command) (g : Globals) :
  str_in (Name c) (RAPID_MOVES cfg) = true ->
  param_tokens py_str cfg g (Name c) (Parameters c)
  = param_tokens py_str cfg g (Name c) (delete "F" (Parameters c))
  /\ Forall no_feed_word (param_tokens py_str cfg g (Name c) (Parameters c))
  /\ (TRANSLATE_DRILL_CYCLES cfg && is_drill_cycle (Name c) = false ->
      forall (fuel : nat) (lastcommand : option string) (out : pyout),
        parse_command py_str cfg fuel lastcommand c out g
        = parse_command py_str cfg fuel lastcommand
            (mkCommand (Name c) (delete "F" (Parameters c))) out g).
Proof.
  intros Hr.
  pose proof (rapid_feed_token g (Name c) (Parameters c) Hr) as HF.
  split; [|split].
  - now apply param_tokens_delete_F.
  - now apply param_tokens_no_feed.
  - intros Hnd fuel lastcommand out. now apply parse_command_delete_F.
Qed.

Lemma parse_command_translated (fuel : nat) (lastcommand : option string)
    (c : Command) (out : pyout) (g g1 : Globals) (text : string) :
  TRANSLATE_DRILL_CYCLES cfg = true ->
  is_drill_cycle (Name c) = true ->
  drill_translate py_str cfg fuel
    (build_outstring py_str cfg g lastcommand c) (Name c) (Parameters c)
    (track cfg c g)
  = Ok text g1 ->
  parse_command py_str cfg fuel lastcommand c out g
  = Ok (out_add out (text +:+ render g1 (suppressed_lines (Name c))))
       (advance (length (suppressed_lines (Name c))) g1).
Proof.
  intros HT Hd Hrun.
  assert (Hc : is_spindle_start (Name c) = false
               /\ is_tool_change (Name c) = false
               /\ String.eqb (Name c) "message" = false
               /\ mc_run_command (Name c) = None).
  { destruct (is_drill_cycle_cases _ Hd) as [E|[E|E]]; rewrite E;
      repeat split; reflexivity. }
  destruct Hc as (Hsp & Htc & Hmsg & Hmc).
  unfold parse_command. rewrite bind_get, bind_modify.
  rewrite HT, Hd. cbn [andb]. rewrite bind_assoc.
  rewrite (bind_ok _ _ _ _ _ Hrun). step.
  rewrite Hsp, andb_false_r. step. rewrite Htc. step. rewrite Hmsg. step.
  rewrite Hmc. unfold suppressed_lines.
  destruct (str_in (Name c) (SUPPRESS_COMMANDS cfg)); cbn [app]; step;
    unfold ret; cbn [length render]; unfold advance; cbn [Nat.iter nat_rect];
    now rewrite ?out_add_add, ?append_assoc, ?append_nil_r.
Qed.

(** A translated drill cycle whose expansion raises: the loop raises
    the same. *)
Lemma parse_command_translated_raise (fuel : nat)
    (lastcommand : option string) (c : Command) (out : pyout)
    (g : Globals) (e : exn) :
  TRANSLATE_DRILL_CYCLES cfg = true ->
  is_drill_cycle (Name c) = true ->
  drill_translate py_str cfg fuel
    (build_outstring py_str cfg g lastcommand c) (Name c) (Parameters c)
    (track cfg c g)
  = Raise e ->
  parse_command py_str cfg fuel lastcommand c out g = Raise e.
Proof.
  intros HT Hd Hrun.
  unfold parse_command. rewrite bind_get, bind_modify.
  rewrite HT, Hd. cbn [andb]. rewrite bind_assoc.
  now rewrite (bind_raise _ _ _ _ Hrun).
Qed.

Lemma plain_cycle_without_feed (fuel : nat) (outstring : list string)
    (params : gmap string Q) (g : Globals) (x y z r : Q) :
  (OUTPUT_COMMENTS cfg = true -> outstring <> []) ->
  params !! "X" = Some x -> params !! "Y" = Some y ->
  params !! "Z" = Some z -> params !! "R" = Some r ->
  params !! "F" = None ->
  (z <= r)%Q ->
  drill_translate py_str cfg fuel outstring "G81" params g
  = Raise (KeyError "F").
Proof.
  intros Hne HX HY HZ HR HF Hzr. unfold drill_translate.
  rewrite bind_get.
  rewrite (drill_translate_comment fuel outstring "G81" params g _ Hne).
  rewrite (getitem_some _ _ _ HX), bind_ret_l.
  rewrite (getitem_some _ _ _ HY), bind_ret_l.
  rewrite (getitem_some _ _ _ HZ), bind_ret_l.
  rewrite (getitem_some _ _ _ HR), bind_ret_l.
  destruct (Qlt_le_dec r z) as [Hlt|_];
    [exfalso; now apply (Qlt_not_le _ _ Hlt)|].
  unfold getitem. now rewrite HF.
Qed.

(** C2, as the code has it: a feed whose converted value is not
    positive makes [PostProcessorBase.formatParameter] raise "Invalid
    value for feed rate" for the Feed kind; in the command loop of
    [parse] it raises nothing.  For a command that is not a translated
    drill cycle the F token is left out: the tokens are those of the
    command without its F, and the loop emits and updates for the command
    what it emits and updates for the command without its F.  For a
    translated drill cycle (the plain cycle G81 here) the feed is not
    looked at: the expansion prints it as it is behind every feed move,
    whatever its sign, and it is the cycle without F that stops the
    export, with the key error of the missing word. *)
Theorem nonpositive_feed (v : Q) :
  (forall (u : PostProcessorBase.GCodeUnit) (param : string),
     (PostProcessorBase.convertSpeed u v <= 0)%Q ->
     PostProcessorBase.formatParameter py_str (Some u) param v
       PostProcessorBase.Format.FEED
     = PostProcessorBase.Raises
         (PyException ("Invalid value for feed rate: " +:+ py_str v)))
  /\ (forall (c : Command) (g : Globals),
        Parameters c !! "F" = Some v ->
        (speed_as (UNIT_SPEED_FORMAT g) v <= 0)%Q ->
        param_tokens py_str cfg g (Name c) (Parameters c)
        = param_tokens py_str cfg g (Name c) (delete "F" (Parameters c))
        /\ Forall no_feed_word
             (param_tokens py_str cfg g (Name c) (Parameters c))
        /\ (TRANSLATE_DRILL_CYCLES cfg && is_drill_cycle (Name c) = false ->
            forall (fuel : nat) (lastcommand : option string) (out : pyout),
              parse_command py_str cfg fuel lastcommand c out g
              = parse_command py_str cfg fuel lastcommand
                  (mkCommand (Name c) (delete "F" (Parameters c))) out g))
  /\ (forall (fuel : nat) (lastcommand : option string) (c : Command)
        (out : pyout) (g : Globals) (x y z r : Q),
        TRANSLATE_DRILL_CYCLES cfg = true ->
        Name c = "G81" ->
        Parameters c !! "X" = Some x -> Parameters c !! "Y" = Some y ->
        Parameters c !! "Z" = Some z -> Parameters c !! "R" = Some r ->
        Parameters c !! "F" = Some v ->
        (z <= r)%Q ->
        let g0 := track cfg c g in
        let descent :=
          [feed_Z g0 (absolute g0 (CURRENT_Z g0) z) v;
           rapid_Z g0 (retract_height g0 r)] in
        let lines :=
          cycle_lines g0 (build_outstring py_str cfg g lastcommand c)
            x y r v descent in
        let g1 := advance (length lines) g0 in
        parse_command py_str cfg fuel lastcommand c out g
        = Ok (out_add out
                (render g0 lines +:+ render g1 (suppressed_lines (Name c))))
             (advance (length (suppressed_lines (Name c))) g1)
        /\ parse_command py_str cfg fuel lastcommand
             (mkCommand (Name c) (delete "F" (Parameters c))) out g
           = Raise (KeyError "F")).
Proof.
  split; [|split].
  - intros u param Hv. unfold PostProcessorBase.formatParameter.
    cbn [PostProcessorBase.the_units PostProcessorBase.and_then
         String.eqb Ascii.eqb Bool.eqb PostProcessorBase.Format.FEED
         PostProcessorBase.Format.POSITION PostProcessorBase.Format.ARC
         PostProcessorBase.Format.RADIUS PostProcessorBase.Format.ROTATION].
    destruct (Qlt_le_dec 0 (PostProcessorBase.convertSpeed u v)) as [Hlt|_];
      [exfalso; now apply (Qlt_not_le _ _ Hlt) | reflexivity].
  - intros c g HF Hv.
    pose proof (nonpositive_feed_token g (Name c) (Parameters c) v HF Hv)
      as Htok.
    split; [|split].
    + now apply param_tokens_delete_F.
    + now apply param_tokens_no_feed.
    + intros Hnd fuel lastcommand out. now apply parse_command_delete_F.
  - intros fuel lastcommand c out g x y z r HT HN HX HY HZ HR HF Hzr
      g0 descent lines g1.
    assert (Hd : is_drill_cycle (Name c) = true) by now rewrite HN.
    split.
    + apply parse_command_translated; [exact HT | exact Hd |].
      rewrite HN.
      apply (plain_cycle_expansion fuel _ (Parameters c) (track cfg c g)
               x y z r v); try assumption.
      intros _. now apply (build_outstring_nonempty g lastcommand c x).
    + apply parse_command_translated_raise; [exact HT | exact Hd |].
      cbn [Name Parameters]. rewrite HN.
      apply (plain_cycle_without_feed fuel _ _ _ x y z r);
        try (rewrite lookup_delete_ne by discriminate; assumption);
        [|apply lookup_delete_eq | exact Hzr].
      intros _.
      apply (build_outstring_nonempty g lastcommand
               (mkCommand "G81" (delete "F" (Parameters c))) x).
      cbn [Parameters]. now rewrite lookup_delete_ne by discriminate.
Qed.

(** ** Exceptions *)

(** Symbolic execution of a computation that is assumed to raise. *)
Ltac run_in H :=
  repeat first
    [ rewrite bind_assoc in H
    | rewrite bind_linenumber in H
    | rewrite bind_ret_l in H
    | rewrite bind_emit_block in H
    | rewrite bind_raise_l in H
    | progress cbn [fst snd] in H
    | match type of H with
      | context [if ?b then _ else _] => destruct b eqn:?
      end
    | match type of H with
      | context [match ?o with Some _ => _ | None => _ end] =>
          destruct o eqn:?
      end
    | match type of H with
      | context [match ?l with [] => _ | _ :: _ => _ end] =>
          destruct l eqn:?
      end ].

Lemma parse_commands_app (fuel : nat) (cs1 cs2 : list Command) :
  forall (lastcommand : option string) (out : pyout) (g : Globals),
    parse_commands py_str cfg fuel (cs1 ++ cs2) lastcommand out g
    = bind (parse_commands py_str cfg fuel cs1 lastcommand out)
        (fun out1 =>
           parse_commands py_str cfg fuel cs2
             (last_command lastcommand cs1) out1) g.
Proof.
  induction cs1 as [|c cs1 IH]; intros lastcommand out g.
  - reflexivity.
  - cbn [app parse_commands]. rewrite bind_assoc.
    apply bind_ext. intros out1 g1. apply IH.
Qed.

(** An exception of a member of a group is the exception of the
    compound. *)
Lemma compound_member_raises (fuel : nat) (Label : string)
    (before after : list PathObj) (p : PathObj) (g0 g : Globals)
    (out0 : pyout) (e : exn) :
  parse py_str cfg fuel (Compound Label before) g0 = Ok out0 g ->
  parse py_str cfg fuel p g = Raise e ->
  parse py_str cfg fuel (Compound Label (before ++ p :: after)) g0 = Raise e.
Proof.
  intros Hpre Hraise. cbn [parse] in *.
  apply bind_raise_inv_ok in Hpre as (s0 & g1 & Hhead & Hpre).
  rewrite (bind_ok _ _ _ _ _ Hhead). clear Hhead.
  revert s0 g1 Hpre.
  induction before as [|q before IH]; intros s0 g1 Hpre.
  - inversion Hpre; subst. cbn [app]. cbv beta iota fix.
    now apply bind_raise.
  - cbn [app]. cbv beta iota fix in Hpre |- *.
    apply bind_raise_inv_ok in Hpre as (r & g2 & H1 & Hpre).
    rewrite (bind_ok _ _ _ _ _ H1).
    apply bind_raise_inv_ok in Hpre as (s1 & g3 & H2 & Hpre).
    rewrite (bind_ok _ _ _ _ _ H2).
    now apply IH.
Qed.

Lemma not_drill_cycle (cmd : string) :
  is_drill_cycle cmd = false ->
  str_in cmd ["G81"; "G82"] = false
  /\ String.eqb cmd "G83" = false /\ String.eqb cmd "G82" = false.
Proof.
  unfold is_drill_cycle, str_in. cbn [existsb].
  destruct (String.eqb cmd "G81"), (String.eqb cmd "G82"),
    (String.eqb cmd "G83"); cbn; intros H; try discriminate H; auto.
Qed.

(** The lookup of a missing Q in the guarded block, for a mnemonic that
    is none of the three cycles: the block ends there. *)
Lemma drill_moves_other (fuel : nat) (fmt : Q -> string) (cmd : string)
    (params : gmap string Q) (dz rz : Q) (dwellv : option Q)
    (strG0 strF : string) (last : Q) (trBuff : string) (g' : Globals) :
  is_drill_cycle cmd = false -> params !! "Q" = None ->
  drill_moves py_str cfg fuel fmt cmd params dz rz None None dwellv
    strG0 strF last trBuff g'
  = Ok (trBuff, Some (KeyError "Q")) g'.
Proof.
  intros Hd HQ. destruct (not_drill_cycle cmd Hd) as (H12 & _ & _).
  unfold drill_moves. now rewrite H12, HQ.
Qed.

(** C7, as the code has it.  An exception raised while a command of a
    path is processed is not caught and not wrapped by the command loop:
    [parse] on the path stops with that very exception, and so does
    [parse] on a compound that has the path in its group; nothing is
    added to the exception, neither the command nor the operation.
    Inside the expander of the drill cycles it is otherwise: an exception
    raised in its guarded block is passed over by the handler of the
    block.  A call of the expander for a mnemonic that is none of the
    three cycles, without a Q word, meets the key error of Q at the drill
    moves and returns all the same, with the lines of the approach and no
    trace of the exception. *)
Theorem errors_reach_the_caller (fuel : nat) (Label : string)
    (cs1 : list Command) (c : Command) (cs2 : list Command)
    (g g1 : Globals) (out1 : pyout) (e : exn) :
  parse py_str cfg fuel (SimplePath Label cs1) g = Ok out1 g1 ->
  parse_command py_str cfg fuel (last_command None cs1) c out1 g1 = Raise e ->
  parse py_str cfg fuel (SimplePath Label (cs1 ++ c :: cs2)) g = Raise e
  /\ (forall (Label' : string) (before after : list PathObj)
         (g0 : Globals) (out0 : pyout),
        parse py_str cfg fuel (Compound Label' before) g0 = Ok out0 g ->
        parse py_str cfg fuel
          (Compound Label'
             (before ++ SimplePath Label (cs1 ++ c :: cs2) :: after)) g0
        = Raise e)
  /\ (forall (outstring : list string) (cmd : string)
         (params : gmap string Q) (g0 : Globals) (x y z r f : Q),
        (OUTPUT_COMMENTS cfg = true -> outstring <> []) ->
        params !! "X" = Some x -> params !! "Y" = Some y ->
        params !! "Z" = Some z -> params !! "R" = Some r ->
        params !! "F" = Some f -> (z <= r)%Q ->
        is_drill_cycle cmd = false -> params !! "Q" = None ->
        (forall (trBuff : string) (g' : Globals),
           drill_moves py_str cfg fuel (fmt_len g0) cmd params
             (absolute g0 (CURRENT_Z g0) z) (retract_height g0 r)
             None None None
             (rapid_Z g0 (retract_height g0 r)) (feed_word g0 f)
             (retract_height g0 r) trBuff g'
           = Ok (trBuff, Some (KeyError "Q")) g')
        /\ drill_translate py_str cfg fuel outstring cmd params g0
           = Ok (render g0 (cycle_lines g0 outstring x y r f []))
                (advance (length (cycle_lines g0 outstring x y r f [])) g0)).
Proof.
  intros Hpre Hraise.
  assert (Hpath : parse py_str cfg fuel (SimplePath Label (cs1 ++ c :: cs2)) g
                  = Raise e).
  { cbn [parse] in *.
    apply bind_raise_inv_ok in Hpre as (out0 & g0 & Hhead & Hpre).
    rewrite (bind_ok _ _ _ _ _ Hhead), parse_commands_app.
    rewrite (bind_ok _ _ _ _ _ Hpre). cbn [parse_commands].
    now apply bind_raise. }
  split; [exact Hpath|]. split.
  - intros Label' before after g0 out0 Hbefore.
    now apply (compound_member_raises fuel Label' before after _ g0 g out0).
  - intros outstring cmd params g0 x y z r f Hne HX HY HZ HR HF Hzr Hd HQ.
    destruct (not_drill_cycle cmd Hd) as (_ & H83 & H82).
    split.
    + intros trBuff g'. now apply drill_moves_other.
    + apply (drill_translate_accepted fuel outstring cmd params g0
               x y z r f None None [] (Some (KeyError "Q")));
        try assumption.
      * now rewrite H83.
      * now rewrite H83, H82.
      * intros trBuff g'. cbn [option_map render length].
        unfold advance. cbn [Nat.iter nat_rect]. rewrite append_nil_r.
        now apply drill_moves_other.
Qed.

(** ** Further properties: tokens and lines *)

Lemma rstrip_app_space (x : string) : Py.rstrip (x +:+ " ") = Py.rstrip x.
Proof.
  induction x as [|c x IH]; [reflexivity|].
  rewrite append_cons. cbn [Py.rstrip]. now rewrite IH.
Qed.

Lemma rstrip_spaceless (w : string) :
  spaceless w = true -> Py.rstrip w = w.
Proof.
  induction w as [|c w IH]; [reflexivity|].
  cbn [spaceless Py.rstrip]. intros H.
  apply andb_prop in H as [Hc Hw]. apply negb_true_iff in Hc.
  rewrite (IH Hw), Hc. now destruct w.
Qed.

Lemma rstrip_app_plain (a w : string) :
  plain_token w -> Py.rstrip (a +:+ w) = a +:+ w.
Proof.
  intros [Hne Hw]. induction a as [|c a IH].
  - now apply rstrip_spaceless.
  - rewrite append_cons. cbn [Py.rstrip]. rewrite IH.
    destruct (a +:+ w) eqn:E; [|reflexivity].
    destruct a; [|discriminate E]. cbn in E. contradiction.
Qed.

Lemma lstrip_plain (w rest : string) :
  plain_token w -> Py.lstrip (w +:+ rest) = w +:+ rest.
Proof.
  intros [Hne Hw]. destruct w as [|c w]; [contradiction|].
  cbn [spaceless] in Hw. apply andb_prop in Hw as [Hc _].
  apply negb_true_iff in Hc.
  rewrite append_cons. cbn [Py.lstrip]. now rewrite Hc.
Qed.

Lemma concat_cons (sep x : string) (xs : list string) :
  xs <> [] -> String.concat sep (x :: xs) = x +:+ sep +:+ String.concat sep xs.
Proof. destruct xs; [contradiction | reflexivity]. Qed.

Lemma fold_outstring_join (tokens : list string) :
  tokens <> [] ->
  fold_left (fun s w => s +:+ w +:+ COMMAND_SPACE) tokens ""
  = String.concat " " tokens +:+ " ".
Proof.
  induction tokens as [|w ws IH]; [contradiction|]. intros _.
  cbn [fold_left]. rewrite fold_outstring_acc, append_nil_l.
  destruct ws as [|w' ws].
  - cbn [fold_left String.concat]. now rewrite append_nil_r.
  - rewrite IH by discriminate.
    rewrite (concat_cons " " w (w' :: ws)) by discriminate.
    unfold COMMAND_SPACE. now rewrite !append_assoc.
Qed.

Lemma concat_ends_plain (tokens : list string) :
  tokens <> [] -> Forall plain_token tokens ->
  exists a w, plain_token w /\ String.concat " " tokens = a +:+ w.
Proof.
  induction tokens as [|w ws IH]; [contradiction|]. intros _ Hall.
  inversion Hall as [|? ? Hw Hws]; subst.
  destruct ws as [|w' ws].
  - exists "", w. split; [exact Hw | reflexivity].
  - destruct IH as (a & w0 & Hw0 & E); [discriminate | exact Hws |].
    exists (w +:+ " " +:+ a), w0. split; [exact Hw0|].
    rewrite (concat_cons " " w (w' :: ws)) by discriminate. rewrite E.
    now rewrite !append_assoc.
Qed.

Lemma format_outstring_plain (tokens : list string) :
  Forall plain_token tokens ->
  format_outstring tokens = String.concat " " tokens.
Proof.
  intros Hall. destruct tokens as [|w ws]; [reflexivity|].
  unfold format_outstring, Py.strip.
  rewrite fold_outstring_join by discriminate.
  destruct (concat_ends_plain (w :: ws)) as (a & w0 & Hw0 & E);
    [discriminate | exact Hall |].
  assert (Hl : Py.lstrip (String.concat " " (w :: ws) +:+ " ")
               = String.concat " " (w :: ws) +:+ " ").
  { inversion Hall as [|? ? Hw Hws]; subst.
    destruct ws as [|w' ws].
    - cbn [String.concat]. now apply lstrip_plain.
    - rewrite (concat_cons " " w (w' :: ws)) by discriminate.
      rewrite append_assoc. now apply lstrip_plain. }
  rewrite Hl, rstrip_app_space, E. now apply rstrip_app_plain.
Qed.

(** X1: the line of a token list made of non-empty tokens without white
    space is the tokens joined by single spaces, with nothing before the
    first and nothing after the last. *)
Theorem format_outstring_joins (tokens : list string) :
  Forall plain_token tokens ->
  format_outstring tokens = String.concat " " tokens.
Proof. apply format_outstring_plain. Qed.

Lemma param_token_insert_other (g : Globals) (command : string)
    (ps : gmap string Q) (letter p : string) (v : Q) :
  letter <> p ->
  param_token py_str cfg g command (<[letter := v]> ps) p
  = param_token py_str cfg g command ps p.
Proof.
  intros Hne. unfold param_token. now rewrite lookup_insert_ne.
Qed.

Lemma flat_map_agree {A B} (f h : A -> list B) (l : list A) :
  (forall a, In a l -> f a = h a) -> flat_map f l = flat_map h l.
Proof.
  induction l as [|a l IH]; intros H; [reflexivity|].
  cbn [flat_map]. rewrite (H a) by (left; reflexivity).
  rewrite IH; [reflexivity|]. intros b Hb. apply H. now right.
Qed.

(** X2: a parameter whose letter is not one of the nineteen that the
    loop looks for (H, D, E, ...) leaves no trace in the tokens, whatever
    its value. *)
Theorem unlisted_parameter_ignored (g : Globals) (command : string)
    (ps : gmap string Q) (letter : string) (v : Q) :
  ~ In letter params ->
  param_tokens py_str cfg g command (<[letter := v]> ps)
  = param_tokens py_str cfg g command ps.
Proof.
  intros Hnot. unfold param_tokens.
  apply flat_map_agree. intros p Hp.
  apply param_token_insert_other. intros ->. contradiction.
Qed.

Lemma speed_as_positive (u : SpeedUnit) (v : Q) :
  (0 < speed_as u v)%Q <-> (0 < v)%Q.
Proof.
  destruct u; unfold speed_as.
  - split; intros H; lra.
  - assert (E : (v * 60 / (254 # 10) == v * (600 # 254))%Q) by field.
    rewrite E. split; intros H; lra.
Qed.

(** X3: whether the loop prints a feed word depends on the mnemonic and
    on the sign of F alone, not on the output unit system: the F token is
    printed exactly when the mnemonic is not a rapid move and F is
    strictly positive, and it is then F followed by the converted feed. *)
Theorem feed_word_rule (g : Globals) (command : string)
    (ps : gmap string Q) (v : Q) :
  ps !! "F" = Some v ->
  param_token py_str cfg g command ps "F"
  = if negb (str_in command (RAPID_MOVES cfg))
       && (if Qlt_le_dec 0 v then true else false)
    then ["F" +:+ Py.format_f (PRECISION cfg)
                    (speed_as (UNIT_SPEED_FORMAT g) v)]
    else [].
Proof.
  intros HF. unfold param_token. rewrite HF.
  change (String.eqb "F" "F") with true. cbv iota.
  destruct (negb (str_in command (RAPID_MOVES cfg))); [|reflexivity].
  cbn [andb].
  destruct (Qlt_le_dec 0 (speed_as (UNIT_SPEED_FORMAT g) v)) as [H|H],
           (Qlt_le_dec 0 v) as [H'|H']; try reflexivity; exfalso.
  - apply speed_as_positive in H. now apply (Qlt_not_le _ _ H).
  - apply (speed_as_positive (UNIT_SPEED_FORMAT g)) in H'.
    now apply (Qlt_not_le _ _ H').
Qed.

(** ** Further properties: the expander *)

Lemma bind_diverge {A B} (m : M A) (k : A -> M B) (g : Globals) :
  m g = Diverge -> bind m k g = Diverge.
Proof. intros H. unfold bind. now rewrite H. Qed.

Lemma drill_moves_dwell (fuel : nat) (fmt : Q -> string)
    (params : gmap string Q) (dz rz p : Q) (stepv abit : option Q)
    (strG0 strF : string) (last : Q) (trBuff : string) (g' : Globals) :
  drill_moves py_str cfg fuel fmt "G82" params dz rz stepv abit (Some p)
    strG0 strF last trBuff g'
  = Ok (trBuff +:+ render g' ["G1 Z" +:+ fmt dz +:+ strF;
                              "G4 P" +:+ py_str p +:+ nl; strG0], None)
       (advance 3 g').
Proof.
  unfold drill_moves.
  change (str_in "G82" ["G81"; "G82"]) with true.
  change (String.eqb "G82" "G82") with true. cbv iota.
  rewrite bind_linenumber, bind_assoc, bind_linenumber, bind_ret_l,
    bind_linenumber.
  unfold ret. cbn [render advance Nat.iter].
  now rewrite ?append_assoc, ?append_nil_r.
Qed.

(** X4: a dwell cycle G82 that the expander accepts expands to the
    approach, the plunge to the hole bottom, the pause [G4 P] with the P
    word as the host prints it, and the rapid to the retract height. *)
Theorem dwell_cycle_expansion (fuel : nat) (outstring : list string)
    (params : gmap string Q) (g : Globals) (x y z r f p : Q) :
  (OUTPUT_COMMENTS cfg = true -> outstring <> []) ->
  params !! "X" = Some x -> params !! "Y" = Some y ->
  params !! "Z" = Some z -> params !! "R" = Some r ->
  params !! "F" = Some f -> params !! "P" = Some p ->
  (z <= r)%Q ->
  let descent :=
    [feed_Z g (absolute g (CURRENT_Z g) z) f;
     "G4 P" +:+ py_str p +:+ nl;
     rapid_Z g (retract_height g r)] in
  drill_translate py_str cfg fuel outstring "G82" params g
  = Ok (render g (cycle_lines g outstring x y r f descent))
       (advance (length (cycle_lines g outstring x y r f descent)) g).
Proof.
  intros Hne HX HY HZ HR HF HP Hzr descent.
  apply (drill_translate_accepted fuel outstring "G82" params g
           x y z r f None (Some p) descent None); try assumption.
  - reflexivity.
  - change (negb (String.eqb "G82" "G83") && String.eqb "G82" "G82")
      with true. cbv iota. now rewrite (getitem_some _ _ _ HP).
  - intros trBuff g'. apply drill_moves_dwell.
Qed.

Lemma fsub_above (rz q s : Q) :
  step_away rz q -> (rz <= s)%Q -> (rz < Py.fsub s q)%Q.
Proof.
  intros Haway Hs. unfold step_away in Haway. unfold Py.fsub.
  destruct (round64_error (s - q)) as [H1 _].
  assert (Heps : (0 < Py.eps64)%Q) by apply pow2_pos.
  assert (Heps1 : (Py.eps64 <= 1)%Q) by discriminate.
  pose proof (Qabs_triangle_reverse (s - q) (rz - q)) as Htri.
  assert (Ed : (s - q - (rz - q) == s - rz)%Q) by ring.
  rewrite Ed, (Qabs_pos (s - rz)) in Htri by lra.
  set (A := Qabs (s - q)) in *. set (A0 := Qabs (rz - q)) in *.
  assert (Hm : (Py.eps64 * A <= Py.eps64 * A0 + (s - rz))%Q).
  { assert (H2 : (Py.eps64 * (A - A0) <= Py.eps64 * (s - rz))%Q)
      by (apply Qmult_le_l; [exact Heps | lra]).
    assert (H3 : (Py.eps64 * (s - rz) <= 1 * (s - rz))%Q)
      by (apply Qmult_le_compat_r; lra).
    lra. }
  lra.
Qed.

Lemma peck_loop_diverges (fmt : Q -> string) (rz dz step a_bit : Q)
    (strG0 strF : string) (fuel : nat) :
  step_away rz step -> (dz <= rz)%Q ->
  forall (last : Q) (trBuff : string) (g' : Globals),
    (rz <= last)%Q ->
    peck_loop cfg fuel fmt rz dz step a_bit strG0 strF last trBuff g'
    = Diverge.
Proof.
  intros Hstep Hdr.
  induction fuel as [|fuel IH]; intros last trBuff g' Hlast;
    [reflexivity|].
  cbn [peck_loop].
  pose proof (fsub_above rz step last Hstep Hlast) as Hup.
  destruct (Qlt_le_dec dz (Py.fsub last step)) as [_|Hle]; [|exfalso; lra].
  destruct (negb (Qeq_bool last rz));
    repeat first [rewrite bind_assoc | rewrite bind_linenumber
                 | rewrite bind_ret_l];
    apply IH; lra.
Qed.


(** The expander up to its guarded block, when the block does not
    return. *)
Lemma drill_translate_stuck (fuel : nat) (outstring : list string)
    (cmd : string) (params : gmap string Q) (g : Globals)
    (x y z r f : Q) (stepv dwellv : option Q) :
  (OUTPUT_COMMENTS cfg = true -> outstring <> []) ->
  params !! "X" = Some x -> params !! "Y" = Some y ->
  params !! "Z" = Some z -> params !! "R" = Some r ->
  params !! "F" = Some f ->
  (z <= r)%Q ->
  (if String.eqb cmd "G83" then v <- getitem params "Q" ;; ret (Some v)
   else ret None) = ret stepv ->
  (if negb (String.eqb cmd "G83") && String.eqb cmd "G82"
   then v <- getitem params "P" ;; ret (Some v)
   else ret None) = ret dwellv ->
  (forall (trBuff : string) (g' : Globals),
     drill_moves py_str cfg fuel (fmt_len g) cmd params
       (absolute g (CURRENT_Z g) z) (retract_height g r)
       stepv (option_map (fun s => Py.fmul s (Py.round64 (5 # 100))) stepv) dwellv
       (rapid_Z g (retract_height g r)) (feed_word g f)
       (retract_height g r) trBuff g'
     = Diverge) ->
  drill_translate py_str cfg fuel outstring cmd params g = Diverge.
Proof.
  intros Hne HX HY HZ HR HF Hzr Hstep Hdwell Hmoves.
  unfold drill_translate. rewrite bind_get.
  rewrite (drill_translate_comment fuel outstring cmd params g _ Hne).
  rewrite (getitem_some _ _ _ HX), bind_ret_l.
  rewrite (getitem_some _ _ _ HY), bind_ret_l.
  rewrite (getitem_some _ _ _ HZ), bind_ret_l.
  rewrite (getitem_some _ _ _ HR), bind_ret_l.
  destruct (Qlt_le_dec r z) as [Hlt|_];
    [exfalso; now apply (Qlt_not_le _ _ Hlt)|].
  rewrite (getitem_some _ _ _ HF), bind_ret_l.
  rewrite Hstep, bind_ret_l, Hdwell, bind_ret_l.
  apply bind_diverge. unfold drill_block.
  fold (relative g). fold (absolute g (CURRENT_Z g) z).
  fold (absolute g (CURRENT_Z g) r). fold (retract_height g r).
  fold (fmt_len g). fold (feed_word g f).
  destruct (relative g);
    repeat first [rewrite bind_assoc | rewrite bind_linenumber
                 | rewrite bind_ret_l];
    (erewrite bind_ok; [|apply preliminary_moves_run]);
    apply Hmoves.
Qed.

Lemma nonzero_step (q : Q) : ~ (q == 0)%Q -> Qeq_bool q 0 = false.
Proof.
  intros Hq. destruct (Qeq_bool q 0) eqn:E; [|reflexivity].
  apply Qeq_bool_iff in E. contradiction.
Qed.

Lemma drill_translate_peck_stuck (fuel : nat) (outstring : list string)
    (params : gmap string Q) (g : Globals) (x y z r f q : Q) :
  (OUTPUT_COMMENTS cfg = true -> outstring <> []) ->
  params !! "X" = Some x -> params !! "Y" = Some y ->
  params !! "Z" = Some z -> params !! "R" = Some r ->
  params !! "F" = Some f -> params !! "Q" = Some q ->
  (z <= r)%Q -> ~ (q == 0)%Q ->
  (forall (a_bit : Q) (trBuff : string) (g' : Globals),
     peck_loop cfg fuel (fmt_len g) (retract_height g r)
       (absolute g (CURRENT_Z g) z) q a_bit
       (rapid_Z g (retract_height g r)) (feed_word g f)
       (retract_height g r) trBuff g'
     = Diverge) ->
  drill_translate py_str cfg fuel outstring "G83" params g = Diverge.
Proof.
  intros Hne HX HY HZ HR HF HQ Hzr Hq Hloop.
  apply (drill_translate_stuck fuel outstring "G83" params g
           x y z r f (Some q) None); try assumption.
  - change (String.eqb "G83" "G83") with true. cbv iota.
    now rewrite (getitem_some _ _ _ HQ).
  - reflexivity.
  - intros trBuff g'. unfold drill_moves.
    change (str_in "G83" ["G81"; "G82"]) with false. cbv iota.
    rewrite HQ, (nonzero_step q Hq). cbn [negb option_map].
    apply bind_diverge. apply Hloop.
Qed.

Lemma cycle_depth_le (g : Globals) (z r : Q) :
  (z <= r)%Q -> (absolute g (CURRENT_Z g) z <= retract_height g r)%Q.
Proof.
  intros Hzr. eapply Qle_trans; [|apply retract_height_ge].
  now apply absolute_le.
Qed.

(** X5: a peck cycle G83 with a negative step Q that passes the
    geometry check never returns.  The step is taken in binary64
    arithmetic; when it is not lost in the rounding at the retract
    height, every stop lies above the retract height, so the loop finds
    no stop at or below the hole bottom, whatever the fuel. *)
Theorem negative_peck_step_diverges (fuel : nat) (outstring : list string)
    (params : gmap string Q) (g : Globals) (x y z r f q : Q) :
  (OUTPUT_COMMENTS cfg = true -> outstring <> []) ->
  params !! "X" = Some x -> params !! "Y" = Some y ->
  params !! "Z" = Some z -> params !! "R" = Some r ->
  params !! "F" = Some f -> params !! "Q" = Some q ->
  (z <= r)%Q -> (q < 0)%Q -> step_away (retract_height g r) q ->
  drill_translate py_str cfg fuel outstring "G83" params g = Diverge.
Proof.
  intros Hne HX HY HZ HR HF HQ Hzr Hq Haway.
  apply (drill_translate_peck_stuck fuel outstring params g x y z r f q);
    try assumption.
  - intros H0. rewrite H0 in Hq. now apply (Qlt_irrefl 0).
  - intros a_bit trBuff g'.
    apply peck_loop_diverges;
      [exact Haway | now apply cycle_depth_le | apply Qle_refl].
Qed.


Lemma stops_from_length (q : Q) (n : nat) :
  forall last : Q, length (stops_from q last n) = n.
Proof.
  induction n as [|n IH]; intros last; cbn [stops_from length];
    [reflexivity | now rewrite IH].
Qed.

Lemma inject_S (m : nat) (v : Q) :
  (inject_Z (Z.of_nat (S m)) * v == inject_Z (Z.of_nat m) * v + v)%Q.
Proof.
  rewrite Nat2Z.inj_succ. unfold Z.succ. rewrite inject_Z_plus.
  change (inject_Z 1) with 1%Q. ring.
Qed.

(** The stops against the exact multiples of the step. *)
Lemma stops_track (rz dz q : Q) (n : nat) :
  (0 < q)%Q -> step_felt rz dz q ->
  forall last : Q,
    (dz <= last)%Q -> (last <= rz)%Q -> stops_valid dz q last n ->
    forall k : nat, (k < n)%nat ->
      (last - inject_Z (Z.of_nat (S k)) * (q + step_error rz dz q)
       <= nth k (stops_from q last n) 0)%Q
      /\ (nth k (stops_from q last n) 0
          <= last - inject_Z (Z.of_nat (S k)) * (q - step_error rz dz q))%Q.
Proof.
  intros Hq Hfelt.
  induction n as [|n IH]; intros last Hlo Hhi Hv k Hk; [lia|].
  cbn [stops_from]. destruct Hv as [Hlt Hv].
  destruct (fsub_bounds rz dz q last Hlo Hhi) as [B1 B2].
  destruct (fsub_below rz dz q last Hq Hfelt Hlo Hhi) as [_ B3].
  destruct k as [|k]; cbn [nth].
  - change (inject_Z (Z.of_nat 1)) with 1%Q. split; lra.
  - destruct (IH (Py.fsub last q)) with (k := k) as [I1 I2];
      [lra | lra | exact Hv | lia |].
    rewrite (inject_S (S k) (q + step_error rz dz q)).
    rewrite (inject_S (S k) (q - step_error rz dz q)).
    split; lra.
Qed.

(** The number of stops against the depth of the hole. *)
Lemma stops_count_bounds (rz dz q : Q) (n : nat) :
  (0 < q)%Q -> step_felt rz dz q ->
  forall last : Q,
    (dz <= last)%Q -> (last <= rz)%Q -> stops_valid dz q last n ->
    (inject_Z (Z.of_nat n) * (q - step_error rz dz q) <= last - dz)%Q
    /\ (last - dz <= inject_Z (Z.of_nat (S n)) * (q + step_error rz dz q))%Q.
Proof.
  intros Hq Hfelt.
  induction n as [|n IH]; intros last Hlo Hhi Hv;
    destruct (fsub_bounds rz dz q last Hlo Hhi) as [B1 B2];
    destruct (fsub_below rz dz q last Hq Hfelt Hlo Hhi) as [_ B3].
  - cbn [stops_valid] in Hv.
    change (inject_Z (Z.of_nat 0)) with 0%Q.
    change (inject_Z (Z.of_nat 1)) with 1%Q. split; lra.
  - destruct Hv as [Hlt Hv].
    destruct (IH (Py.fsub last q)) as [I1 I2]; [lra | lra | exact Hv |].
    rewrite (inject_S n (q - step_error rz dz q)).
    rewrite (inject_S (S n) (q + step_error rz dz q)).
    split; lra.
Qed.

Lemma peck_lines_length_below (fmt : Q -> string) (rz dz q a_bit : Q)
    (strG0 strF : string) (n : nat) :
  (0 < q)%Q -> step_felt rz dz q ->
  forall last : Q,
    (dz <= last)%Q -> (last < rz)%Q -> stops_valid dz q last n ->
    length (peck_lines fmt rz dz a_bit strG0 strF last (stops_from q last n))
    = (3 * n + 3)%nat.
Proof.
  intros Hq Hfelt. induction n as [|n IH]; intros last Hlo Hlast Hv;
    cbn [stops_from peck_lines]; unfold clearance_lines;
    (destruct (Qeq_bool last rz) eqn:E;
     [apply Qeq_bool_iff in E; rewrite E in Hlast;
      now apply Qlt_irrefl in Hlast|]).
  - reflexivity.
  - destruct Hv as [Hlt Hv].
    destruct (fsub_below rz dz q last Hq Hfelt Hlo) as [_ B3]; [lra|].
    cbn [app length]. rewrite IH; [lia | lra | lra | exact Hv].
Qed.

(** X6: how many pecks.  The loop makes as many intermediate stops as
    the binary64 sequence that starts at the retract height and goes
    down by the step has terms above the hole bottom.  For a positive
    step [q] that is not lost in the rounding, with [n] such terms, the
    loop returns with exactly [n] stops and [3 n + 2] lines (a plunge and
    a retract for every stop and for the hole bottom, and a rapid back
    into the hole before every plunge but the first); with [err] the
    bound on the error of one subtraction, [n] lies between
    [(rz - dz) / (q + err) - 1] and [(rz - dz) / (q - err)], and the k-th
    stop is within [k * err] of the retract height less [k] steps. *)
Theorem peck_stops_count (fmt : Q -> string) (rz dz q a_bit : Q)
    (strG0 strF : string) (n fuel : nat) (trBuff : string) (g' : Globals) :
  (0 < q)%Q -> (dz <= rz)%Q -> step_felt rz dz q ->
  stops_valid dz q rz n ->
  (n < fuel)%nat ->
  let stops := stops_from q rz n in
  let lines := peck_lines fmt rz dz a_bit strG0 strF rz stops in
  let err := step_error rz dz q in
  peck_loop cfg fuel fmt rz dz q a_bit strG0 strF rz trBuff g'
  = Ok (trBuff +:+ render g' lines) (advance (length lines) g')
  /\ length lines = (3 * n + 2)%nat
  /\ length stops = n
  /\ (inject_Z (Z.of_nat n) * (q - err) <= rz - dz)%Q
  /\ (rz - dz <= inject_Z (Z.of_nat (S n)) * (q + err))%Q
  /\ forall k : nat, (k < n)%nat ->
       (rz - inject_Z (Z.of_nat (S k)) * (q + err) <= nth k stops 0)%Q
       /\ (nth k stops 0 <= rz - inject_Z (Z.of_nat (S k)) * (q - err))%Q.
Proof.
  intros Hq Hdr Hfelt Hv Hfuel stops lines err.
  destruct (stops_count_bounds rz dz q n Hq Hfelt rz Hdr (Qle_refl rz) Hv)
    as [C1 C2].
  split; [|split; [|split; [|split; [|split]]]].
  - now apply peck_loop_run.
  - subst lines stops. destruct n as [|n]; cbn [stops_from peck_lines];
      unfold clearance_lines;
      (replace (Qeq_bool rz rz) with true
         by (symmetry; apply Qeq_bool_iff; reflexivity)).
    + reflexivity.
    + destruct Hv as [Hlt Hv].
      destruct (fsub_below rz dz q rz Hq Hfelt Hdr (Qle_refl rz)) as [_ B3].
      cbn [app length].
      rewrite (peck_lines_length_below fmt rz dz q a_bit strG0 strF n
                 Hq Hfelt); [lia | lra | lra | exact Hv].
  - apply stops_from_length.
  - exact C1.
  - exact C2.
  - intros k Hk.
    now apply (stops_track rz dz q n Hq Hfelt rz Hdr (Qle_refl rz) Hv).
Qed.

(** X7: in G98 retract mode an accepted plain cycle never feeds down to
    the retract height and never retracts below the height it started
    from: the retract height it uses is at or above the current height
    and at or above R, the approach is at most a rapid up to it and the
    rapid to the hole, and the cycle ends on a rapid to it. *)
Theorem g98_plain_cycle (fuel : nat) (outstring : list string)
    (params : gmap string Q) (g : Globals) (x y z r f : Q) :
  DRILL_RETRACT_MODE g = "G98" ->
  (OUTPUT_COMMENTS cfg = true -> outstring <> []) ->
  params !! "X" = Some x -> params !! "Y" = Some y ->
  params !! "Z" = Some z -> params !! "R" = Some r ->
  params !! "F" = Some f ->
  (z <= r)%Q ->
  let RZ := retract_height g r in
  let lines :=
    comment_lines outstring ++ force_lines g
    ++ (if Qlt_le_dec (CURRENT_Z g) RZ then [rapid_Z g RZ] else [])
    ++ [rapid_XY g (absolute g (CURRENT_X g) x) (absolute g (CURRENT_Y g) y);
        feed_Z g (absolute g (CURRENT_Z g) z) f;
        rapid_Z g RZ]
    ++ restore_lines g in
  (CURRENT_Z g <= RZ)%Q
  /\ (absolute g (CURRENT_Z g) r <= RZ)%Q
  /\ drill_translate py_str cfg fuel outstring "G81" params g
     = Ok (render g lines) (advance (length lines) g).
Proof.
  intros Hmode Hne HX HY HZ HR HF Hzr RZ lines.
  assert (Hcur : (CURRENT_Z g <= RZ)%Q).
  { subst RZ. unfold retract_height. rewrite Hmode.
    change (String.eqb "G98" "G98") with true. cbn [andb].
    destruct (Qlt_le_dec (CURRENT_Z g) (absolute g (CURRENT_Z g) r));
      [now apply Qlt_le_weak | apply Qle_refl]. }
  split; [exact Hcur|]. split; [apply retract_height_ge|].
  rewrite (plain_cycle_expansion fuel outstring params g x y z r f)
    by assumption.
  assert (Hl : cycle_lines g outstring x y r f
                 [feed_Z g (absolute g (CURRENT_Z g) z) f;
                  rapid_Z g (retract_height g r)] = lines).
  { subst lines. unfold cycle_lines, approach_lines. fold RZ.
    destruct (Qlt_le_dec RZ (CURRENT_Z g)) as [Hlt|_];
      [exfalso; now apply (Qlt_not_le _ _ Hlt)|].
    unfold rapid_XY. rewrite <- !app_assoc. reflexivity. }
  now rewrite Hl.
Qed.


(** X9: a drill cycle that lacks one of the words X, Y, Z, R stops the
    export with the key error of the first of them that is missing, in
    that order, before the geometry is looked at. *)
Theorem drill_cycle_missing_geometry (fuel : nat) (outstring : list string)
    (cmd : string) (params : gmap string Q) (g : Globals) (key : string) :
  (OUTPUT_COMMENTS cfg = true -> outstring <> []) ->
  first_missing params ["X"; "Y"; "Z"; "R"] = Some key ->
  drill_translate py_str cfg fuel outstring cmd params g
  = Raise (KeyError key).
Proof.
  intros Hne Hmiss. unfold drill_translate. rewrite bind_get.
  rewrite (drill_translate_comment fuel outstring cmd params g _ Hne).
  unfold first_missing in Hmiss. cbn [find] in Hmiss.
  unfold getitem.
  destruct (params !! "X"); [rewrite bind_ret_l | now inversion Hmiss].
  destruct (params !! "Y"); [rewrite bind_ret_l | now inversion Hmiss].
  destruct (params !! "Z"); [rewrite bind_ret_l | now inversion Hmiss].
  destruct (params !! "R"); [discriminate Hmiss | now inversion Hmiss].
Qed.

(** X10: a drill cycle with sound geometry reads its feed F, then the
    step Q if it is a peck cycle or the pause P if it is a dwell cycle;
    the first of these words that is missing stops the export with its
    key error.  A plain cycle reads neither Q nor P. *)
Theorem drill_cycle_missing_word (fuel : nat) (outstring : list string)
    (cmd : string) (params : gmap string Q) (g : Globals)
    (x y z r : Q) (key : string) :
  (OUTPUT_COMMENTS cfg = true -> outstring <> []) ->
  params !! "X" = Some x -> params !! "Y" = Some y ->
  params !! "Z" = Some z -> params !! "R" = Some r ->
  (z <= r)%Q ->
  first_missing params (cycle_words cmd) = Some key ->
  drill_translate py_str cfg fuel outstring cmd params g
  = Raise (KeyError key).
Proof.
  intros Hne HX HY HZ HR Hzr Hmiss. unfold drill_translate.
  rewrite bind_get.
  rewrite (drill_translate_comment fuel outstring cmd params g _ Hne).
  rewrite (getitem_some _ _ _ HX), bind_ret_l.
  rewrite (getitem_some _ _ _ HY), bind_ret_l.
  rewrite (getitem_some _ _ _ HZ), bind_ret_l.
  rewrite (getitem_some _ _ _ HR), bind_ret_l.
  destruct (Qlt_le_dec r z) as [Hlt|_];
    [exfalso; now apply (Qlt_not_le _ _ Hlt)|].
  unfold first_missing, cycle_words in Hmiss. cbn [find] in Hmiss.
  unfold getitem.
  destruct (params !! "F"); [rewrite bind_ret_l | now inversion Hmiss].
  destruct (String.eqb cmd "G83").
  - cbn [find] in Hmiss.
    destruct (params !! "Q"); [discriminate Hmiss | now inversion Hmiss].
  - rewrite bind_ret_l. cbn [negb andb].
    destruct (String.eqb cmd "G82"); [|discriminate Hmiss].
    cbn [find] in Hmiss.
    destruct (params !! "P"); [discriminate Hmiss | now inversion Hmiss].
Qed.

(** ** Further properties: what the emitter does to the globals *)

Lemma counter_only_ret {A} (a : A) : counter_only (ret a).
Proof. intros g g' a' H. inversion H; subst. now exists O. Qed.

Lemma counter_only_raise {A} (e : exn) : counter_only (@raise A e).
Proof. intros g g' a H. discriminate H. Qed.

Lemma counter_only_diverge {A} : counter_only (@diverge A).
Proof. intros g g' a H. discriminate H. Qed.

Lemma counter_only_get : counter_only get.
Proof. intros g g' a H. inversion H; subst. now exists O. Qed.

Lemma counter_only_linenumber : counter_only (linenumber cfg).
Proof.
  intros g g' a H. rewrite linenumber_run in H. inversion H; subst.
  now exists 1%nat.
Qed.

Lemma counter_only_getitem (d : gmap string Q) (key : string) :
  counter_only (getitem d key).
Proof.
  unfold getitem. destruct (d !! key);
    [apply counter_only_ret | apply counter_only_raise].
Qed.

Lemma counter_only_bind {A B} (m : M A) (k : A -> M B) :
  counter_only m -> (forall a, counter_only (k a)) ->
  counter_only (bind m k).
Proof.
  intros Hm Hk g g' b H.
  apply bind_raise_inv_ok in H as (a & g1 & H1 & H2).
  apply Hm in H1 as [k1 ->]. apply Hk in H2 as [k2 ->].
  exists (k1 + k2)%nat. now rewrite advance_add.
Qed.

Lemma counter_only_emit_block (lines : list string) (out : pyout) :
  counter_only (emit_block cfg lines out).
Proof.
  intros g g' a H. rewrite emit_block_run in H. inversion H; subst. eauto.
Qed.

(** The steps that need no thought. *)
Ltac frame_step :=
  first
    [ apply counter_only_ret
    | apply counter_only_raise
    | apply counter_only_diverge
    | apply counter_only_get
    | apply counter_only_linenumber
    | apply counter_only_getitem
    | apply counter_only_emit_block
    | assumption
    | match goal with
      | Hknown : forall _, _ |- counter_only _ => apply Hknown
      end
    | apply counter_only_bind; [|intros ?]
    | progress cbv beta
    | match goal with
      | |- counter_only (if ?b then _ else _) => destruct b
      end
    | match goal with
      | |- counter_only (match ?o with Some _ => _ | None => _ end) =>
          destruct o
      end
    | match goal with
      | |- counter_only (match ?l with [] => _ | _ :: _ => _ end) =>
          destruct l
      end ].

Ltac frame := repeat frame_step.

Lemma counter_only_peck_loop (fmt : Q -> string) (rz dz step a_bit : Q)
    (strG0 strF : string) (fuel : nat) :
  forall (last : Q) (trBuff : string),
    counter_only
      (peck_loop cfg fuel fmt rz dz step a_bit strG0 strF last trBuff).
Proof.
  induction fuel as [|fuel IH]; intros last trBuff; cbn [peck_loop];
    [apply counter_only_diverge|].
  frame; apply IH.
Qed.

Lemma counter_only_drill_translate (fuel : nat) (outstring : list string)
    (cmd : string) (params : gmap string Q) :
  counter_only (drill_translate py_str cfg fuel outstring cmd params).
Proof.
  unfold drill_translate, drill_block, preliminary_moves, drill_moves,
    comment_original.
  frame; apply counter_only_peck_loop.
Qed.

Lemma counter_only_run {A} (m : M A) (g g' : Globals) (a : A) :
  counter_only m -> m g = Ok a g' -> exists k : nat, g' = advance k g.
Proof. intros Hm H. exact (Hm g g' a H). Qed.

Lemma parse_command_frame (fuel : nat) (lastcommand : option string)
    (c : Command) (out out' : pyout) (g g' : Globals) :
  parse_command py_str cfg fuel lastcommand c out g = Ok out' g' ->
  exists k : nat, g' = advance k (track cfg c g).
Proof.
  intros H. unfold parse_command in H.
  rewrite bind_get, bind_modify in H.
  eapply counter_only_run; [|exact H].
  pose proof counter_only_drill_translate as Hd.
  frame.
Qed.

Lemma bump_set (g : Globals) :
  (forall v, bump (set_CURRENT_X v g) = set_CURRENT_X v (bump g))
  /\ (forall v, bump (set_CURRENT_Y v g) = set_CURRENT_Y v (bump g))
  /\ (forall v, bump (set_CURRENT_Z v g) = set_CURRENT_Z v (bump g))
  /\ (forall m, bump (set_DRILL_RETRACT_MODE m g)
                = set_DRILL_RETRACT_MODE m (bump g))
  /\ (forall m, bump (set_MOTION_MODE m g) = set_MOTION_MODE m (bump g)).
Proof.
  unfold bump. destruct (OUTPUT_LINE_NUMBERS cfg); repeat split; reflexivity.
Qed.

Lemma track_bump (c : Command) (g : Globals) :
  track cfg c (bump g) = bump (track cfg c g).
Proof.
  destruct (bump_set g) as (HX & HY & HZ & HD & HM).
  unfold track.
  destruct (str_in (Name c) (MOTION_COMMANDS cfg)),
           (str_in (Name c) ["G98"; "G99"]),
           (str_in (Name c) ["G90"; "G91"]),
           (Parameters c !! "X"), (Parameters c !! "Y"),
           (Parameters c !! "Z");
    unfold bump; destruct (OUTPUT_LINE_NUMBERS cfg); reflexivity.
Qed.

Lemma track_advance (c : Command) (k : nat) (g : Globals) :
  track cfg c (advance k g) = advance k (track cfg c g).
Proof.
  induction k as [|k IH]; [reflexivity|].
  unfold advance in *. rewrite !Nat.iter_succ, track_bump. now f_equal.
Qed.

Lemma tracked_advance (cs : list Command) :
  forall (k : nat) (g : Globals),
    tracked cs (advance k g) = advance k (tracked cs g).
Proof.
  induction cs as [|c cs IH]; intros k g; [reflexivity|].
  unfold tracked in *. cbn [fold_left]. now rewrite track_advance, IH.
Qed.

Lemma tracked_app (cs1 cs2 : list Command) (g : Globals) :
  tracked (cs1 ++ cs2) g = tracked cs2 (tracked cs1 g).
Proof. unfold tracked. apply fold_left_app. Qed.

Lemma parse_commands_frame (fuel : nat) (cs : list Command) :
  forall (lastcommand : option string) (out out' : pyout) (g g' : Globals),
    parse_commands py_str cfg fuel cs lastcommand out g = Ok out' g' ->
    exists k : nat, g' = advance k (tracked cs g).
Proof.
  induction cs as [|c cs IH]; intros lastcommand out out' g g' H.
  - inversion H; subst. now exists O.
  - cbn [parse_commands] in H.
    apply bind_raise_inv_ok in H as (out1 & g1 & H1 & H2).
    apply parse_command_frame in H1 as [k1 ->].
    apply IH in H2 as [k2 ->].
    exists (k1 + k2)%nat.
    unfold tracked at 2. cbn [fold_left]. fold (tracked cs (track cfg c g)).
    now rewrite tracked_advance, advance_add.
Qed.

Lemma advance_off (k : nat) (g : Globals) :
  OUTPUT_LINE_NUMBERS cfg = false -> advance k g = g.
Proof.
  intros Hoff. induction k as [|k IH]; [reflexivity|].
  unfold advance in *. rewrite Nat.iter_succ, IH. unfold bump.
  now rewrite Hoff.
Qed.

Lemma advance_units (k : nat) (g : Globals) :
  UNIT_FORMAT (advance k g) = UNIT_FORMAT g
  /\ UNIT_SPEED_FORMAT (advance k g) = UNIT_SPEED_FORMAT g.
Proof.
  induction k as [|k [IH1 IH2]]; [split; reflexivity|].
  unfold advance in *. rewrite Nat.iter_succ. unfold bump at 1 3.
  destruct (OUTPUT_LINE_NUMBERS cfg); cbn; now split.
Qed.

Lemma track_units (c : Command) (g : Globals) :
  UNIT_FORMAT (track cfg c g) = UNIT_FORMAT g
  /\ UNIT_SPEED_FORMAT (track cfg c g) = UNIT_SPEED_FORMAT g.
Proof.
  unfold track.
  destruct (str_in (Name c) (MOTION_COMMANDS cfg)),
           (str_in (Name c) ["G98"; "G99"]),
           (str_in (Name c) ["G90"; "G91"]),
           (Parameters c !! "X"), (Parameters c !! "Y"),
           (Parameters c !! "Z"); split; reflexivity.
Qed.

Lemma tracked_units (cs : list Command) :
  forall g : Globals,
    UNIT_FORMAT (tracked cs g) = UNIT_FORMAT g
    /\ UNIT_SPEED_FORMAT (tracked cs g) = UNIT_SPEED_FORMAT g.
Proof.
  induction cs as [|c cs IH]; intros g; [split; reflexivity|].
  unfold tracked in *. cbn [fold_left].
  destruct (IH (track cfg c g)) as [H1 H2].
  destruct (track_units c g) as [H3 H4].
  split; congruence.
Qed.

Lemma PathObj_nested_ind (P : PathObj -> Prop) :
  (forall Label Group, Forall P Group -> P (Compound Label Group)) ->
  (forall Label Commands, P (SimplePath Label Commands)) ->
  P NotAPath ->
  forall pathobj, P pathobj.
Proof.
  intros HC HS HN. fix IH 1. intros [Label Group | Label Commands |].
  - apply HC. induction Group as [|p ps IHps]; constructor;
      [apply IH | exact IHps].
  - apply HS.
  - exact HN.
Qed.

Lemma parse_frame_simple (fuel : nat) (Label : string)
    (Commands : list Command) :
  frame_ok fuel (SimplePath Label Commands).
Proof.
  intros out g g' H. cbn [parse commands_of] in *.
  apply bind_raise_inv_ok in H as (out0 & g0 & H0 & H).
  assert (Hhead : exists k0 : nat, g0 = advance k0 g).
  { eapply counter_only_run; [|exact H0]. frame. }
  destruct Hhead as [k0 ->].
  apply parse_commands_frame in H as [k ->].
  exists (k0 + k)%nat. now rewrite tracked_advance, advance_add.
Qed.

Lemma parse_frame_compound (fuel : nat) (Label : string)
    (Group : list PathObj) :
  Forall (frame_ok fuel) Group -> frame_ok fuel (Compound Label Group).
Proof.
  intros HF out g g' H. cbn [parse commands_of] in *.
  apply bind_raise_inv_ok in H as (s0 & g0 & H0 & H).
  assert (Hhead : exists k0 : nat, g0 = advance k0 g).
  { eapply counter_only_run; [|exact H0]. frame. }
  destruct Hhead as [k0 ->]. clear H0.
  revert s0 k0 g H.
  induction HF as [|p ps Hp HF IH]; intros s0 k0 g H.
  - inversion H; subst. now exists k0.
  - cbv beta iota fix in H.
    apply bind_raise_inv_ok in H as (r & g1 & H1 & H).
    apply Hp in H1 as [k1 ->].
    apply bind_raise_inv_ok in H as (s1 & g2 & H2 & H).
    assert (g2 = advance k1 (tracked (commands_of p) (advance k0 g)))
      as -> by (destruct r; [now inversion H2 | discriminate H2]).
    rewrite tracked_advance, <- advance_add in H.
    apply IH in H as [k ->].
    exists k. now rewrite tracked_app.
Qed.

Lemma parse_frame (fuel : nat) (pathobj : PathObj) : frame_ok fuel pathobj.
Proof.
  induction pathobj using PathObj_nested_ind.
  - now apply parse_frame_compound.
  - apply parse_frame_simple.
  - intros out g g' H. inversion H; subst. now exists O.
Qed.

(** X11: what [parse] does to the globals.  When [parse] returns, the
    globals are those that the trackers of the commands of the path
    object leave, taken in the order of the commands, with the line
    counter advanced once per emitted line: the units are those it
    started with, and with line numbers off nothing but the trackers has
    touched the globals.  The expansion of a drill cycle in particular
    leaves the tracked position where it was. *)
Theorem parse_touches_trackers_only (fuel : nat) (pathobj : PathObj)
    (out : pyout) (g g' : Globals) :
  parse py_str cfg fuel pathobj g = Ok out g' ->
  (exists k : nat, g' = advance k (tracked (commands_of pathobj) g))
  /\ (OUTPUT_LINE_NUMBERS cfg = false ->
       g' = tracked (commands_of pathobj) g)
  /\ UNIT_FORMAT g' = UNIT_FORMAT g
  /\ UNIT_SPEED_FORMAT g' = UNIT_SPEED_FORMAT g.
Proof.
  intros H.
  assert (Hk : exists k : nat,
            g' = advance k (tracked (commands_of pathobj) g)).
  { exact (parse_frame fuel pathobj out g g' H). }
  split; [exact Hk|]. destruct Hk as [k ->]. split; [|split].
  - intros Hoff. now apply advance_off.
  - rewrite (proj1 (advance_units _ _)). apply tracked_units.
  - rewrite (proj2 (advance_units _ _)). apply tracked_units.
Qed.

(** ** Further properties: what the loop does to its output *)

Lemma extends_refl (out : pyout) : extends out out.
Proof. exists "". now rewrite out_add_nil. Qed.

Lemma extends_add (out o : pyout) (s : string) :
  extends out o -> extends out (out_add o s).
Proof. intros [t ->]. exists (t +:+ s). apply out_add_add. Qed.

Lemma extends_trans (out o o' : pyout) :
  extends out o -> extends o o' -> extends out o'.
Proof. intros H [t ->]. now apply extends_add. Qed.

Lemma extends_list (out o : pyout) : is_list out -> extends out o -> is_list o.
Proof. intros [s ->] [t ->]. now exists (s +:+ t). Qed.

Lemma extends_text (s : string) (o : pyout) :
  extends (OutStr s) o -> exists text : string, o = OutStr text.
Proof. intros [t ->]. now exists (s +:+ t). Qed.

(** Symbolic execution of a computation that is assumed to return. *)
Ltac step_in H :=
  repeat first
    [ rewrite bind_assoc in H
    | rewrite bind_linenumber in H
    | rewrite bind_ret_l in H
    | rewrite bind_emit_block in H
    | progress cbv beta zeta in H
    | progress cbn [fst snd] in H ].

Ltac returned H := unfold ret in H; inversion H; subst; clear H; cbn [fst snd].

Lemma parse_command_out (fuel : nat) (lastcommand : option string)
    (c : Command) (out out' : pyout) (g g' : Globals) :
  parse_command py_str cfg fuel lastcommand c out g = Ok out' g' ->
  if resets_output c then is_list out' else extends out out'.
Proof.
  intros H. unfold parse_command in H. rewrite bind_get, bind_modify in H.
  apply bind_raise_inv_ok in H as (r1 & g1 & H1 & H).
  assert (E1 : extends out (fst r1)).
  { destruct (TRANSLATE_DRILL_CYCLES cfg && is_drill_cycle (Name c)).
    - apply bind_raise_inv_ok in H1 as (t & g0 & _ & H1). returned H1.
      now exists t.
    - returned H1. apply extends_refl. }
  clear H1. cbv zeta in H.
  apply bind_raise_inv_ok in H as (r2 & g2 & H2 & H).
  assert (E2 : extends out (fst r2)).
  { destruct ((if Qlt_le_dec 0 (SPINDLE_WAIT cfg) then true else false)
              && is_spindle_start (Name c)).
    - step_in H2. returned H2. now repeat apply extends_add.
    - returned H2. exact E1. }
  clear H2 E1.
  apply bind_raise_inv_ok in H as (r3 & g3 & H3 & H).
  assert (E3 : extends out (fst r3)).
  { destruct (is_tool_change (Name c)); [|returned H3; exact E2].
    destruct (OUTPUT_COMMENTS cfg), (OUTPUT_TOOL_CHANGE cfg);
      cbn [negb] in H3; step_in H3; returned H3;
      now repeat apply extends_add. }
  clear H3 E2.
  apply bind_raise_inv_ok in H as (r4 & g4 & H4 & H).
  assert (E4 : if resets_output c then is_list (fst r4)
               else extends out (fst r4)).
  { unfold resets_output.
    destruct (String.eqb (Name c) "message"); cbn [andb];
      [|returned H4; exact E3].
    destruct (OUTPUT_COMMENTS cfg); cbn [negb] in *.
    - destruct (snd r3); [discriminate H4|]. returned H4. exact E3.
    - returned H4. now exists "". }
  clear H4 E3.
  apply bind_raise_inv_ok in H as (o5 & g5 & H5 & H).
  assert (E5 : if resets_output c then is_list o5 else extends out o5).
  { destruct (if str_in (Name c) (SUPPRESS_COMMANDS cfg)
              then "(" :: snd r4 ++ [")"] else snd r4).
    - returned H5. exact E4.
    - step_in H5. returned H5. destruct (resets_output c).
      + destruct E4 as [chars ->]. now eexists.
      + now apply extends_add. }
  clear H5 E4.
  destruct (mc_run_command (Name c)).
  - step_in H. returned H. destruct (resets_output c).
    + destruct E5 as [chars ->]. now eexists.
    + now apply extends_add.
  - returned H. exact E5.
Qed.

Lemma parse_commands_out (fuel : nat) (cs : list Command) :
  forall (lastcommand : option string) (out out' : pyout) (g g' : Globals),
    parse_commands py_str cfg fuel cs lastcommand out g = Ok out' g' ->
    if existsb resets_output cs then is_list out' else extends out out'.
Proof.
  induction cs as [|c cs IH]; intros lastcommand out out' g g' H.
  - returned H. apply extends_refl.
  - cbn [parse_commands] in H.
    apply bind_raise_inv_ok in H as (out1 & g1 & H1 & H).
    apply parse_command_out in H1. apply IH in H.
    cbn [existsb].
    destruct (resets_output c), (existsb resets_output cs); cbn [orb];
      eauto using extends_list, extends_trans.
Qed.

Lemma never_resets (cs : list Command) :
  OUTPUT_COMMENTS cfg = true \/ Forall (fun c => Name c <> "message") cs ->
  existsb resets_output cs = false.
Proof.
  intros H. induction cs as [|c cs IH]; [reflexivity|].
  cbn [existsb]. rewrite IH.
  - rewrite orb_false_r. unfold resets_output.
    destruct H as [-> | H]; [apply andb_false_r|].
    inversion H as [|? ? Hc _]; subst.
    apply String.eqb_neq in Hc. now rewrite Hc.
  - destruct H as [H | H]; [now left | right].
    now inversion H.
Qed.

(** X12: the loop only ever adds to its output.  With comments on, or
    with no ["message"] command among the commands, what the loop
    returns is the output it was started with followed by more text, and
    [parse] on the path returns a string. *)
Theorem output_only_grows (fuel : nat) (Label : string) (cs : list Command)
    (lastcommand : option string) (out out' : pyout) (g g' : Globals) :
  OUTPUT_COMMENTS cfg = true \/ Forall (fun c => Name c <> "message") cs ->
  (parse_commands py_str cfg fuel cs lastcommand out g = Ok out' g' ->
   exists text : string, out' = out_add out text)
  /\ (parse py_str cfg fuel (SimplePath Label cs) g = Ok out' g' ->
      exists text : string, out' = OutStr text).
Proof.
  intros Hcs. apply never_resets in Hcs. split; intros H.
  - apply parse_commands_out in H. now rewrite Hcs in H.
  - cbn [parse] in H.
    apply bind_raise_inv_ok in H as (out0 & g0 & H0 & H).
    apply parse_commands_out in H. rewrite Hcs in H.
    assert (E0 : extends (OutStr "") out0).
    { destruct (OUTPUT_COMMENTS cfg).
      - step_in H0. returned H0. now eexists.
      - returned H0. apply extends_refl. }
    apply (extends_text ""). eapply extends_trans; eassumption.
Qed.

Lemma resets_in (cs : list Command) (c : Command) :
  OUTPUT_COMMENTS cfg = false -> In c cs -> Name c = "message" ->
  existsb resets_output cs = true.
Proof.
  intros Hoff Hin Hname. apply existsb_exists. exists c. split; [exact Hin|].
  unfold resets_output. now rewrite Hname, Hoff.
Qed.

Lemma message_path_list (fuel : nat) (Label : string) (cs : list Command)
    (c : Command) (out : pyout) (g g' : Globals) :
  OUTPUT_COMMENTS cfg = false -> In c cs -> Name c = "message" ->
  parse py_str cfg fuel (SimplePath Label cs) g = Ok out g' ->
  is_list out.
Proof.
  intros Hoff Hin Hname H. cbn [parse] in H.
  apply bind_raise_inv_ok in H as (out0 & g0 & _ & H).
  apply parse_commands_out in H.
  now rewrite (resets_in cs c Hoff Hin Hname) in H.
Qed.

(** What the loop holds after a ["message"] command with comments off
    does not depend on what it held before. *)
Lemma message_forgets (fuel : nat) (lastcommand : option string)
    (c : Command) (out out' : pyout) (g : Globals) :
  Name c = "message" -> OUTPUT_COMMENTS cfg = false ->
  parse_command py_str cfg fuel lastcommand c out g
  = parse_command py_str cfg fuel lastcommand c out' g.
Proof.
  intros Hname Hoff. unfold parse_command. rewrite !bind_get, !bind_modify.
  rewrite Hname, Hoff.
  change (is_drill_cycle "message") with false.
  change (is_spindle_start "message") with false.
  change (is_tool_change "message") with false.
  change (String.eqb "message" "message") with true.
  rewrite !andb_false_r. cbn [negb]. step. reflexivity.
Qed.

(** X13: a ["message"] command with comments off.  The loop rebinds its
    output to an empty list there.  Everything emitted for the path
    before the command is lost: what [parse] returns for the path is what
    the commands from the message on add to an empty list, in the globals
    that the commands before it have left.  [parse] on a path with such a
    command returns a list of characters, not a string, and a compound
    that has the path in its group never returns, since adding a list to
    its string is an error. *)
Theorem message_without_comments (fuel : nat) (Label : string)
    (cs : list Command) (c : Command) :
  OUTPUT_COMMENTS cfg = false -> In c cs -> Name c = "message" ->
  (forall (before after : list Command) (g : Globals),
     cs = before ++ c :: after ->
     parse py_str cfg fuel (SimplePath Label cs) g
     = bind (parse py_str cfg fuel (SimplePath Label before))
         (fun _ =>
            parse_commands py_str cfg fuel (c :: after)
              (last_command None before) (OutList "")) g)
  /\ (forall (out : pyout) (g g' : Globals),
        parse py_str cfg fuel (SimplePath Label cs) g = Ok out g' ->
        exists chars : string, out = OutList chars)
  /\ (forall (Label' : string) (Group : list PathObj) (out : pyout)
        (g g' : Globals),
        In (SimplePath Label cs) Group ->
        parse py_str cfg fuel (Compound Label' Group) g <> Ok out g').
Proof.
  intros Hoff Hin Hname. split; [|split].
  - intros before after g ->. cbn [parse]. rewrite bind_assoc.
    apply bind_ext. intros out0 g0. rewrite parse_commands_app.
    apply bind_ext. intros out1 g1. cbn [parse_commands].
    unfold bind.
    now rewrite (message_forgets fuel _ c out1 (OutList "") g1 Hname Hoff).
  - intros out g g'. now apply (message_path_list fuel Label cs c).
  - intros Label' Group out g g' HG H. cbn [parse] in H.
    apply bind_raise_inv_ok in H as (s0 & g0 & _ & H).
    revert s0 g0 H.
    induction Group as [|p ps IH]; intros s0 g0 H; [contradiction|].
    cbv beta iota fix in H.
    apply bind_raise_inv_ok in H as (r & g1 & H1 & H).
    apply bind_raise_inv_ok in H as (s1 & g2 & H2 & H).
    destruct HG as [-> | HG].
    + apply (message_path_list fuel Label cs c) in H1 as [chars ->];
        try assumption.
      discriminate H2.
    + now apply (IH HG s1 g2).
Qed.

(** ** Further properties: the special commands of the loop *)

Lemma is_spindle_start_cases (command : string) :
  is_spindle_start command = true ->
  command = "M3" \/ command = "M03" \/ command = "M4" \/ command = "M04".
Proof.
  unfold is_spindle_start, str_in, existsb.
  rewrite !orb_true_iff, !String.eqb_eq. intuition discriminate.
Qed.

Lemma is_tool_change_cases (command : string) :
  is_tool_change command = true -> command = "M6" \/ command = "M06".
Proof.
  unfold is_tool_change, str_in, existsb.
  rewrite !orb_true_iff, !String.eqb_eq. intuition discriminate.
Qed.

Lemma render_one (g : Globals) (line : string) :
  render g [line] = prefix_at (LINENR g) +:+ line.
Proof. cbn [render]. now rewrite append_nil_r. Qed.

Lemma render_cons (g : Globals) (line : string) (lines : list string) :
  render g (line :: lines)
  = prefix_at (LINENR g) +:+ line +:+ render (bump g) lines.
Proof. reflexivity. Qed.

Lemma advance_1 (g : Globals) : advance 1 g = bump g.
Proof. reflexivity. Qed.

(** X14: a spindle start with a spindle wait configured.  The command
    goes out on a line of its own, followed by the pause [G4 P] with the
    configured time as the host prints it; a suppressed mnemonic does not
    keep the command back, it only adds an empty comment behind the
    pause. *)
Theorem spindle_start_wait (fuel : nat) (lastcommand : option string)
    (c : Command) (out : pyout) (g : Globals) :
  (0 < SPINDLE_WAIT cfg)%Q ->
  is_spindle_start (Name c) = true ->
  let tokens := build_outstring py_str cfg g lastcommand c in
  let lines :=
    [format_outstring tokens +:+ nl;
     format_outstring ["G4"; "P" +:+ py_str (SPINDLE_WAIT cfg)] +:+ nl]
    ++ suppressed_lines (Name c) in
  parse_command py_str cfg fuel lastcommand c out g
  = Ok (out_add out (render (track cfg c g) lines))
       (advance (length lines) (track cfg c g)).
Proof.
  intros Hw Hsp tokens lines.
  assert (Hc : is_drill_cycle (Name c) = false
               /\ is_tool_change (Name c) = false
               /\ String.eqb (Name c) "message" = false
               /\ mc_run_command (Name c) = None).
  { destruct (is_spindle_start_cases _ Hsp) as [E|[E|[E|E]]]; rewrite E;
      repeat split; reflexivity. }
  destruct Hc as (Hd & Htc & Hmsg & Hmc).
  unfold parse_command. rewrite bind_get, bind_modify.
  rewrite Hd, andb_false_r, Hsp.
  destruct (Qlt_le_dec 0 (SPINDLE_WAIT cfg)) as [_|Hle];
    [|exfalso; now apply (Qlt_not_le _ _ Hw)].
  cbn [andb]. step. rewrite Htc. step. rewrite Hmsg. step. rewrite Hmc.
  subst lines. unfold suppressed_lines.
  destruct (str_in (Name c) (SUPPRESS_COMMANDS cfg)); cbn [app]; step;
    unfold ret; cbn [length]; rewrite !render_cons, !out_add_add;
    unfold advance; cbn [Nat.iter nat_rect render];
    now rewrite ?append_assoc, ?append_nil_r.
Qed.

(** X15: a tool change.  With tool changes enabled the lines of the
    configured block go out first, each behind its own line number, and
    the command itself comes after the block; with tool changes disabled
    the command goes out as a comment, between parentheses, and the
    block is left out.  The announcing comment comes first in both
    cases when comments are on. *)
Theorem tool_change_block (fuel : nat) (lastcommand : option string)
    (c : Command) (out : pyout) (g : Globals) :
  is_tool_change (Name c) = true ->
  str_in (Name c) (SUPPRESS_COMMANDS cfg) = false ->
  let tokens := build_outstring py_str cfg g lastcommand c in
  let lines :=
    toolchange_comment
    ++ (if OUTPUT_TOOL_CHANGE cfg
        then Py.splitlines (TOOL_CHANGE cfg) ++ emitted_line tokens
        else [format_outstring ("(" :: tokens ++ [")"]) +:+ nl]) in
  parse_command py_str cfg fuel lastcommand c out g
  = Ok (out_add out (render (track cfg c g) lines))
       (advance (length lines) (track cfg c g)).
Proof.
  intros Htc Hsup tokens lines.
  assert (Hc : is_drill_cycle (Name c) = false
               /\ is_spindle_start (Name c) = false
               /\ String.eqb (Name c) "message" = false
               /\ mc_run_command (Name c) = None).
  { destruct (is_tool_change_cases _ Htc) as [E|E]; rewrite E;
      repeat split; reflexivity. }
  destruct Hc as (Hd & Hsp & Hmsg & Hmc).
  unfold parse_command. rewrite bind_get, bind_modify.
  rewrite Hd, Hsp, !andb_false_r, Htc, Hmsg, Hsup, Hmc.
  fold tokens. subst lines. unfold toolchange_comment, emitted_line.
  set (g1 := track cfg c g).
  destruct (OUTPUT_COMMENTS cfg), (OUTPUT_TOOL_CHANGE cfg), tokens as [|w ws];
    cbn [negb app]; step; unfold ret;
    rewrite ?app_nil_r, ?render_cons, ?render_app, ?out_add_add;
    cbn [length]; rewrite ?length_app; cbn [length];
    rewrite ?Nat.add_0_r, ?advance_S, ?advance_add, ?render_one, ?advance_1;
    cbn [render advance Nat.iter nat_rect];
    rewrite ?out_add_nil, ?append_assoc, ?append_nil_r; try reflexivity.
Qed.

(** ** Further properties: text blocks *)

Lemma concat_empty_cons (x : string) (xs : list string) :
  String.concat "" (x :: xs) = x +:+ String.concat "" xs.
Proof.
  destruct xs as [|y ys]; cbn [String.concat];
    [now rewrite append_nil_r | reflexivity].
Qed.

Lemma append_one (cur : string) (a : ascii) (s : string) :
  (cur +:+ String a "") +:+ s = cur +:+ String a s.
Proof. now rewrite append_assoc, append_cons, append_nil_l. Qed.

Lemma append_two (cur : string) (a b : ascii) (s : string) :
  (cur +:+ String a (String b "")) +:+ s = cur +:+ String a (String b s).
Proof. now rewrite append_assoc, !append_cons, append_nil_l. Qed.

Lemma splitlines_go_concat (n : nat) :
  forall s : string, (String.length s <= n)%nat ->
  forall cur : string,
    String.concat "" (Py.splitlines_go cur s) = cur +:+ s.
Proof.
  induction n as [|n IH]; intros s Hlen cur.
  - destruct s; [|cbn in Hlen; lia].
    cbn [Py.splitlines_go]. rewrite append_nil_r. now destruct cur.
  - destruct s as [|a s']; [rewrite append_nil_r; now destruct cur|].
    cbn [String.length] in Hlen. cbn [Py.splitlines_go].
    destruct (Py.is_linebreak a) eqn:E.
    + assert (Hplain : String.concat ""
                         ((cur +:+ String a "") :: Py.splitlines_go "" s')
                       = cur +:+ String a s').
      { rewrite concat_empty_cons, IH by lia.
        now rewrite append_nil_l, append_one. }
      destruct a as [[] [] [] [] [] [] [] []];
        try (cbv in E; discriminate E); try exact Hplain.
      destruct s' as [|b s'']; [exact Hplain|].
      destruct b as [[] [] [] [] [] [] [] []]; try exact Hplain.
      cbn [String.length] in Hlen.
      rewrite concat_empty_cons, IH by lia.
      now rewrite append_nil_l, append_two.
    + rewrite IH by lia. apply append_one.
Qed.

Lemma splitlines_concat (s : string) : String.concat "" (Py.splitlines s) = s.
Proof.
  unfold Py.splitlines.
  now rewrite (splitlines_go_concat (String.length s)), append_nil_l.
Qed.

Lemma render_plain (lines : list string) :
  OUTPUT_LINE_NUMBERS cfg = false ->
  forall g : Globals, render g lines = String.concat "" lines.
Proof.
  intros Hoff. induction lines as [|b bs IH]; intros g; [reflexivity|].
  rewrite render_cons, concat_empty_cons, IH. unfold prefix_at.
  now rewrite Hoff, append_nil_l.
Qed.

(** X16: a text block goes through the line loop unchanged when line
    numbers are off: cutting the block into lines with their terminators
    and adding the lines one after the other gives the block back,
    character for character, and leaves the globals alone.  A block that
    does not end on a line terminator is therefore followed directly by
    whatever is emitted next. *)
Theorem text_block_verbatim (text : string) (out : pyout) (g : Globals) :
  OUTPUT_LINE_NUMBERS cfg = false ->
  emit_block cfg (Py.splitlines text) out g = Ok (out_add out text) g.
Proof.
  intros Hoff.
  now rewrite emit_block_run, render_plain, splitlines_concat, advance_off.
Qed.

(** ** Further properties: machine-command comments *)

Lemma until_paren_payload (payload rest : string) :
  paren_free payload = true ->
  until_paren (payload +:+ String ")" rest) = Some (payload, rest).
Proof.
  induction payload as [|a p IH]; intros H.
  - reflexivity.
  - cbn [paren_free] in H. apply andb_prop in H as [Ha Hp].
    apply negb_true_iff in Ha.
    rewrite append_cons. cbn [until_paren]. now rewrite Ha, (IH Hp).
Qed.

Lemma substring_all (s : string) : String.substring 0 (String.length s) s = s.
Proof. induction s as [|a s IH]; cbn; [reflexivity | now rewrite IH]. Qed.

Lemma prefix_append (m x : string) : String.prefix m (m +:+ x) = true.
Proof.
  induction m as [|a m IH]; [now destruct x|].
  rewrite append_cons. cbn [String.prefix].
  destruct (ascii_dec a a); [exact IH | contradiction].
Qed.

Lemma length_append (m x : string) :
  String.length (m +:+ x) = (String.length m + String.length x)%nat.
Proof.
  induction m as [|a m IH]; [reflexivity|].
  rewrite append_cons. cbn [String.length]. now rewrite IH.
Qed.

Lemma substring_append (m x : string) :
  String.substring (String.length m)
    (String.length (m +:+ x) - String.length m) (m +:+ x) = x.
Proof.
  rewrite length_append, Nat.add_comm, Nat.add_sub.
  induction m as [|a m IH]; [apply substring_all|].
  rewrite append_cons. exact IH.
Qed.

Lemma mc_run_command_payload (payload : string) :
  payload <> "" -> paren_free payload = true ->
  mc_run_command ("(MC_RUN_COMMAND: " +:+ payload +:+ ")") = Some payload.
Proof.
  intros Hne Hfree. unfold mc_run_command.
  rewrite prefix_append, substring_append.
  rewrite (until_paren_payload payload "" Hfree).
  destruct payload; [contradiction | reflexivity].
Qed.

Lemma comment_name_plain (rest : string) :
  is_drill_cycle (String "(" rest) = false
  /\ is_spindle_start (String "(" rest) = false
  /\ is_tool_change (String "(" rest) = false
  /\ String.eqb (String "(" rest) "message" = false.
Proof. repeat split; reflexivity. Qed.

(** X17: a comment of the form (MC_RUN_COMMAND: payload), with a
    payload that is not empty and has no closing parenthesis inside, is
    emitted like any command and followed by a line that holds the
    payload alone, character for character: nothing is formatted,
    stripped or converted on the way to the controller. *)
Theorem machine_command_passthrough (fuel : nat)
    (lastcommand : option string) (c : Command) (payload : string)
    (out : pyout) (g : Globals) :
  Name c = "(MC_RUN_COMMAND: " +:+ payload +:+ ")" ->
  payload <> "" -> paren_free payload = true ->
  str_in (Name c) (SUPPRESS_COMMANDS cfg) = false ->
  let tokens := build_outstring py_str cfg g lastcommand c in
  let lines := emitted_line tokens ++ [payload +:+ nl] in
  parse_command py_str cfg fuel lastcommand c out g
  = Ok (out_add out (render (track cfg c g) lines))
       (advance (length lines) (track cfg c g)).
Proof.
  intros Hname Hne Hfree Hsup tokens lines.
  pose proof (mc_run_command_payload payload Hne Hfree) as Hmc.
  rewrite <- Hname in Hmc.
  assert (Hc : is_drill_cycle (Name c) = false
               /\ is_spindle_start (Name c) = false
               /\ is_tool_change (Name c) = false
               /\ String.eqb (Name c) "message" = false).
  { rewrite Hname, append_cons. apply comment_name_plain. }
  destruct Hc as (Hd & Hsp & Htc & Hmsg).
  unfold parse_command. rewrite bind_get, bind_modify.
  rewrite Hd, Hsp, !andb_false_r, Htc, Hmsg, Hsup, Hmc.
  fold tokens. subst lines. unfold emitted_line.
  destruct tokens as [|w ws]; cbn [app]; step; unfold ret;
    rewrite ?render_cons, ?out_add_add; cbn [length];
    unfold advance; cbn [Nat.iter nat_rect render];
    now rewrite ?append_assoc, ?append_nil_r.
Qed.

Lemma prefix_split (m : string) :
  forall s : string,
    String.prefix m s = true ->
    s = m +:+ String.substring (String.length m)
                (String.length s - String.length m) s.
Proof.
  induction m as [|a m IH]; intros s H.
  - cbn [String.length]. now rewrite Nat.sub_0_r, substring_all.
  - destruct s as [|b s]; [discriminate H|].
    cbn [String.prefix] in H.
    destruct (ascii_dec a b) as [->|]; [|discriminate H].
    rewrite append_cons. cbn [String.length Nat.sub String.substring].
    f_equal. now apply IH.
Qed.

Lemma until_paren_sound (s : string) :
  forall p t : string,
    until_paren s = Some (p, t) ->
    paren_free p = true /\ s = p +:+ String ")" t.
Proof.
  induction s as [|a s IH]; intros p t H; [discriminate H|].
  cbn [until_paren] in H. destruct (Ascii.eqb a ")") eqn:Ea.
  - apply Ascii.eqb_eq in Ea as ->. inversion H; subst. now split.
  - destruct (until_paren s) as [[p' t']|]; [|discriminate H].
    inversion H; subst. destruct (IH p' t eq_refl) as [Hp ->].
    split; [cbn [paren_free]; now rewrite Ea | now rewrite append_cons].
Qed.

Lemma mc_run_command_tail (payload tail : string) :
  payload <> "" -> paren_free payload = true ->
  tail = "" \/ tail = nl ->
  mc_run_command ("(MC_RUN_COMMAND: " +:+ payload +:+ String ")" tail)
  = Some payload.
Proof.
  intros Hne Hfree Htail. unfold mc_run_command.
  rewrite prefix_append, substring_append.
  rewrite (until_paren_payload payload tail Hfree).
  destruct payload; [contradiction|].
  destruct Htail as [-> | ->]; reflexivity.
Qed.

(** X18: which mnemonics are handed to the controller raw.  A mnemonic
    yields a payload exactly when it is the characters (MC_RUN_COMMAND:
    and a blank, a payload that is not empty and has no closing
    parenthesis inside, and a closing parenthesis, with at most one line
    feed behind it; the payload is then the text in between, blanks
    included. *)
Theorem machine_command_shape (command payload : string) :
  mc_run_command command = Some payload <->
  payload <> "" /\ paren_free payload = true
  /\ (command = "(MC_RUN_COMMAND: " +:+ payload +:+ ")"
      \/ command = "(MC_RUN_COMMAND: " +:+ payload +:+ ")" +:+ nl).
Proof.
  split.
  - intros H. unfold mc_run_command in H.
    destruct (String.prefix "(MC_RUN_COMMAND: " command) eqn:Hp;
      [|discriminate H].
    apply prefix_split in Hp.
    destruct (until_paren _) as [[p t]|] eqn:Hu; [|discriminate H].
    apply until_paren_sound in Hu as [Hfree Hrest].
    destruct (negb (String.eqb p "") && (String.eqb t "" || String.eqb t nl))
      eqn:Hc; [|discriminate H].
    inversion H; subst p. clear H.
    apply andb_prop in Hc as [Hne Ht].
    apply negb_true_iff, String.eqb_neq in Hne.
    split; [exact Hne|]. split; [exact Hfree|].
    rewrite Hrest in Hp.
    apply orb_prop in Ht as [Ht | Ht]; apply String.eqb_eq in Ht;
      rewrite Ht in Hp; [left | right]; exact Hp.
  - intros (Hne & Hfree & [-> | ->]).
    + apply (mc_run_command_tail payload "" Hne Hfree). now left.
    + apply (mc_run_command_tail payload nl Hne Hfree). now right.
Qed.

(** X19: a ["message"] command with comments on.  The mnemonic is taken
    off the line and the words of the command go out alone (no line at
    all when there are none).  Under MODAL a ["message"] that follows a
    ["message"] has lost its mnemonic already: the loop then takes the
    first word off instead, and stops on an index error when there is no
    word. *)
Theorem message_command (fuel : nat) (lastcommand : option string)
    (c : Command) (out : pyout) (g : Globals) :
  Name c = "message" -> OUTPUT_COMMENTS cfg = true ->
  str_in (Name c) (SUPPRESS_COMMANDS cfg) = false ->
  let word_tokens := param_tokens py_str cfg g (Name c) (Parameters c) in
  let printed (l : list string) :=
    Ok (out_add out (render (track cfg c g) (emitted_line l)))
       (advance (length (emitted_line l)) (track cfg c g)) in
  parse_command py_str cfg fuel lastcommand c out g
  = if MODAL cfg && bool_decide (lastcommand = Some "message") then
      match word_tokens with
      | [] => Raise (IndexError "pop from empty list")
      | _ :: rest => printed rest
      end
    else printed word_tokens.
Proof.
  intros Hname Hon Hsup word_tokens printed.
  unfold parse_command. rewrite bind_get, bind_modify.
  unfold build_outstring. fold word_tokens. rewrite Hsup, Hon, Hname.
  change (is_drill_cycle "message") with false.
  change (is_spindle_start "message") with false.
  change (is_tool_change "message") with false.
  change (String.eqb "message" "message") with true.
  change (mc_run_command "message") with (@None string).
  rewrite !andb_false_r. cbn [negb]. subst printed. cbv beta.
  assert (Hprint : forall (l : list string) (g1 : Globals),
            (out0 <-
               match l with
               | [] => ret out
               | _ :: _ =>
                   n <- linenumber cfg ;;
                   ret (out_add out (n +:+ format_outstring l +:+ nl))
               end ;;
             ret out0) g1
            = Ok (out_add out (render g1 (emitted_line l)))
                 (advance (length (emitted_line l)) g1)).
  { intros l g1. destruct l as [|w ws]; cbn [emitted_line]; step; unfold ret;
      cbn [length render]; unfold advance; cbn [Nat.iter nat_rect];
      now rewrite ?out_add_nil, ?append_assoc, ?append_nil_r. }
  destruct (MODAL cfg); cbn [andb].
  - case_bool_decide; cbn [tl app].
    + destruct word_tokens as [|w ws]; step; [reflexivity|]. apply Hprint.
    + step. apply Hprint.
  - cbn [app]. step. apply Hprint.
Qed.

Lemma advance_modes (k : nat) (g : Globals) :
  DRILL_RETRACT_MODE (advance k g) = DRILL_RETRACT_MODE g
  /\ MOTION_MODE (advance k g) = MOTION_MODE g.
Proof.
  induction k as [|k [IH1 IH2]]; [split; reflexivity|].
  unfold advance in *. rewrite Nat.iter_succ. unfold bump at 1 3.
  destruct (OUTPUT_LINE_NUMBERS cfg); cbn; now split.
Qed.

Lemma track_retract_mode (c : Command) (g : Globals) :
  Name c = "G98" \/ Name c = "G99" ->
  DRILL_RETRACT_MODE (track cfg c g) = Name c.
Proof.
  intros H. unfold track.
  assert (E : str_in (Name c) ["G98"; "G99"] = true
              /\ str_in (Name c) ["G90"; "G91"] = false)
    by (destruct H as [-> | ->]; split; reflexivity).
  destruct E as [-> ->]. reflexivity.
Qed.

(** X20: a suppressed command is not dropped, it is turned into a
    comment: its tokens go out between two parentheses of their own, on
    one line, and the trackers see the command as they see any other.
    The retract mode of the drill cycles in particular is switched by a
    G98 or G99 that the output shows as a comment only. *)
Theorem suppressed_command (fuel : nat) (lastcommand : option string)
    (c : Command) (out : pyout) (g : Globals) :
  merely_suppressed (Name c) = true ->
  let tokens := build_outstring py_str cfg g lastcommand c in
  let line := format_outstring ("(" :: tokens ++ [")"]) +:+ nl in
  let g' := advance 1 (track cfg c g) in
  parse_command py_str cfg fuel lastcommand c out g
  = Ok (out_add out (render (track cfg c g) [line])) g'
  /\ comment_shaped line
  /\ (Forall plain_token tokens ->
      line = String.concat " " (["("] ++ tokens ++ [")"]) +:+ nl)
  /\ (Name c = "G98" \/ Name c = "G99" -> DRILL_RETRACT_MODE g' = Name c).
Proof.
  intros Hs tokens line g'. unfold merely_suppressed in Hs.
  repeat (apply andb_prop in Hs as [Hs ?]).
  repeat match goal with
         | H : negb _ = true |- _ => apply negb_true_iff in H
         end.
  split; [|split; [|split]].
  - unfold parse_command. rewrite bind_get, bind_modify.
    match goal with H : _ && is_drill_cycle _ = false |- _ => rewrite H end.
    step.
    match goal with H : _ && is_spindle_start _ = false |- _ => rewrite H end.
    step.
    match goal with H : is_tool_change _ = false |- _ => rewrite H end.
    step.
    match goal with H : String.eqb _ "message" = false |- _ => rewrite H end.
    step. rewrite Hs.
    destruct (mc_run_command (Name c)); [discriminate|].
    step. unfold ret. subst g' line tokens. now rewrite render_one.
  - apply (format_outstring_paren "").
  - intros Hplain. subst line. cbn [app].
    rewrite format_outstring_plain; [reflexivity|].
    constructor; [split; [discriminate | reflexivity]|].
    apply Forall_app. split; [exact Hplain|].
    constructor; [split; [discriminate | reflexivity] | constructor].
  - intros Hname. subst g'.
    rewrite (proj1 (advance_modes _ _)). now apply track_retract_mode.
Qed.

(** ** Further properties: the position memory *)

Lemma current_advance (a : axis) (k : nat) (g : Globals) :
  current a (advance k g) = current a g.
Proof.
  induction k as [|k IH]; [reflexivity|].
  unfold advance in *. rewrite Nat.iter_succ. unfold bump at 1.
  destruct (OUTPUT_LINE_NUMBERS cfg); [|exact IH].
  rewrite <- IH. now destruct a.
Qed.

Lemma current_track_seen (a : axis) (c : Command) (g : Globals) (v : Q) :
  str_in (Name c) (MOTION_COMMANDS cfg) = true ->
  Parameters c !! axis_letter a = Some v ->
  current a (track cfg c g) = v.
Proof.
  intros Hm Hv. unfold track. rewrite Hm.
  destruct a; cbn [axis_letter] in Hv; rewrite Hv;
    destruct (str_in (Name c) ["G98"; "G99"]),
             (str_in (Name c) ["G90"; "G91"]);
    repeat match goal with
           | |- context [Parameters c !! ?k] =>
               destruct (Parameters c !! k)
           end; reflexivity.
Qed.

Lemma current_track_unseen (a : axis) (c : Command) (g : Globals) :
  unseen a c -> current a (track cfg c g) = current a g.
Proof.
  intros Hu. unfold track.
  destruct (str_in (Name c) (MOTION_COMMANDS cfg)) eqn:Hm.
  - destruct Hu as [Hu | Hu]; [congruence|].
    destruct a; cbn [axis_letter] in Hu; rewrite Hu;
      destruct (str_in (Name c) ["G98"; "G99"]),
               (str_in (Name c) ["G90"; "G91"]);
      repeat match goal with
             | |- context [Parameters c !! ?k] =>
                 destruct (Parameters c !! k)
             end; reflexivity.
  - destruct (str_in (Name c) ["G98"; "G99"]),
             (str_in (Name c) ["G90"; "G91"]), a; reflexivity.
Qed.

Lemma current_tracked_unseen (a : axis) (cs : list Command) :
  Forall (unseen a) cs ->
  forall g : Globals, current a (tracked cs g) = current a g.
Proof.
  induction 1 as [|c cs Hc _ IH]; intros g; [reflexivity|].
  unfold tracked in *. cbn [fold_left].
  now rewrite IH, current_track_unseen.
Qed.

(** X21: what the position memory holds when [parse] returns.  For each
    axis it is the word of the last motion command that has a word for
    the axis, as written in the command: the motion mode plays no part,
    so an offset given in G91 mode is remembered as a position, and
    commands outside the motion set (an expanded drill cycle for one)
    leave the memory where it was.  With no such command the memory is
    what it was before. *)
Theorem position_memory (fuel : nat) (pathobj : PathObj) (out : pyout)
    (g g' : Globals) (a : axis) :
  parse py_str cfg fuel pathobj g = Ok out g' ->
  (forall (before after : list Command) (c : Command) (v : Q),
     commands_of pathobj = before ++ c :: after ->
     str_in (Name c) (MOTION_COMMANDS cfg) = true ->
     Parameters c !! axis_letter a = Some v ->
     Forall (unseen a) after ->
     current a g' = v)
  /\ (Forall (unseen a) (commands_of pathobj) -> current a g' = current a g).
Proof.
  intros H. apply parse_frame in H as [k ->]. rewrite current_advance.
  split.
  - intros before after c v -> Hm Hv Hafter.
    rewrite tracked_app. unfold tracked at 1. cbn [fold_left].
    fold (tracked after (track cfg c (tracked before g))).
    rewrite current_tracked_unseen by exact Hafter.
    now apply current_track_seen.
  - intros Hall. now apply current_tracked_unseen.
Qed.

(** X22: a translated drill cycle in the loop.  The expander works on
    the globals as the trackers of the cycle itself have left them, and
    what the loop adds for the command is the text of the expander and
    nothing of the command's own tokens; a suppressed mnemonic adds an
    empty comment behind the expansion. *)
Theorem translated_cycle_in_loop (fuel : nat) (lastcommand : option string)
    (c : Command) (out : pyout) (g g1 : Globals) (text : string) :
  TRANSLATE_DRILL_CYCLES cfg = true ->
  is_drill_cycle (Name c) = true ->
  drill_translate py_str cfg fuel
    (build_outstring py_str cfg g lastcommand c) (Name c) (Parameters c)
    (track cfg c g)
  = Ok text g1 ->
  parse_command py_str cfg fuel lastcommand c out g
  = Ok (out_add out (text +:+ render g1 (suppressed_lines (Name c))))
       (advance (length (suppressed_lines (Name c))) g1).
Proof. apply parse_command_translated. Qed.

(** ** Further properties: the whole output as numbered lines *)































End EmitterFacts.

(** * Concrete runs *)

(** An inverted cycle (R = -15 below Z = -10) leaves the diagnostic
    alone in the output and the globals as they were. *)
Lemma rejected_drill_cycle_witness :
  TRANSLATE_DRILL_CYCLES demo_cfg = true
  /\ is_drill_cycle (Name G83_inverted) = true
  /\ (-15 # 1 < -10 # 1)%Q
  /\ parse_commands demo_str demo_cfg 0 [G83_inverted] None (OutStr "")
       (demo_globals "G99" 20)
     = Ok (OutStr ("(drill cycle error: R less than Z )" +:+ nl))
          (demo_globals "G99" 20).
Proof.
  repeat (split; [reflexivity|]).
  pose proof (rejected_drill_cycle demo_str demo_cfg 0 None G83_inverted []
                (OutStr "") (demo_globals "G99" 20)
                1 2 (-10 # 1) (-15 # 1)
                eq_refl eq_refl eq_refl eq_refl eq_refl eq_refl eq_refl)
    as [_ H].
  vm_compute in H. vm_compute. exact H.
Defined.

(** A feed of zero on a linear move: no error, the line without F. *)
Lemma nonpositive_feed_counterexample :
  Parameters (G1_feed 0) !! "F" = Some 0%Q
  /\ (speed_as (UNIT_SPEED_FORMAT (demo_globals "G99" 20)) 0 <= 0)%Q
  /\ parse demo_str demo_cfg 0 (SimplePath "Profile" [G1_feed 0])
       (demo_globals "G99" 20)
     = Ok (OutStr ("G1 X1.000" +:+ nl))
          (set_CURRENT_X 1 (demo_globals "G99" 20)).
Proof.
  split; [reflexivity|]. split; [discriminate|].
  vm_compute. reflexivity.
Qed.

Lemma nonpositive_feed_witness :
  (PostProcessorBase.convertSpeed PostProcessorBase.METRIC (-5 # 1) <= 0)%Q
  /\ PostProcessorBase.formatParameter demo_str
       (Some PostProcessorBase.METRIC) "F" (-5 # 1)
       PostProcessorBase.Format.FEED
     = PostProcessorBase.Raises
         (PyException "Invalid value for feed rate: -5.0")
  /\ Parameters (G1_feed (-5 # 1)) !! "F" = Some (-5 # 1)%Q
  /\ (speed_as (UNIT_SPEED_FORMAT (demo_globals "G99" 20)) (-5 # 1) <= 0)%Q
  /\ param_tokens demo_str demo_cfg (demo_globals "G99" 20) "G1"
       (Parameters (G1_feed (-5 # 1)))
     = ["X1.000"]
  /\ TRANSLATE_DRILL_CYCLES demo_cfg = true
  /\ Parameters (G81_feed (-5 # 1)) !! "F" = Some (-5 # 1)%Q
  /\ parse_command demo_str demo_cfg 0 None (G81_feed (-5 # 1)) (OutStr "")
       (demo_globals "G99" 20)
     = Ok (OutStr ("G0 X1.000 Y2.000" +:+ nl
                   +:+ "G1 Z5.000 F-300.00" +:+ nl
                   +:+ "G1 Z-10.000 F-300.00" +:+ nl
                   +:+ "G0 Z5.000" +:+ nl))
          (demo_globals "G99" 20)
  /\ parse_command demo_str demo_cfg 0 None
       (mkCommand "G81" (delete "F" (Parameters (G81_feed (-5 # 1)))))
       (OutStr "") (demo_globals "G99" 20)
     = Raise (KeyError "F").
Proof.
  pose proof (nonpositive_feed demo_str demo_cfg (-5 # 1))
    as (Hclass & Hloop & Hcycle).
  assert (Hv : (PostProcessorBase.convertSpeed PostProcessorBase.METRIC
                  (-5 # 1) <= 0)%Q) by discriminate.
  assert (Hs : (speed_as (UNIT_SPEED_FORMAT (demo_globals "G99" 20))
                  (-5 # 1) <= 0)%Q) by discriminate.
  split; [exact Hv|]. split.
  { pose proof (Hclass PostProcessorBase.METRIC "F" Hv) as H.
    vm_compute in H. vm_compute. exact H. }
  split; [reflexivity|]. split; [exact Hs|]. split.
  { destruct (Hloop (G1_feed (-5 # 1)) (demo_globals "G99" 20) eq_refl Hs)
      as [H _].
    vm_compute in H. vm_compute. exact H. }
  split; [reflexivity|]. split; [reflexivity|].
  assert (Hzr : (-10 # 1 <= 5)%Q) by discriminate.
  pose proof (Hcycle 0%nat None (G81_feed (-5 # 1)) (OutStr "")
                (demo_globals "G99" 20) 1%Q 2%Q (-10 # 1)%Q 5%Q
                eq_refl eq_refl eq_refl eq_refl eq_refl eq_refl eq_refl Hzr)
    as [H1 H2].
  split.
  - vm_compute in H1. vm_compute. exact H1.
  - vm_compute in H2. vm_compute. exact H2.
Defined.

(** The peck cycle with Q = 0 from the retract height: the rapid to the
    hole and nothing else, where the plain cycle on the same words
    plunges and retracts. *)
Lemma peck_zero_step_counterexample :
  Parameters (G83_example 0) !! "Q" = Some 0%Q
  /\ drill_translate demo_str demo_cfg 0 [] "G83"
       (Parameters (G83_example 0)) (demo_globals "G99" 5)
     = Ok ("G0 X1.000 Y2.000" +:+ nl) (demo_globals "G99" 5)
  /\ drill_translate demo_str demo_cfg 0 [] "G81"
       (Parameters (G83_example 0)) (demo_globals "G99" 5)
     = Ok ("G0 X1.000 Y2.000" +:+ nl +:+ "G1 Z-10.000 F6000.00" +:+ nl
           +:+ "G0 Z5.000" +:+ nl)
          (demo_globals "G99" 5).
Proof. repeat split; vm_compute; reflexivity. Qed.

Lemma peck_zero_step_witness :
  Parameters (G83_example 0) !! "Q" = Some 0%Q
  /\ (-10 # 1 <= 5 # 1)%Q /\ (0 == 0)%Q
  /\ drill_translate demo_str demo_cfg 0 [] "G83"
       (Parameters (G83_example 0)) (demo_globals "G99" 20)
     = Ok ("G0 X1.000 Y2.000" +:+ nl +:+ "G1 Z5.000 F6000.00" +:+ nl)
          (demo_globals "G99" 20).
Proof.
  split; [reflexivity|]. split; [discriminate|]. split; [reflexivity|].
  pose proof (peck_zero_step demo_str demo_cfg 0 [] (Parameters (G83_example 0))
                (demo_globals "G99" 20) 1 2 (-10 # 1) (5 # 1) 100 0) as H.
  vm_compute in H. vm_compute. apply H; try reflexivity; discriminate.
Defined.



(** The plain cycle of the specification in both retract modes; the
    three lines that it is said to expand to come out in neither. *)
Lemma plain_drill_counterexample :
  drill_translate demo_str demo_cfg 0 [] "G81" (Parameters G81_example)
    (demo_globals "G99" 20)
  = Ok ("G0 X1.000 Y2.000" +:+ nl +:+ "G1 Z5.000 F6000.00" +:+ nl
        +:+ "G1 Z-10.000 F6000.00" +:+ nl +:+ "G0 Z5.000" +:+ nl)
       (demo_globals "G99" 20)
  /\ drill_translate demo_str demo_cfg 0 [] "G81" (Parameters G81_example)
       (demo_globals "G98" 20)
     = Ok ("G0 X1.000 Y2.000" +:+ nl +:+ "G1 Z-10.000 F6000.00" +:+ nl
           +:+ "G0 Z20.000" +:+ nl)
          (demo_globals "G98" 20)
  /\ forall mode : string,
       mode = "G98" \/ mode = "G99" ->
       drill_translate demo_str demo_cfg 0 [] "G81" (Parameters G81_example)
         (demo_globals mode 20)
       <> Ok ("G0 X1.000 Y2.000" +:+ nl +:+ "G1 Z-10.000 F6000.00" +:+ nl
              +:+ "G0 Z5.000" +:+ nl)
             (demo_globals mode 20).
Proof.
  split; [vm_compute; reflexivity|]. split; [vm_compute; reflexivity|].
  intros mode [-> | ->]; vm_compute; discriminate.
Qed.

Lemma plain_drill_example_witness :
  OUTPUT_COMMENTS demo_cfg = false
  /\ Parameters G81_example !! "Z" = Some (-10 # 1)%Q
  /\ Parameters G81_example !! "R" = Some (5 # 1)%Q
  /\ CURRENT_Z (demo_globals "G99" (20 # 1)) = (20 # 1)%Q
  /\ MOTION_MODE (demo_globals "G99" (20 # 1)) = "G90"
  /\ drill_translate demo_str demo_cfg 0 [] "G81" (Parameters G81_example)
       (demo_globals "G99" (20 # 1))
     = Ok ("G0 X1.000 Y2.000" +:+ nl +:+ "G1 Z5.000 F6000.00" +:+ nl
           +:+ "G1 Z-10.000 F6000.00" +:+ nl +:+ "G0 Z5.000" +:+ nl)
          (demo_globals "G99" (20 # 1)).
Proof.
  repeat (split; [reflexivity|]).
  pose proof (plain_drill_example demo_str demo_cfg 0 [] (Parameters G81_example)
                (demo_globals "G99" (20 # 1)) 1 2 100
                eq_refl eq_refl eq_refl eq_refl eq_refl eq_refl eq_refl eq_refl)
    as H.
  vm_compute in H. vm_compute. exact H.
Defined.

(** Two plain drill cycles in a row with the translation of drill cycles
    on.  With MODAL off the lines of the second cycle do not have its
    mnemonic; with MODAL on they are not its parameters.  Both outputs
    are the same six lines. *)
Lemma modal_suppression_counterexample :
  Name G81_example = "G81"
  /\ MODAL demo_cfg = false /\ MODAL modal_cfg = true
  /\ forall cfg : Config,
       cfg = demo_cfg \/ cfg = modal_cfg ->
       parse_commands demo_str cfg 0 [G81_example; G81_example] None
         (OutStr "") (demo_globals "G99" 5)
       = Ok (OutStr ("G0 X1.000 Y2.000" +:+ nl
                     +:+ "G1 Z-10.000 F6000.00" +:+ nl
                     +:+ "G0 Z5.000" +:+ nl
                     +:+ "G0 X1.000 Y2.000" +:+ nl
                     +:+ "G1 Z-10.000 F6000.00" +:+ nl
                     +:+ "G0 Z5.000" +:+ nl))
            (demo_globals "G99" 5).
Proof.
  repeat (split; [reflexivity|]).
  intros cfg [->| ->]; vm_compute; reflexivity.
Qed.

(** Two linear moves in a row: with MODAL the second line has lost its
    mnemonic. *)
Lemma modal_suppression_witness :
  Name (G1_feed 5) = Name (G1_feed 7)
  /\ ordinary modal_cfg (Name (G1_feed 7)) = true
  /\ parse_commands demo_str modal_cfg 0 [G1_feed 5; G1_feed 7] None
       (OutStr "") (demo_globals "G99" 20)
     = Ok (OutStr ("G1 X1.000 F300.000" +:+ nl +:+ "X1.000 F420.000" +:+ nl))
          (set_CURRENT_X 1 (demo_globals "G99" 20)).
Proof.
  repeat (split; [reflexivity|]).
  pose proof (proj2 (modal_suppression demo_str modal_cfg 0 None
                       (G1_feed 5) (G1_feed 7) [] (OutStr "")
                       (demo_globals "G99" 20) eq_refl) eq_refl) as H.
  vm_compute in H. vm_compute. exact H.
Defined.

(** First commands that come out without their mnemonic: a plain drill
    cycle with the translation of drill cycles on, and a message with
    comments on. *)
Lemma first_command_counterexample :
  Name G81_example = "G81"
  /\ parse demo_str modal_cfg 0 (SimplePath "Drilling" [G81_example])
       (demo_globals "G99" 5)
     = Ok (OutStr ("G0 X1.000 Y2.000" +:+ nl
                   +:+ "G1 Z-10.000 F6000.00" +:+ nl
                   +:+ "G0 Z5.000" +:+ nl))
          (demo_globals "G99" 5)
  /\ Name message_example = "message"
  /\ parse demo_str comments_cfg 0 (SimplePath "Note" [message_example])
       (demo_globals "G99" 5)
     = Ok (OutStr ("(Path: Note)" +:+ nl +:+ "P1.0" +:+ nl))
          (demo_globals "G99" 5).
Proof.
  split; [reflexivity|]. split; [vm_compute; reflexivity|].
  split; [reflexivity|]. vm_compute. reflexivity.
Qed.

(** The first command of a path after a path that ended on the same
    mnemonic: with MODAL the line still has its mnemonic. *)
Lemma first_command_keeps_mnemonic_witness :
  ordinary modal_cfg (Name (G1_feed 7)) = true
  /\ parse demo_str modal_cfg 0 (SimplePath "Profile" [G1_feed 5])
       (demo_globals "G99" 20)
     = Ok (OutStr ("G1 X1.000 F300.000" +:+ nl))
          (set_CURRENT_X 1 (demo_globals "G99" 20))
  /\ parse demo_str modal_cfg 0 (SimplePath "Pocket" [G1_feed 7])
       (set_CURRENT_X 1 (demo_globals "G99" 20))
     = Ok (OutStr ("G1 X1.000 F420.000" +:+ nl))
          (set_CURRENT_X 1 (demo_globals "G99" 20)).
Proof.
  split; [reflexivity|]. split; [vm_compute; reflexivity|].
  pose proof (proj2 (first_command_keeps_mnemonic demo_str modal_cfg 0
                       "Pocket" (G1_feed 7) []
                       (set_CURRENT_X 1 (demo_globals "G99" 20)))
                eq_refl) as H.
  vm_compute in H. vm_compute. exact H.
Defined.

(** A rapid move with a feed: the line has no F. *)
Lemma rapid_move_drops_feed_witness :
  str_in (Name (G0_feed 5)) (RAPID_MOVES demo_cfg) = true
  /\ param_tokens demo_str demo_cfg (demo_globals "G99" 20) "G0"
       (Parameters (G0_feed 5))
     = ["X1.000"]
  /\ parse demo_str demo_cfg 0 (SimplePath "Profile" [G0_feed 5])
       (demo_globals "G99" 20)
     = Ok (OutStr ("G0 X1.000" +:+ nl))
          (set_CURRENT_X 1 (demo_globals "G99" 20)).
Proof.
  split; [reflexivity|].
  destruct (rapid_move_drops_feed demo_str demo_cfg (G0_feed 5)
              (demo_globals "G99" 20) eq_refl) as (H & _ & _).
  split; [|vm_compute; reflexivity].
  vm_compute in H. vm_compute. exact H.
Defined.



(** A drill cycle without its X word: the export stops on a key error
    that carries the letter and neither the mnemonic nor the label of
    the operation. *)
Lemma key_error_counterexample :
  parse demo_str demo_cfg 0 (SimplePath "Drilling" [G81_without_X])
    (demo_globals "G99" 20)
  = Raise (KeyError "X")
  /\ exn_text (KeyError "X") = "X"
  /\ Py.contains "G81" (exn_text (KeyError "X")) = false
  /\ Py.contains "Drilling" (exn_text (KeyError "X")) = false.
Proof. repeat split; vm_compute; reflexivity. Qed.

Lemma errors_reach_the_caller_witness :
  parse demo_str demo_cfg 0 (SimplePath "Drilling" [G1_feed 5])
    (demo_globals "G99" 20)
  = Ok (OutStr ("G1 X1.000 F300.000" +:+ nl))
       (set_CURRENT_X 1 (demo_globals "G99" 20))
  /\ parse_command demo_str demo_cfg 0 (last_command None [G1_feed 5])
       G81_without_X (OutStr ("G1 X1.000 F300.000" +:+ nl))
       (set_CURRENT_X 1 (demo_globals "G99" 20))
     = Raise (KeyError "X")
  /\ parse demo_str demo_cfg 0
       (SimplePath "Drilling" [G1_feed 5; G81_without_X; G1_feed 7])
       (demo_globals "G99" 20)
     = Raise (KeyError "X")
  /\ parse demo_str demo_cfg 0
       (Compound "Job"
          [SimplePath "Drilling" [G1_feed 5; G81_without_X; G1_feed 7];
           SimplePath "Profile" [G1_feed 7]])
       (demo_globals "G99" 20)
     = Raise (KeyError "X")
  /\ drill_translate demo_str demo_cfg 0 [] "G73" (Parameters G81_example)
       (demo_globals "G99" 20)
     = Ok ("G0 X1.000 Y2.000" +:+ nl +:+ "G1 Z5.000 F6000.00" +:+ nl)
          (demo_globals "G99" 20).
Proof.
  assert (H1 : parse demo_str demo_cfg 0 (SimplePath "Drilling" [G1_feed 5])
                 (demo_globals "G99" 20)
               = Ok (OutStr ("G1 X1.000 F300.000" +:+ nl))
                    (set_CURRENT_X 1 (demo_globals "G99" 20)))
    by (vm_compute; reflexivity).
  assert (H2 : parse_command demo_str demo_cfg 0
                 (last_command None [G1_feed 5]) G81_without_X
                 (OutStr ("G1 X1.000 F300.000" +:+ nl))
                 (set_CURRENT_X 1 (demo_globals "G99" 20))
               = Raise (KeyError "X"))
    by (vm_compute; reflexivity).
  split; [exact H1|]. split; [exact H2|].
  pose proof (errors_reach_the_caller demo_str demo_cfg 0 "Drilling"
                [G1_feed 5] G81_without_X [G1_feed 7]
                (demo_globals "G99" 20)
                (set_CURRENT_X 1 (demo_globals "G99" 20))
                (OutStr ("G1 X1.000 F300.000" +:+ nl))
                (KeyError "X") H1 H2) as (Hpath & Hgroup & Hpass).
  split; [exact Hpath|]. split.
  - apply (Hgroup "Job" [] [SimplePath "Profile" [G1_feed 7]]
             (demo_globals "G99" 20) (OutStr "")).
    vm_compute. reflexivity.
  - assert (Hzr : (-10 # 1 <= 5 # 1)%Q) by discriminate.
    assert (Hc : OUTPUT_COMMENTS demo_cfg = true -> @nil string <> [])
      by discriminate.
    destruct (Hpass [] "G73" (Parameters G81_example)
                (demo_globals "G99" 20) 1%Q 2%Q (-10 # 1)%Q (5 # 1)%Q 100%Q
                Hc eq_refl eq_refl eq_refl eq_refl eq_refl Hzr
                eq_refl eq_refl) as [_ H].
    vm_compute in H. vm_compute. exact H.
Defined.

(** ** Concrete runs of the further properties *)

(** Three tokens of a linear move. *)
Lemma format_outstring_joins_witness :
  Forall plain_token ["G1"; "X1.000"; "F300.000"]
  /\ format_outstring ["G1"; "X1.000"; "F300.000"] = "G1 X1.000 F300.000".
Proof.
  assert (H : Forall plain_token ["G1"; "X1.000"; "F300.000"])
    by (repeat (constructor; [split; [discriminate | reflexivity]|]);
        constructor).
  split; [exact H|].
  pose proof (format_outstring_joins _ H) as E.
  vm_compute in E. vm_compute. exact E.
Defined.

(** A tool length offset H on a linear move. *)
Lemma unlisted_parameter_ignored_witness :
  ~ In "H" params
  /\ param_tokens demo_str demo_cfg (demo_globals "G99" 20) "G1"
       (<["H" := 5%Q]> (Parameters (G1_feed 5)))
     = ["X1.000"; "F300.000"].
Proof.
  assert (H : ~ In "H" params) by (cbn; intuition discriminate).
  split; [exact H|].
  pose proof (unlisted_parameter_ignored demo_str demo_cfg
                (demo_globals "G99" 20) "G1" (Parameters (G1_feed 5))
                "H" 5 H) as E.
  vm_compute in E. vm_compute. exact E.
Defined.

(** A feed of 5 mm/s on a linear move, printed per minute. *)
Lemma feed_word_rule_witness :
  Parameters (G1_feed 5) !! "F" = Some 5%Q
  /\ param_token demo_str demo_cfg (demo_globals "G99" 20) "G1"
       (Parameters (G1_feed 5)) "F"
     = ["F300.000"].
Proof.
  split; [reflexivity|].
  pose proof (feed_word_rule demo_str demo_cfg (demo_globals "G99" 20) "G1"
                (Parameters (G1_feed 5)) 5 eq_refl) as E.
  vm_compute in E. vm_compute. exact E.
Defined.

(** Discharges the hypotheses of a statement taken at a concrete input
    by evaluation. *)
Ltac discharge H :=
  cbv zeta in H;
  repeat match type of H with
         | ?A -> _ =>
             let a := fresh in
             assert (a : A) by (first [reflexivity | discriminate | lia]);
             specialize (H a); clear a
         end.

(** The dwell cycle on the hole of the examples with a pause of two
    seconds, from Z20. *)
Lemma dwell_cycle_expansion_witness :
  Parameters (G82_example 2) !! "P" = Some 2%Q
  /\ (-10 # 1 <= 5 # 1)%Q
  /\ drill_translate demo_str demo_cfg 0 [] "G82"
       (Parameters (G82_example 2)) (demo_globals "G99" 20)
     = Ok ("G0 X1.000 Y2.000" +:+ nl +:+ "G1 Z5.000 F6000.00" +:+ nl
           +:+ "G1 Z-10.000 F6000.00" +:+ nl +:+ "G4 P2.0" +:+ nl
           +:+ "G0 Z5.000" +:+ nl)
          (demo_globals "G99" 20).
Proof.
  split; [reflexivity|]. split; [discriminate|].
  pose proof (dwell_cycle_expansion demo_str demo_cfg 0 []
                (Parameters (G82_example 2)) (demo_globals "G99" 20)
                1 2 (-10 # 1) (5 # 1) 100 2) as H.
  vm_compute in H. vm_compute. apply H; try reflexivity; discriminate.
Defined.

(** The peck cycle of the examples with the step -3: no amount of fuel
    brings the loop to its end. *)
Lemma negative_peck_step_diverges_witness :
  Parameters (G83_example (-3 # 1)) !! "Q" = Some (-3 # 1)%Q
  /\ (-10 # 1 <= 5 # 1)%Q /\ (-3 # 1 < 0)%Q
  /\ step_away (retract_height (demo_globals "G99" 20) (5 # 1)) (-3 # 1)
  /\ forall fuel : nat,
       drill_translate demo_str demo_cfg fuel [] "G83"
         (Parameters (G83_example (-3 # 1))) (demo_globals "G99" 20)
       = Diverge.
Proof.
  assert (Haway : step_away
                    (retract_height (demo_globals "G99" 20) (5 # 1))
                    (-3 # 1))
    by (vm_compute; reflexivity).
  split; [reflexivity|]. split; [discriminate|]. split; [reflexivity|].
  split; [exact Haway|].
  intros fuel.
  apply (negative_peck_step_diverges demo_str demo_cfg fuel []
           (Parameters (G83_example (-3 # 1))) (demo_globals "G99" 20)
           1 2 (-10 # 1) (5 # 1) 100 (-3 # 1));
    first [exact Haway | reflexivity | discriminate].
Defined.


(** Steps of 4 from the retract height 5 down to -10: three stops, at 1,
    -3 and -7, and eleven lines. *)
Lemma peck_stops_count_witness :
  (0 < 4)%Q /\ (-10 # 1 <= 5)%Q /\ step_felt 5 (-10 # 1) 4
  /\ stops_valid (-10 # 1) 4 5 3
  /\ peck_loop demo_cfg 5 (fmt_len demo_cfg (demo_globals "G99" 20))
       5 (-10 # 1) 4 (2 # 10) ("G0 Z5.000" +:+ nl) (" F6000.00" +:+ nl)
       5 "" (demo_globals "G99" 20)
     = Ok ("G1 Z1.000 F6000.00" +:+ nl +:+ "G0 Z5.000" +:+ nl
           +:+ "G0 Z1.200" +:+ nl
           +:+ "G1 Z-3.000 F6000.00" +:+ nl +:+ "G0 Z5.000" +:+ nl
           +:+ "G0 Z-2.800" +:+ nl
           +:+ "G1 Z-7.000 F6000.00" +:+ nl +:+ "G0 Z5.000" +:+ nl
           +:+ "G0 Z-6.800" +:+ nl
           +:+ "G1 Z-10.000 F6000.00" +:+ nl +:+ "G0 Z5.000" +:+ nl)
          (demo_globals "G99" 20)
  /\ length (stops_from 4 5 3) = 3%nat.
Proof.
  assert (Hq : (0 < 4)%Q) by reflexivity.
  assert (Hdr : (-10 # 1 <= 5)%Q) by discriminate.
  assert (Hfelt : step_felt 5 (-10 # 1) 4) by (vm_compute; discriminate).
  assert (Hv : stops_valid (-10 # 1) 4 5 3)
    by (cbn [stops_valid]; repeat split;
        first [vm_compute; reflexivity | vm_compute; discriminate]).
  assert (Hfuel : (3 < 5)%nat) by lia.
  do 4 (split; [assumption|]).
  pose proof (peck_stops_count demo_cfg
                (fmt_len demo_cfg (demo_globals "G99" 20))
                5 (-10 # 1) 4 (2 # 10) ("G0 Z5.000" +:+ nl)
                (" F6000.00" +:+ nl) 3 5 "" (demo_globals "G99" 20)
                Hq Hdr Hfelt Hv Hfuel) as H.
  cbv zeta in H. destruct H as (Hrun & _ & Hstops & _).
  split; [|exact Hstops].
  vm_compute in Hrun. vm_compute. exact Hrun.
Defined.

(** Steps of 0.1 from 1 down to 0: the binary64 sequence has ten terms
    above 0, the last one a rounding residue, where the exact multiples
    have nine. *)
Lemma ten_stops_of_a_tenth :
  stops_valid 0 (Py.round64 (1 # 10)) 1 10
  /\ (0 < nth 9 (stops_from (Py.round64 (1 # 10)) 1 10) 0)%Q
  /\ (nth 9 (stops_from (Py.round64 (1 # 10)) 1 10) 0
      < 1 # 1000000000000000)%Q.
Proof.
  split; [|split; vm_compute; reflexivity].
  cbn [stops_valid].
  repeat split; first [vm_compute; reflexivity | vm_compute; discriminate].
Qed.

(** The plain cycle of the examples in G98 mode from Z20: no feed down
    to R5, the retract to Z20. *)
Lemma g98_plain_cycle_witness :
  DRILL_RETRACT_MODE (demo_globals "G98" 20) = "G98"
  /\ (-10 # 1 <= 5 # 1)%Q
  /\ drill_translate demo_str demo_cfg 0 [] "G81" (Parameters G81_example)
       (demo_globals "G98" 20)
     = Ok ("G0 X1.000 Y2.000" +:+ nl +:+ "G1 Z-10.000 F6000.00" +:+ nl
           +:+ "G0 Z20.000" +:+ nl)
          (demo_globals "G98" 20).
Proof.
  split; [reflexivity|]. split; [discriminate|].
  pose proof (g98_plain_cycle demo_str demo_cfg 0 [] (Parameters G81_example)
                (demo_globals "G98" 20) 1 2 (-10 # 1) (5 # 1) 100) as H.
  discharge H. destruct H as (_ & _ & H).
  vm_compute in H. vm_compute. exact H.
Defined.


(** The cycle without X: the key error of X. *)
Lemma drill_cycle_missing_geometry_witness :
  OUTPUT_COMMENTS demo_cfg = false
  /\ first_missing (Parameters G81_without_X) ["X"; "Y"; "Z"; "R"] = Some "X"
  /\ drill_translate demo_str demo_cfg 0 ["G81"] "G81"
       (Parameters G81_without_X) (demo_globals "G99" 20)
     = Raise (KeyError "X").
Proof.
  split; [reflexivity|]. split; [reflexivity|].
  apply (drill_cycle_missing_geometry demo_str demo_cfg 0 ["G81"] "G81"
           (Parameters G81_without_X) (demo_globals "G99" 20) "X");
    [discriminate | reflexivity].
Defined.

(** A peck cycle on the words of the plain cycle: the key error of Q. *)
Lemma drill_cycle_missing_word_witness :
  (-10 # 1 <= 5 # 1)%Q
  /\ first_missing (Parameters G81_example) (cycle_words "G83") = Some "Q"
  /\ drill_translate demo_str demo_cfg 0 ["G83"] "G83"
       (Parameters G81_example) (demo_globals "G99" 20)
     = Raise (KeyError "Q").
Proof.
  split; [discriminate|]. split; [reflexivity|].
  apply (drill_cycle_missing_word demo_str demo_cfg 0 ["G83"] "G83"
           (Parameters G81_example) (demo_globals "G99" 20)
           1 2 (-10 # 1) (5 # 1) "Q");
    try reflexivity; discriminate.
Defined.

(** A compound of a path with a linear move and a plain cycle, and of a
    thing that is no path, with line numbers: X is the tracked one, the
    counter has advanced by five lines, the units are as before. *)
Lemma parse_touches_trackers_only_witness :
  parse demo_str numbered_cfg 0
    (Compound "Job" [SimplePath "Drill" [G1_feed 5; G81_example]; NotAPath])
    (demo_globals "G99" 20)
  = Ok (OutStr ("N100 G1 X1.000 F300.000" +:+ nl
                +:+ "N110 G0 X1.000 Y2.000" +:+ nl
                +:+ "N120 G1 Z5.000 F6000.00" +:+ nl
                +:+ "N130 G1 Z-10.000 F6000.00" +:+ nl
                +:+ "N140 G0 Z5.000" +:+ nl))
       (set_LINENR 150 (set_CURRENT_X 1 (demo_globals "G99" 20)))
  /\ exists k : nat,
       set_LINENR 150 (set_CURRENT_X 1 (demo_globals "G99" 20))
       = advance numbered_cfg k
           (tracked numbered_cfg [G1_feed 5; G81_example]
              (demo_globals "G99" 20)).
Proof.
  assert (H : parse demo_str numbered_cfg 0
                (Compound "Job"
                   [SimplePath "Drill" [G1_feed 5; G81_example]; NotAPath])
                (demo_globals "G99" 20)
              = Ok (OutStr ("N100 G1 X1.000 F300.000" +:+ nl
                            +:+ "N110 G0 X1.000 Y2.000" +:+ nl
                            +:+ "N120 G1 Z5.000 F6000.00" +:+ nl
                            +:+ "N130 G1 Z-10.000 F6000.00" +:+ nl
                            +:+ "N140 G0 Z5.000" +:+ nl))
                   (set_LINENR 150 (set_CURRENT_X 1 (demo_globals "G99" 20))))
    by (vm_compute; reflexivity).
  split; [exact H|].
  exact (proj1 (parse_touches_trackers_only demo_str numbered_cfg 0 _ _ _ _ H)).
Defined.

(** Two linear moves behind a line that is already there. *)
Lemma output_only_grows_witness :
  Forall (fun c => Name c <> "message") [G1_feed 5; G1_feed 7]
  /\ parse_commands demo_str demo_cfg 0 [G1_feed 5; G1_feed 7] None
       (OutStr ("G21" +:+ nl)) (demo_globals "G99" 20)
     = Ok (OutStr ("G21" +:+ nl +:+ "G1 X1.000 F300.000" +:+ nl
                   +:+ "G1 X1.000 F420.000" +:+ nl))
          (set_CURRENT_X 1 (demo_globals "G99" 20))
  /\ exists text : string,
       OutStr ("G21" +:+ nl +:+ "G1 X1.000 F300.000" +:+ nl
               +:+ "G1 X1.000 F420.000" +:+ nl)
       = out_add (OutStr ("G21" +:+ nl)) text.
Proof.
  assert (HF : Forall (fun c => Name c <> "message") [G1_feed 5; G1_feed 7])
    by (repeat (constructor; [discriminate|]); constructor).
  assert (Hrun : parse_commands demo_str demo_cfg 0 [G1_feed 5; G1_feed 7]
                   None (OutStr ("G21" +:+ nl)) (demo_globals "G99" 20)
                 = Ok (OutStr ("G21" +:+ nl +:+ "G1 X1.000 F300.000" +:+ nl
                               +:+ "G1 X1.000 F420.000" +:+ nl))
                      (set_CURRENT_X 1 (demo_globals "G99" 20)))
    by (vm_compute; reflexivity).
  split; [exact HF|]. split; [exact Hrun|].
  exact (proj1 (output_only_grows demo_str demo_cfg 0 "Profile"
                  [G1_feed 5; G1_feed 7] None (OutStr ("G21" +:+ nl)) _
                  (demo_globals "G99" 20) _ (or_intror HF)) Hrun).
Defined.

(** A message between two moves, comments off: the line of the first
    move is gone, the message is printed as a command, the result is a
    list, and the compound around the path stops on a type error. *)
Lemma message_without_comments_witness :
  OUTPUT_COMMENTS demo_cfg = false
  /\ In message_example [G1_feed 5; message_example; G1_feed 7]
  /\ parse demo_str demo_cfg 0 (SimplePath "Op" [G1_feed 5])
       (demo_globals "G99" 20)
     = Ok (OutStr ("G1 X1.000 F300.000" +:+ nl))
          (set_CURRENT_X 1 (demo_globals "G99" 20))
  /\ parse demo_str demo_cfg 0
       (SimplePath "Op" [G1_feed 5; message_example; G1_feed 7])
       (demo_globals "G99" 20)
     = Ok (OutList ("message P1.0" +:+ nl +:+ "G1 X1.000 F420.000" +:+ nl))
          (set_CURRENT_X 1 (demo_globals "G99" 20))
  /\ parse demo_str demo_cfg 0
       (Compound "Job"
          [SimplePath "Op" [G1_feed 5; message_example; G1_feed 7]])
       (demo_globals "G99" 20)
     = Raise (TypeError "can only concatenate str (not list) to str")
  /\ forall (out : pyout) (g' : Globals),
       parse demo_str demo_cfg 0
         (Compound "Job"
            [SimplePath "Op" [G1_feed 5; message_example; G1_feed 7]])
         (demo_globals "G99" 20)
       <> Ok out g'.
Proof.
  assert (Hin : In message_example [G1_feed 5; message_example; G1_feed 7])
    by (right; left; reflexivity).
  destruct (message_without_comments demo_str demo_cfg 0 "Op"
              [G1_feed 5; message_example; G1_feed 7] message_example
              eq_refl Hin eq_refl) as (Hlost & _ & Hgroup).
  split; [reflexivity|]. split; [exact Hin|].
  split; [vm_compute; reflexivity|]. split.
  { rewrite (Hlost [G1_feed 5] [G1_feed 7] (demo_globals "G99" 20) eq_refl).
    vm_compute. reflexivity. }
  split; [vm_compute; reflexivity|].
  intros out g'. apply Hgroup. left. reflexivity.
Defined.

(** M3 S12000 with a wait of two seconds. *)
Lemma spindle_start_wait_witness :
  (0 < SPINDLE_WAIT spindle_cfg)%Q
  /\ is_spindle_start (Name M3_example) = true
  /\ parse_command demo_str spindle_cfg 0 None M3_example (OutStr "")
       (demo_globals "G99" 20)
     = Ok (OutStr ("M3 S12000" +:+ nl +:+ "G4 P2.0" +:+ nl))
          (demo_globals "G99" 20).
Proof.
  split; [reflexivity|]. split; [reflexivity|].
  pose proof (spindle_start_wait demo_str spindle_cfg 0 None M3_example
                (OutStr "") (demo_globals "G99" 20) eq_refl eq_refl) as H.
  vm_compute in H. vm_compute. exact H.
Defined.

(** M6 T2 with a block whose last line has no terminator: the command
    follows on the same line. *)
Lemma tool_change_block_witness :
  is_tool_change (Name M6_example) = true
  /\ str_in (Name M6_example) (SUPPRESS_COMMANDS toolchange_cfg) = false
  /\ parse_command demo_str toolchange_cfg 0 None M6_example (OutStr "")
       (demo_globals "G99" 20)
     = Ok (OutStr ("M5" +:+ nl +:+ "G28M6 T2" +:+ nl))
          (demo_globals "G99" 20).
Proof.
  split; [reflexivity|]. split; [reflexivity|].
  pose proof (tool_change_block demo_str toolchange_cfg 0 None M6_example
                (OutStr "") (demo_globals "G99" 20) eq_refl eq_refl) as H.
  vm_compute in H. vm_compute. exact H.
Defined.

(** The same block through the line loop. *)
Lemma text_block_verbatim_witness :
  OUTPUT_LINE_NUMBERS demo_cfg = false
  /\ emit_block demo_cfg (Py.splitlines ("M5" +:+ nl +:+ "G28")) (OutStr "")
       (demo_globals "G99" 20)
     = Ok (OutStr ("M5" +:+ nl +:+ "G28")) (demo_globals "G99" 20).
Proof.
  split; [reflexivity|].
  exact (text_block_verbatim demo_cfg ("M5" +:+ nl +:+ "G28") (OutStr "")
           (demo_globals "G99" 20) eq_refl).
Defined.

(** A coolant command for the controller. *)
Lemma machine_command_passthrough_witness :
  Name coolant_comment = "(MC_RUN_COMMAND: " +:+ "M8 P1" +:+ ")"
  /\ paren_free "M8 P1" = true
  /\ parse_command demo_str demo_cfg 0 None coolant_comment (OutStr "")
       (demo_globals "G99" 20)
     = Ok (OutStr ("(MC_RUN_COMMAND: M8 P1)" +:+ nl +:+ "M8 P1" +:+ nl))
          (demo_globals "G99" 20).
Proof.
  split; [reflexivity|]. split; [reflexivity|].
  pose proof (machine_command_passthrough demo_str demo_cfg 0 None
                coolant_comment "M8 P1" (OutStr "") (demo_globals "G99" 20)
                eq_refl) as H.
  discharge H. vm_compute in H. vm_compute. exact H.
Defined.

(** A message with one word: the word alone; a second message without
    words under MODAL: the index error. *)
Lemma message_command_witness :
  OUTPUT_COMMENTS comments_cfg = true
  /\ parse_command demo_str comments_cfg 0 None message_example (OutStr "")
       (demo_globals "G99" 20)
     = Ok (OutStr ("P1.0" +:+ nl)) (demo_globals "G99" 20)
  /\ parse_command demo_str comments_cfg 0 (Some "message") bare_message
       (OutStr "") (demo_globals "G99" 20)
     = Raise (IndexError "pop from empty list").
Proof.
  split; [reflexivity|]. split.
  - pose proof (message_command demo_str comments_cfg 0 None message_example
                  (OutStr "") (demo_globals "G99" 20)
                  eq_refl eq_refl eq_refl) as H.
    vm_compute in H. vm_compute. exact H.
  - pose proof (message_command demo_str comments_cfg 0 (Some "message")
                  bare_message (OutStr "") (demo_globals "G99" 20)
                  eq_refl eq_refl eq_refl) as H.
    vm_compute in H. vm_compute. exact H.
Defined.

(** G98 with the suppressed set of the translated cycles: a comment in
    the output, the retract mode switched. *)
Lemma suppressed_command_witness :
  merely_suppressed demo_cfg (Name G98_example) = true
  /\ parse_command demo_str demo_cfg 0 None G98_example (OutStr "")
       (demo_globals "G99" 20)
     = Ok (OutStr ("( G98 )" +:+ nl)) (demo_globals "G98" 20)
  /\ DRILL_RETRACT_MODE (advance demo_cfg 1
                           (track demo_cfg G98_example (demo_globals "G99" 20)))
     = "G98".
Proof.
  split; [reflexivity|].
  destruct (suppressed_command demo_str demo_cfg 0 None G98_example
              (OutStr "") (demo_globals "G99" 20) eq_refl)
    as (H & _ & _ & Hmode).
  split.
  - vm_compute in H. vm_compute. exact H.
  - apply Hmode. left. reflexivity.
Defined.

(** A move to Z-2, a plain cycle down to Z-10 and back to Z5, a move in
    X: the memory of Z holds -2. *)
Lemma position_memory_witness :
  parse demo_str demo_cfg 0
    (SimplePath "Op" [G1_to 3 (-2 # 1); G81_example; G1_feed 7])
    (demo_globals "G99" 20)
  = Ok (OutStr ("G1 X3.000 Z-2.000" +:+ nl +:+ "G0 Z5.000" +:+ nl
                +:+ "G0 X1.000 Y2.000" +:+ nl
                +:+ "G1 Z-10.000 F6000.00" +:+ nl +:+ "G0 Z5.000" +:+ nl
                +:+ "G1 X1.000 F420.000" +:+ nl))
       (set_CURRENT_Z (-2 # 1) (set_CURRENT_X 1 (demo_globals "G99" 20)))
  /\ Forall (unseen demo_cfg axis_Z) [G81_example; G1_feed 7]
  /\ current axis_Z
       (set_CURRENT_Z (-2 # 1) (set_CURRENT_X 1 (demo_globals "G99" 20)))
     = (-2 # 1)%Q.
Proof.
  assert (Hrun : parse demo_str demo_cfg 0
                   (SimplePath "Op" [G1_to 3 (-2 # 1); G81_example; G1_feed 7])
                   (demo_globals "G99" 20)
                 = Ok (OutStr ("G1 X3.000 Z-2.000" +:+ nl
                               +:+ "G0 Z5.000" +:+ nl
                               +:+ "G0 X1.000 Y2.000" +:+ nl
                               +:+ "G1 Z-10.000 F6000.00" +:+ nl
                               +:+ "G0 Z5.000" +:+ nl
                               +:+ "G1 X1.000 F420.000" +:+ nl))
                      (set_CURRENT_Z (-2 # 1)
                         (set_CURRENT_X 1 (demo_globals "G99" 20))))
    by (vm_compute; reflexivity).
  assert (Hafter : Forall (unseen demo_cfg axis_Z) [G81_example; G1_feed 7])
    by (constructor; [left; reflexivity|];
        constructor; [right; reflexivity | constructor]).
  split; [exact Hrun|]. split; [exact Hafter|].
  exact (proj1 (position_memory demo_str demo_cfg 0 _ _ _ _ axis_Z Hrun)
           [] [G81_example; G1_feed 7] (G1_to 3 (-2 # 1)) (-2 # 1)
           eq_refl eq_refl eq_refl Hafter).
Defined.

(** The plain cycle of the examples in the loop: the four lines of the
    expansion and no G81. *)
Lemma translated_cycle_in_loop_witness :
  TRANSLATE_DRILL_CYCLES demo_cfg = true
  /\ is_drill_cycle (Name G81_example) = true
  /\ parse_command demo_str demo_cfg 0 None G81_example (OutStr "")
       (demo_globals "G99" 20)
     = Ok (OutStr ("G0 X1.000 Y2.000" +:+ nl +:+ "G1 Z5.000 F6000.00" +:+ nl
                   +:+ "G1 Z-10.000 F6000.00" +:+ nl +:+ "G0 Z5.000" +:+ nl))
          (demo_globals "G99" 20).
Proof.
  split; [reflexivity|]. split; [reflexivity|].
  assert (Hrun : drill_translate demo_str demo_cfg 0
                   (build_outstring demo_str demo_cfg (demo_globals "G99" 20)
                      None G81_example)
                   (Name G81_example) (Parameters G81_example)
                   (track demo_cfg G81_example (demo_globals "G99" 20))
                 = Ok ("G0 X1.000 Y2.000" +:+ nl
                       +:+ "G1 Z5.000 F6000.00" +:+ nl
                       +:+ "G1 Z-10.000 F6000.00" +:+ nl
                       +:+ "G0 Z5.000" +:+ nl)
                      (demo_globals "G99" 20))
    by (vm_compute; reflexivity).
  pose proof (translated_cycle_in_loop demo_str demo_cfg 0 None G81_example
                (OutStr "") (demo_globals "G99" 20) _ _ eq_refl eq_refl Hrun)
    as H.
  vm_compute in H. vm_compute. exact H.
Defined.

